(** * Token lifecycle and refresh coordination of the Express/NextAuth
      authentication layer

    The development embeds the parts of the repository that issue, rotate
    and revoke tokens:

    - [server/models/User.js] (schema setters and the instance methods
      [isPasswordCorrect], [generateAccessToken], [generateRefreshToken],
      [checkAndUpdateExpiredStatus], [generateAccessAndRefereshTokens]);
    - [server/models/UsedRefreshToken.js] (the grace-period ledger);
    - [server/controllers/user.js] ([registerUser], [loginUser],
      [logoutUser], [refreshAccessToken]);
    - [server/middleware/authMiddleware.js] ([authenticate]),
      [server/middleware/casbinAuthorize.js] ([authorize]) and the logout
      route of [server/routes/user.js];
    - [server/jobs/subscriptionJobs.js] (the nightly expiry check);
    - [client/src/lib/auth.js] (the credentials provider, the [jwt]
      callback, [refreshAccessToken] and the distributed single flight
      with its Redis keys, lock and result TTL).

    Modelling conventions.
    - Time is a [Z] of milliseconds since the epoch ([Date.now()]); a
      request reads the clock once.
    - A MongoDB collection is a list of documents in natural order, so that
      [findOne] is "first match" and [create] appends.
    - [jsonwebtoken] is modelled symbolically: a token is the secret it was
      signed with and its payload, or an arbitrary string that is no JWT.
      HS256 signing is deterministic, so [jwt.sign] is a function of the
      payload, the secret and the second of issuance.
    - Strings are ASCII strings; [toLowerCase] and [trim] act on ASCII
      letters and ASCII white space.
    - A database call never fails for infrastructure reasons; the only
      store failure kept is [save] on a document that no longer exists.
    - A Mongoose document tracks the paths whose value was changed since
      the load, and [save] writes those paths only.
    - A call of the distributed single flight is followed from [await] to
      [await]: a resumption is the awaited operation taking effect and the
      code running on to its next [await], at one reading of the clock. *)

From Stdlib Require Import ZArith Lia Ascii String List.
From stdpp Require Import base decidable option list strings gmap.

Open Scope Z_scope.

(** ** JavaScript strings *)

Module JsString.

Definition toLowerCaseChar (c : ascii) : ascii :=
  let n := nat_of_ascii c in
  if (Nat.leb 65 n && Nat.leb n 90)%bool then ascii_of_nat (n + 32) else c.

Fixpoint toLowerCase (s : string) : string :=
  match s with
  | EmptyString => EmptyString
  | String c r => String (toLowerCaseChar c) (toLowerCase r)
  end.

(** White space removed by [String.prototype.trim], ASCII part:
    TAB, LF, VT, FF, CR and SPACE. *)
Definition isSpace (c : ascii) : bool :=
  let n := nat_of_ascii c in
  (Nat.leb 9 n && Nat.leb n 13 || Nat.eqb n 32)%bool.

Fixpoint trimStart (s : string) : string :=
  match s with
  | EmptyString => EmptyString
  | String c r => if isSpace c then trimStart r else s
  end.

(** [trimEnd] keeps a character when it is no white space or when
    something is kept after it. *)
Fixpoint trimEnd (s : string) : string :=
  match s with
  | EmptyString => EmptyString
  | String c r =>
      match trimEnd r with
      | EmptyString => if isSpace c then EmptyString else String c EmptyString
      | r' => String c r'
      end
  end.

Definition trim (s : string) : string := trimEnd (trimStart s).

(** Two strings that differ in letter case only: same length, and
    position by position the same character up to case. *)
Fixpoint differsOnlyInCase (a b : string) : bool :=
  match a, b with
  | EmptyString, EmptyString => true
  | String x a', String y b' =>
      bool_decide (toLowerCaseChar x = toLowerCaseChar y) && differsOnlyInCase a' b'
  | _, _ => false
  end.

(** JavaScript truthiness of a string-valued field that may be absent. *)
Definition truthy (s : option string) : bool :=
  match s with
  | Some v => negb (bool_decide (v = EmptyString))
  | None => false
  end.

End JsString.

(** ** Enumerations of the user schema *)

(** [role: enum ['user', 'admin', 'editor', 'support']]. *)
Inductive Role := user | admin | editor | support.

(** [subscriptionStatus: enum ['active', 'trialing', 'canceled',
    'past_due', 'pending', 'free']]. *)
Inductive SubscriptionStatus := active | trialing | canceled | past_due | pending | free.

#[global] Instance Role_eq_dec : EqDecision Role.
Proof. solve_decision. Defined.

#[global] Instance SubscriptionStatus_eq_dec : EqDecision SubscriptionStatus.
Proof. solve_decision. Defined.

(** ** jsonwebtoken *)

Module jwt.

(** The two payload shapes the server signs:
    [{ _id, role, plan }] for access tokens and [{ _id }] for refresh
    tokens. *)
Inductive Claims :=
| AccessClaims (_id : Z) (role : Role) (plan : string)
| RefreshClaims (_id : Z).

Definition claims_id (c : Claims) : Z :=
  match c with
  | AccessClaims i _ _ => i
  | RefreshClaims i => i
  end.

(** A token string.  [Signed k c iat exp] is the compact serialisation of
    payload [c] with [iat] and [exp] (in seconds) signed with secret [k];
    [Opaque s] is any other string. *)
Inductive Token :=
| Signed (secret : string) (payload : Claims) (iat exp : Z)
| Opaque (raw : string).

Inductive VerifyError := TokenExpiredError | JsonWebTokenError.

(** [Math.floor(Date.now() / 1000)]. *)
Definition clockTimestamp (now : Z) : Z := now / 1000.

(** [jwt.sign(payload, secret, { expiresIn })], [expiresIn] in seconds. *)
Definition sign (now : Z) (payload : Claims) (secret : string) (expiresIn : Z) : Token :=
  let iat := clockTimestamp now in
  Signed secret payload iat (iat + expiresIn).

(** [jwt.verify(token, secret)]: a string that is no JWT, a missing secret
    and a bad signature are [JsonWebTokenError]s; the signature is checked
    before the expiry, and a token is expired when
    [clockTimestamp >= exp]. *)
Definition verify (now : Z) (token : Token) (secret : string) : VerifyError + Claims :=
  match token with
  | Opaque _ => inl JsonWebTokenError
  | Signed k payload _ exp =>
      if bool_decide (secret = EmptyString) then inl JsonWebTokenError
      else if bool_decide (k = secret)
      then if exp <=? clockTimestamp now then inl TokenExpiredError else inr payload
      else inl JsonWebTokenError
  end.

(** Truthiness of a token string: only the empty string is falsy. *)
Definition truthy (t : option Token) : bool :=
  match t with
  | Some (Opaque s) => negb (bool_decide (s = EmptyString))
  | Some (Signed _ _ _ _) => true
  | None => false
  end.

End jwt.

#[global] Instance Claims_eq_dec : EqDecision jwt.Claims.
Proof. solve_decision. Defined.

#[global] Instance Token_eq_dec : EqDecision jwt.Token.
Proof. solve_decision. Defined.

(** ** Documents *)

(** [server/models/Plan.js], the fields the token code reads. *)
Module Plan.

Record t := { _id : Z; slug : string }.

End Plan.

(** The value of a [planId] path: absent or [null], an [ObjectId], or the
    populated plan document. *)
Inductive PlanRef :=
| PlanNone
| PlanOid (oid : Z)
| PlanDoc (plan : Plan.t).

(** [server/models/User.js].  Fields that no modelled operation reads
    (names, picture, provider, preferences, timestamps) are left out.
    [password_hash] and [refreshToken] are [select: false] paths, hence
    optional on a loaded document. *)
Module User.

Record t := {
  _id : Z;
  username : string;
  email : string;
  password_hash : option string;
  refreshToken : option jwt.Token;
  planId : PlanRef;
  subscriptionStatus : SubscriptionStatus;
  subscriptionStartDate : option Z;
  subscriptionEndDate : option Z;
  trialEndsAt : option Z;
  role : Role
}.

End User.

(** [server/models/UsedRefreshToken.js]. *)
Module UsedRefreshToken.

Record t := {
  token : jwt.Token;
  userId : Z;
  accessToken : jwt.Token;
  createdAt : Z
}.

(** [expires: '10s'] on [createdAt], in milliseconds. *)
Definition expires : Z := 10000.

End UsedRefreshToken.

#[global] Instance Plan_eq_dec : EqDecision Plan.t.
Proof. solve_decision. Defined.

#[global] Instance PlanRef_eq_dec : EqDecision PlanRef.
Proof. solve_decision. Defined.

#[global] Instance User_eq_dec : EqDecision User.t.
Proof. solve_decision. Defined.

#[global] Instance UsedRefreshToken_eq_dec : EqDecision UsedRefreshToken.t.
Proof. solve_decision. Defined.

(** ** The database *)

Record DB := {
  users : list User.t;
  plans : list Plan.t;
  usedRefreshTokens : list UsedRefreshToken.t
}.

#[global] Instance DB_eq_dec : EqDecision DB.
Proof. solve_decision. Defined.

(** [process.env] as the server reads it.  A secret that is not set is the
    empty string; the expiries are the parsed [expiresIn] values in
    seconds (['15m'] is 900, ['7d'] is 604800). *)
Record Env := {
  ACCESS_TOKEN_SECRET : string;
  REFRESH_TOKEN_SECRET : string;
  ACCESS_TOKEN_EXPIRY : Z;
  REFRESH_TOKEN_EXPIRY : Z
}.

(** ** HTTP responses of the user controller *)

Module Res.

(** The [user] object of the login response. *)
Record UserInfo := {
  _id : Z;
  username : string;
  email : string;
  role : Role;
  plan : option string;
  subscriptionStatus : SubscriptionStatus
}.

(** [res.status(status).json({ message, accessToken, refreshToken, user,
    error })]; a key whose value is [undefined] is absent. *)
Record t := {
  status : Z;
  message : string;
  accessToken : option jwt.Token;
  refreshToken : option jwt.Token;
  user : option UserInfo;
  error : option string
}.

Definition json (status : Z) (message : string) : t :=
  {| status := status; message := message; accessToken := None;
     refreshToken := None; user := None; error := None |}.

End Res.

#[global] Instance UserInfo_eq_dec : EqDecision Res.UserInfo.
Proof. solve_decision. Defined.

#[global] Instance Res_eq_dec : EqDecision Res.t.
Proof. solve_decision. Defined.

(** ** Asynchronous programs over the database

    An [async] function is a tree of database calls: every [await] of a
    model call is one [Await] node, executed atomically by the store, and
    other requests may run between two such nodes.  [Throw] is a raised
    exception. *)

Inductive Exn :=
| JwtExn (e : jwt.VerifyError)
| Error (message : string).

Inductive Prog (A : Type) : Type :=
| Ret (a : A)
| Throw (e : Exn)
| Await {X : Type} (op : DB -> DB * X) (k : X -> Prog A).

Arguments Ret {A} a.
Arguments Throw {A} e.
Arguments Await {A X} op k.

Fixpoint bind {A B : Type} (m : Prog A) (f : A -> Prog B) : Prog B :=
  match m with
  | Ret a => f a
  | Throw e => Throw e
  | Await op k => Await op (fun x => bind (k x) f)
  end.

(** [try { m } catch (e) { h e }]. *)
Fixpoint tryCatch {A : Type} (m : Prog A) (h : Exn -> Prog A) : Prog A :=
  match m with
  | Ret a => Ret a
  | Throw e => h e
  | Await op k => Await op (fun x => tryCatch (k x) h)
  end.

Notation "'let*' x ':=' m 'in' k" := (bind m (fun x => k))
  (at level 10, x pattern, m at level 100, k at level 200).

(** A read of the store, and a call that changes it. *)
Definition query {X : Type} (q : DB -> X) : Prog X :=
  Await (fun db => (db, q db)) Ret.

Definition command {X : Type} (c : DB -> DB * X) : Prog X :=
  Await c Ret.

(** Running a program to completion with no other request in between. *)
Fixpoint run {A : Type} (m : Prog A) (db : DB) : DB * (Exn + A) :=
  match m with
  | Ret a => (db, inr a)
  | Throw e => (db, inl e)
  | Await op k => let '(db', x) := op db in run (k x) db'
  end.

(** One database call of a request in flight. *)
Definition step {A : Type} (m : Prog A) (db : DB) : DB * Prog A :=
  match m with
  | Await op k => let '(db', x) := op db in (db', k x)
  | _ => (db, m)
  end.

(** Two requests in flight; the schedule says whose database call is served
    next ([true] is the first request). *)
Fixpoint interleave {A B : Type} (schedule : list bool)
    (p : Prog A) (q : Prog B) (db : DB) : DB * (Prog A * Prog B) :=
  match schedule with
  | [] => (db, (p, q))
  | true :: rest => let '(db', p') := step p db in interleave rest p' q db'
  | false :: rest => let '(db', q') := step q db in interleave rest p q' db'
  end.

(** The result of a request that has run to its end. *)
Definition finished {A : Type} (m : Prog A) : option (Exn + A) :=
  match m with
  | Ret a => Some (inr a)
  | Throw e => Some (inl e)
  | Await _ _ => None
  end.

(** ** Collections *)

(** [updateOne]: the first document that matches is updated. *)
Fixpoint updateFirst {A : Type} (p : A -> bool) (f : A -> A) (l : list A) : list A :=
  match l with
  | [] => []
  | x :: r => if p x then f x :: r else x :: updateFirst p f r
  end.

(** The paths of a user document that the token code assigns. *)
Inductive Assignment :=
| refreshToken_set (v : option jwt.Token)
| planId_set (v : PlanRef)
| subscriptionStatus_set (v : SubscriptionStatus)
| subscriptionStartDate_set (v : option Z)
| subscriptionEndDate_set (v : option Z)
| trialEndsAt_set (v : option Z).

Definition assign (u : User.t) (a : Assignment) : User.t :=
  match a with
  | refreshToken_set v =>
      {| User._id := User._id u; User.username := User.username u;
         User.email := User.email u; User.password_hash := User.password_hash u;
         User.refreshToken := v; User.planId := User.planId u;
         User.subscriptionStatus := User.subscriptionStatus u;
         User.subscriptionStartDate := User.subscriptionStartDate u;
         User.subscriptionEndDate := User.subscriptionEndDate u;
         User.trialEndsAt := User.trialEndsAt u; User.role := User.role u |}
  | planId_set v =>
      {| User._id := User._id u; User.username := User.username u;
         User.email := User.email u; User.password_hash := User.password_hash u;
         User.refreshToken := User.refreshToken u; User.planId := v;
         User.subscriptionStatus := User.subscriptionStatus u;
         User.subscriptionStartDate := User.subscriptionStartDate u;
         User.subscriptionEndDate := User.subscriptionEndDate u;
         User.trialEndsAt := User.trialEndsAt u; User.role := User.role u |}
  | subscriptionStatus_set v =>
      {| User._id := User._id u; User.username := User.username u;
         User.email := User.email u; User.password_hash := User.password_hash u;
         User.refreshToken := User.refreshToken u; User.planId := User.planId u;
         User.subscriptionStatus := v;
         User.subscriptionStartDate := User.subscriptionStartDate u;
         User.subscriptionEndDate := User.subscriptionEndDate u;
         User.trialEndsAt := User.trialEndsAt u; User.role := User.role u |}
  | subscriptionStartDate_set v =>
      {| User._id := User._id u; User.username := User.username u;
         User.email := User.email u; User.password_hash := User.password_hash u;
         User.refreshToken := User.refreshToken u; User.planId := User.planId u;
         User.subscriptionStatus := User.subscriptionStatus u;
         User.subscriptionStartDate := v;
         User.subscriptionEndDate := User.subscriptionEndDate u;
         User.trialEndsAt := User.trialEndsAt u; User.role := User.role u |}
  | subscriptionEndDate_set v =>
      {| User._id := User._id u; User.username := User.username u;
         User.email := User.email u; User.password_hash := User.password_hash u;
         User.refreshToken := User.refreshToken u; User.planId := User.planId u;
         User.subscriptionStatus := User.subscriptionStatus u;
         User.subscriptionStartDate := User.subscriptionStartDate u;
         User.subscriptionEndDate := v;
         User.trialEndsAt := User.trialEndsAt u; User.role := User.role u |}
  | trialEndsAt_set v =>
      {| User._id := User._id u; User.username := User.username u;
         User.email := User.email u; User.password_hash := User.password_hash u;
         User.refreshToken := User.refreshToken u; User.planId := User.planId u;
         User.subscriptionStatus := User.subscriptionStatus u;
         User.subscriptionStartDate := User.subscriptionStartDate u;
         User.subscriptionEndDate := User.subscriptionEndDate u;
         User.trialEndsAt := v; User.role := User.role u |}
  end.

(** [Object.assign(this, updateData)] and the [$set] of an update. *)
Definition assignAll (u : User.t) (updateData : list Assignment) : User.t :=
  fold_left assign updateData u.

(** A loaded user document: its current values and the paths modified since
    it was loaded, which are what [save] writes. *)
Record Document := {
  this : User.t;
  modifiedPaths : list Assignment
}.

Definition loaded (u : User.t) : Document :=
  {| this := u; modifiedPaths := [] |}.

(** An assignment [this.path = v]: the document marks the path modified
    when the value differs from the one it holds. *)
Definition changes (u : User.t) (a : Assignment) : bool :=
  negb (bool_decide (assign u a = u)).

Definition setPath (doc : Document) (a : Assignment) : Document :=
  if changes (this doc) a
  then {| this := assign (this doc) a; modifiedPaths := modifiedPaths doc ++ [a] |}
  else doc.

(** [Object.assign(this, updateData)]: one assignment per key, in order. *)
Definition Object_assign (doc : Document) (updateData : list Assignment) : Document :=
  fold_left setPath updateData doc.

Definition withUsers (db : DB) (us : list User.t) : DB :=
  {| users := us; plans := plans db; usedRefreshTokens := usedRefreshTokens db |}.

Definition withUsedRefreshTokens (db : DB) (l : list UsedRefreshToken.t) : DB :=
  {| users := users db; plans := plans db; usedRefreshTokens := l |}.

Definition hasId (id : Z) (u : User.t) : bool := bool_decide (User._id u = id).

(** [planId] of a stored document is an [ObjectId] or nothing; [populate]
    replaces it by the plan it refers to, or by [null] when there is none. *)
Definition populate (ps : list Plan.t) (u : User.t) : User.t :=
  match User.planId u with
  | PlanOid oid =>
      assign u (planId_set
        match List.find (fun p => bool_decide (Plan._id p = oid)) ps with
        | Some p => PlanDoc p
        | None => PlanNone
        end)
  | _ => u
  end.

(** A projection without [+password_hash]. *)
Definition deselectPasswordHash (u : User.t) : User.t :=
  {| User._id := User._id u; User.username := User.username u;
     User.email := User.email u; User.password_hash := None;
     User.refreshToken := User.refreshToken u; User.planId := User.planId u;
     User.subscriptionStatus := User.subscriptionStatus u;
     User.subscriptionStartDate := User.subscriptionStartDate u;
     User.subscriptionEndDate := User.subscriptionEndDate u;
     User.trialEndsAt := User.trialEndsAt u; User.role := User.role u |}.

(** Query casting runs the schema setters on the filter values:
    [trim: true] on [username]; [lowercase: true, trim: true] on [email]. *)
Definition castUsername (v : string) : string := JsString.trim v.

Definition castEmail (v : string) : string := JsString.trim (JsString.toLowerCase v).

(** The filter [{ $or: [{ username: identifier }, { email: identifier }] }]. *)
Definition matchesIdentifier (identifier : string) (u : User.t) : bool :=
  bool_decide (User.username u = castUsername identifier)
  || bool_decide (User.email u = castEmail identifier).

(** [User.findOne({ $or: ... }).select('+password_hash +refreshToken')
    .populate('planId')]. *)
Definition User_findOne_identifier (identifier : string) (db : DB) : option User.t :=
  populate (plans db) <$> List.find (matchesIdentifier identifier) (users db).

(** [User.findById(id).select('+refreshToken').populate('planId')]. *)
Definition User_findById (id : Z) (db : DB) : option User.t :=
  (fun u => populate (plans db) (deselectPasswordHash u)) <$> List.find (hasId id) (users db).

(** [User.updateOne({ _id: userId }, { $unset: { refreshToken: "" } })]. *)
Definition User_unsetRefreshToken_byId (userId : Z) (db : DB) : DB :=
  withUsers db (updateFirst (hasId userId) (fun u => assign u (refreshToken_set None)) (users db)).

(** [User.updateOne({ refreshToken: incoming }, { $unset: { refreshToken: "" } })]. *)
Definition User_unsetRefreshToken_byToken (incoming : jwt.Token) (db : DB) : DB :=
  withUsers db
    (updateFirst (fun u => bool_decide (User.refreshToken u = Some incoming))
       (fun u => assign u (refreshToken_set None)) (users db)).

(** [Plan.findOne({ slug: 'free' }).select('_id')]. *)
Definition Plan_findOne_free (db : DB) : option Plan.t :=
  List.find (fun p => bool_decide (Plan.slug p = "free"%string)) (plans db).

(** [doc.save()]: the modified paths are written to the stored document
    with the same [_id], without any condition on what that document holds;
    saving a document that is gone is an error. *)
Definition save (doc : Document) (db : DB) : DB * (Exn + unit) :=
  match List.find (hasId (User._id (this doc))) (users db) with
  | Some _ =>
      (withUsers db
         (updateFirst (hasId (User._id (this doc)))
            (fun u => assignAll u (modifiedPaths doc)) (users db)),
       inr tt)
  | None => (db, inl (Error "No document found for query"))
  end.

(** [UsedRefreshToken.create({ token, userId, accessToken })], with
    [createdAt] defaulting to [Date.now]. *)
Definition UsedRefreshToken_create (now : Z) (token : jwt.Token) (userId : Z)
    (accessToken : jwt.Token) (db : DB) : DB * unit :=
  (withUsedRefreshTokens db
     (usedRefreshTokens db ++
        [{| UsedRefreshToken.token := token; UsedRefreshToken.userId := userId;
            UsedRefreshToken.accessToken := accessToken;
            UsedRefreshToken.createdAt := now |}]),
   tt).

(** [UsedRefreshToken.findOne({ token })]. *)
Definition UsedRefreshToken_findOne (token : jwt.Token) (db : DB) : option UsedRefreshToken.t :=
  List.find (fun e => bool_decide (UsedRefreshToken.token e = token)) (usedRefreshTokens db).

(** The TTL monitor of the store: a pass deletes the ledger documents whose
    [createdAt] is [expires] or more in the past. *)
Definition ttlMonitor (now : Z) (db : DB) : DB :=
  withUsedRefreshTokens db
    (List.filter (fun e => now <? UsedRefreshToken.createdAt e + UsedRefreshToken.expires)
       (usedRefreshTokens db)).

(** ** The user model's methods and the user controller *)

Definition exnMessage (e : Exn) : string :=
  match e with
  | JwtExn jwt.TokenExpiredError => "jwt expired"
  | JwtExn jwt.JsonWebTokenError => "invalid token"
  | Error m => m
  end.

Section Server.

(** The environment of the server process, and [bcrypt.compare]. *)
Variable env : Env.
Variable bcrypt_compare : string -> string -> bool.

(** [userSchema.methods.isPasswordCorrect]. *)
Definition isPasswordCorrect (u : User.t) (passwordAttempt : option string) : bool :=
  match passwordAttempt, User.password_hash u with
  | Some attempt, Some hash =>
      if negb (JsString.truthy passwordAttempt) || negb (JsString.truthy (User.password_hash u))
      then false
      else bcrypt_compare attempt hash
  | _, _ => false
  end.

(** The plan slug that [generateAccessToken] embeds. *)
Definition planSlugOf (u : User.t) : string :=
  match User.planId u with
  | PlanDoc p =>
      if negb (bool_decide (Plan.slug p = EmptyString)) then Plan.slug p
      else if bool_decide (User.subscriptionStatus u = free) then "free" else "free"
  | PlanOid _ =>
      if bool_decide (User.subscriptionStatus u = free) then "free" else "free"
  | PlanNone => "free"
  end.

(** [userSchema.methods.generateAccessToken]. *)
Definition generateAccessToken (now : Z) (u : User.t) : Exn + jwt.Token :=
  if bool_decide (ACCESS_TOKEN_SECRET env = EmptyString)
  then inl (Error "ACCESS_TOKEN_SECRET is not defined in environment variables.")
  else inr (jwt.sign now (jwt.AccessClaims (User._id u) (User.role u) (planSlugOf u))
              (ACCESS_TOKEN_SECRET env) (ACCESS_TOKEN_EXPIRY env)).

(** [userSchema.methods.generateRefreshToken]. *)
Definition generateRefreshToken (now : Z) (u : User.t) : Exn + jwt.Token :=
  if bool_decide (REFRESH_TOKEN_SECRET env = EmptyString)
  then inl (Error "REFRESH_TOKEN_SECRET is not defined in environment variables.")
  else inr (jwt.sign now (jwt.RefreshClaims (User._id u))
              (REFRESH_TOKEN_SECRET env) (REFRESH_TOKEN_EXPIRY env)).

(** The test of [checkAndUpdateExpiredStatus]: a [Date] is truthy, a
    missing or [null] date is not. *)
Definition subscriptionExpired (now : Z) (u : User.t) : bool :=
  (bool_decide (User.subscriptionStatus u = active)
   && match User.subscriptionEndDate u with Some d => d <=? now | None => false end)
  || (bool_decide (User.subscriptionStatus u = trialing)
      && match User.trialEndsAt u with Some d => d <=? now | None => false end).

(** The [updateData] of [checkAndUpdateExpiredStatus]
    ([defaultExpiredStatus = 'canceled'], [revertToFree = true]). *)
Definition expiredUpdateData (now : Z) (freePlan : option Plan.t) : list Assignment :=
  match freePlan with
  | Some p =>
      [ planId_set (PlanOid (Plan._id p));
        subscriptionStatus_set free;
        subscriptionStartDate_set (Some now);
        subscriptionEndDate_set None;
        trialEndsAt_set None ]
  | None => [ subscriptionStatus_set canceled ]
  end.

(** [userSchema.methods.checkAndUpdateExpiredStatus]; returns the document
    as modified and the flag [updated]. *)
Definition checkAndUpdateExpiredStatus (now : Z) (doc : Document) : Prog (Document * bool) :=
  if subscriptionExpired now (this doc)
  then
    let* freePlan := query Plan_findOne_free in
    Ret (Object_assign doc (expiredUpdateData now freePlan), true)
  else Ret (doc, false).

Definition lift {A : Type} (r : Exn + A) : Prog A :=
  match r with
  | inl e => Throw e
  | inr a => Ret a
  end.

(** [userSchema.methods.generateAccessAndRefereshTokens]; returns the
    document as modified with the two tokens. *)
Definition generateAccessAndRefereshTokens (now : Z) (doc : Document)
    : Prog (Document * (jwt.Token * jwt.Token)) :=
  tryCatch
    (let* doc1 :=
       match User.planId (this doc) with
       | PlanOid _ =>
           let* ps := query plans in
           Ret {| this := populate ps (this doc); modifiedPaths := modifiedPaths doc |}
       | _ => Ret doc
       end in
     let* (doc2, _) := checkAndUpdateExpiredStatus now doc1 in
     let* accessToken := lift (generateAccessToken now (this doc2)) in
     let* refreshToken := lift (generateRefreshToken now (this doc2)) in
     let doc3 := setPath doc2 (refreshToken_set (Some refreshToken)) in
     let* saved := command (save doc3) in
     let* _ := lift saved in
     Ret (doc3, (accessToken, refreshToken)))
    (fun error =>
       Throw (Error (String.append "Failed to generate tokens or update user: "
                            (exnMessage error)))).

(** The [plan] key of the login response. *)
Definition planOfResponse (u : User.t) : option string :=
  match User.planId u with
  | PlanDoc p => Some (Plan.slug p)
  | PlanOid _ => None
  | PlanNone => if bool_decide (User.subscriptionStatus u = free) then Some "free"%string else None
  end.

(** [loginUser], on [req.body = { identifier, password }]. *)
Definition loginUser (now : Z) (identifier password : option string) : Prog Res.t :=
  tryCatch
    (if negb (JsString.truthy identifier) || negb (JsString.truthy password)
     then Ret (Res.json 400 "Please provide username/email and password.")
     else
       let* found := query (User_findOne_identifier (default EmptyString identifier)) in
       match found with
       | None => Ret (Res.json 404 "Invalid credentials.")
       | Some u =>
           if negb (isPasswordCorrect u password)
           then Ret (Res.json 401 "Invalid credentials.")
           else
             let* (doc, (accessToken, refreshToken)) :=
               generateAccessAndRefereshTokens now (loaded u) in
             Ret {| Res.status := 200;
                    Res.message := "Login successful.";
                    Res.accessToken := Some accessToken;
                    Res.refreshToken := Some refreshToken;
                    Res.user := Some
                      {| Res._id := User._id (this doc);
                         Res.username := User.username (this doc);
                         Res.email := User.email (this doc);
                         Res.role := User.role (this doc);
                         Res.plan := planOfResponse (this doc);
                         Res.subscriptionStatus := User.subscriptionStatus (this doc) |};
                    Res.error := None |}
       end)
    (fun error =>
       Ret {| Res.status := 500; Res.message := "Error logging in user.";
              Res.accessToken := None; Res.refreshToken := None; Res.user := None;
              Res.error := Some (exnMessage error) |}).

(** [logoutUser], on [req.user?._id] and [req.body?.refreshToken]. *)
Definition logoutUser (userId : option Z) (incomingRefreshToken : option jwt.Token)
    : Prog Res.t :=
  tryCatch
    (let* _ :=
       match userId with
       | Some id => command (fun db => (User_unsetRefreshToken_byId id db, tt))
       | None =>
           match incomingRefreshToken with
           | Some t =>
               if jwt.truthy incomingRefreshToken
               then command (fun db => (User_unsetRefreshToken_byToken t db, tt))
               else Ret tt
           | None => Ret tt
           end
       end in
     Ret (Res.json 200 "User logged out successfully."))
    (fun error =>
       Ret {| Res.status := 500; Res.message := "Error logging out user.";
              Res.accessToken := None; Res.refreshToken := None; Res.user := None;
              Res.error := Some (exnMessage error) |}).

(** The [catch] block of [refreshAccessToken]. *)
Definition refreshCatch (error : Exn) : Res.t :=
  match error with
  | JwtExn jwt.TokenExpiredError => Res.json 403 "Forbidden: Refresh token expired."
  | JwtExn jwt.JsonWebTokenError => Res.json 403 "Forbidden: Malformed refresh token."
  | Error _ => Res.json 500 "Internal server error."
  end.

(** [refreshAccessToken], on [req.body?.refreshToken]. *)
Definition refreshAccessToken (now : Z) (body_refreshToken : option jwt.Token) : Prog Res.t :=
  match body_refreshToken with
  | Some incomingRefreshToken =>
      if negb (jwt.truthy body_refreshToken)
      then Ret (Res.json 401 "Unauthorized: No refresh token provided.")
      else
        tryCatch
          (let* decoded :=
             lift (match jwt.verify now incomingRefreshToken (REFRESH_TOKEN_SECRET env) with
                   | inl e => inl (JwtExn e)
                   | inr c => inr c
                   end) in
           let* found := query (User_findById (jwt.claims_id decoded)) in
           match found with
           | None => Ret (Res.json 403 "Forbidden: User not found.")
           | Some u =>
               if bool_decide (User.refreshToken u = Some incomingRefreshToken)
               then
                 let* (_, (accessToken, newRefreshToken)) :=
                   generateAccessAndRefereshTokens now (loaded u) in
                 let* _ :=
                   command (UsedRefreshToken_create now incomingRefreshToken
                              (User._id u) accessToken) in
                 Ret {| Res.status := 200;
                        Res.message := "Access token refreshed.";
                        Res.accessToken := Some accessToken;
                        Res.refreshToken := Some newRefreshToken;
                        Res.user := None; Res.error := None |}
               else
                 let* isInGraceList := query (UsedRefreshToken_findOne incomingRefreshToken) in
                 match isInGraceList with
                 | Some entry =>
                     Ret {| Res.status := 200;
                            Res.message := "Access token refreshed (grace period).";
                            Res.accessToken := Some (UsedRefreshToken.accessToken entry);
                            Res.refreshToken := User.refreshToken u;
                            Res.user := None; Res.error := None |}
                 | None => Ret (Res.json 403 "Forbidden: Invalid refresh token.")
                 end
           end)
          (fun error => Ret (refreshCatch error))
  | None => Ret (Res.json 401 "Unauthorized: No refresh token provided.")
  end.

End Server.

(** ** The NextAuth side: [client/src/lib/auth.js] *)

Module auth.

Definition EARLY_REFRESH_WINDOW_MS : Z := 30000.
Definition LOCK_TTL_MS : Z := 8000.
Definition WAIT_TIMEOUT_MS : Z := 9000.
Definition POLL_INTERVAL_MS : Z := 200.
Definition RESULT_TTL_CAP_MS : Z := 20000.

(** The NextAuth JWT of a session, the keys the refresh code touches.
    [refreshErrorStatus] is [refreshError.status]. *)
Record Session := {
  accessToken : option jwt.Token;
  accessTokenExpires : option Z;
  refreshToken : option jwt.Token;
  refreshJitterMs : option Z;
  error : option string;
  refreshErrorStatus : option Z
}.

(** [expFromJwtMs(token)] with its default [fallbackMs]: the [exp] claim in
    milliseconds, or fifteen minutes from now for a string that does not
    decode. *)
Definition expFromJwtMs (now : Z) (token : jwt.Token) : Z :=
  match token with
  | jwt.Signed _ _ _ exp => exp * 1000
  | jwt.Opaque _ => now + 15 * 60 * 1000
  end.

(** [computeAccessTokenExpires(data, accessToken)]; the server's responses
    carry neither [expiresAtMs] nor [expiresInSec]. *)
Definition computeAccessTokenExpires (now : Z) (data : Res.t) (accessToken : jwt.Token) : Z :=
  expFromJwtMs now accessToken.

(** [refreshAccessToken(token)], given the response of the backend. *)
Definition refreshAccessToken (now : Z) (token : Session) (res : Res.t) : Session :=
  if negb ((200 <=? Res.status res) && (Res.status res <=? 299))
  then
    if bool_decide (Res.status res = 401) || bool_decide (Res.status res = 403)
    then {| accessToken := None; accessTokenExpires := Some 0;
            refreshToken := refreshToken token;
            refreshJitterMs := refreshJitterMs token;
            error := Some "RefreshAccessTokenError"%string;
            refreshErrorStatus := Some (Res.status res) |}
    else {| accessToken := accessToken token;
            accessTokenExpires := accessTokenExpires token;
            refreshToken := refreshToken token;
            refreshJitterMs := refreshJitterMs token;
            error := Some "RefreshAccessTokenError"%string;
            refreshErrorStatus := Some (Res.status res) |}
  else
    match Res.accessToken res with
    | Some nextAccessToken =>
        if jwt.truthy (Res.accessToken res)
        then {| accessToken := Some nextAccessToken;
                accessTokenExpires :=
                  Some (computeAccessTokenExpires now res nextAccessToken);
                refreshToken :=
                  match Res.refreshToken res with
                  | Some r => Some r
                  | None => refreshToken token
                  end;
                refreshJitterMs := refreshJitterMs token;
                error := None;
                refreshErrorStatus := None |}
        else {| accessToken := accessToken token;
                accessTokenExpires := accessTokenExpires token;
                refreshToken := refreshToken token;
                refreshJitterMs := refreshJitterMs token;
                error := Some "RefreshAccessTokenError"%string;
                refreshErrorStatus := Some (Res.status res) |}
    | None =>
        {| accessToken := accessToken token;
           accessTokenExpires := accessTokenExpires token;
           refreshToken := refreshToken token;
           refreshJitterMs := refreshJitterMs token;
           error := Some "RefreshAccessTokenError"%string;
           refreshErrorStatus := Some (Res.status res) |}
    end.

(** [Number(x || 0)] on a numeric key that may be absent. *)
Definition numberOr0 (x : option Z) : Z := default 0 x.

(** The leader's [msUntilEarly]. *)
Definition msUntilEarly (now : Z) (refreshed : Session) : Z :=
  let expiresMs := numberOr0 (accessTokenExpires refreshed) in
  Z.max 0 (expiresMs - now - EARLY_REFRESH_WINDOW_MS).

(** The leader's [resultTtlMs]; [msUntilEarly || RESULT_TTL_CAP_MS] takes
    the cap when [msUntilEarly] is [0]. *)
Definition resultTtlMs (now : Z) (refreshed : Session) : Z :=
  let m := msUntilEarly now refreshed in
  Z.max 2000 (Z.min RESULT_TTL_CAP_MS (if m =? 0 then RESULT_TTL_CAP_MS else m)).

(** The jwt callback's [needsRefresh]. *)
Definition needsRefresh (now : Z) (token : Session) : bool :=
  let jitter := numberOr0 (refreshJitterMs token) in
  let expires := numberOr0 (accessTokenExpires token) in
  (expires =? 0) || (expires - (EARLY_REFRESH_WINDOW_MS + jitter) <=? now).

(** The result keys of the Redis instance: a value and the instant at which
    its [PX] time to live runs out. *)
Definition redis_set_px (now : Z) (key : string) (value : Session) (px : Z)
    (redis : gmap string (Session * Z)) : gmap string (Session * Z) :=
  <[ key := (value, now + px) ]> redis.

Definition redis_get (now : Z) (key : string) (redis : gmap string (Session * Z))
    : option Session :=
  match redis !! key with
  | Some (value, deadline) => if now <? deadline then Some value else None
  | None => None
  end.

(** The leader branch of [distributedSingleFlightRefresh] once the lock is
    held: run [refreshFn], publish the result under [rKey] with
    [resultTtlMs], return the result. *)
Definition leaderRefresh (now : Z) (rKey : string) (refreshFn : Session -> Session)
    (token : Session) (redis : gmap string (Session * Z))
    : gmap string (Session * Z) * Session :=
  let refreshed := refreshFn token in
  (redis_set_px now rKey refreshed (resultTtlMs now refreshed) redis, refreshed).

End auth.

(** ** A concrete deployment, used to run the definitions *)

Module Sample.

Definition env0 : Env :=
  {| ACCESS_TOKEN_SECRET := "access-secret";
     REFRESH_TOKEN_SECRET := "refresh-secret";
     ACCESS_TOKEN_EXPIRY := 900;
     REFRESH_TOKEN_EXPIRY := 604800 |}.

(** A stand-in for [bcrypt.compare]: the hash of a password is the
    password behind a fixed prefix. *)
Definition bcrypt0 (attempt hash : string) : bool :=
  String.eqb (String.append "$2a$10$" attempt) hash.

Definition proPlan : Plan.t := {| Plan._id := 10; Plan.slug := "pro" |}.
Definition freePlan : Plan.t := {| Plan._id := 11; Plan.slug := "free" |}.

Definition alice : User.t :=
  {| User._id := 1; User.username := "alice"; User.email := "alice@example.com";
     User.password_hash := Some "$2a$10$Passw0rd!"%string;
     User.refreshToken := None; User.planId := PlanOid 10;
     User.subscriptionStatus := active;
     User.subscriptionStartDate := Some 0;
     User.subscriptionEndDate := Some 5000000;
     User.trialEndsAt := None; User.role := user |}.

Definition bob : User.t :=
  {| User._id := 2; User.username := "bob"; User.email := "bob@example.com";
     User.password_hash := Some "$2a$10$hunter2#A"%string;
     User.refreshToken := None; User.planId := PlanNone;
     User.subscriptionStatus := pending;
     User.subscriptionStartDate := None;
     User.subscriptionEndDate := None;
     User.trialEndsAt := None; User.role := admin |}.

Definition db0 : DB :=
  {| users := [alice; bob]; plans := [proPlan; freePlan]; usedRefreshTokens := [] |}.

(** The refresh token that a login of alice at second [s] yields. *)
Definition aliceRefresh (s : Z) : jwt.Token :=
  jwt.Signed "refresh-secret" (jwt.RefreshClaims 1) s (s + 604800).

(** The store after alice logged in at [t = 1000000] ms. *)
Definition db1 : DB :=
  fst (run (loginUser env0 bcrypt0 1000000 (Some "alice"%string) (Some "Passw0rd!"%string)) db0).

(** The store after alice refreshed at [t = 1005000] ms with the token of
    her login: the pointer is rotated and the old token is in the ledger. *)
Definition db2 : DB :=
  fst (run (refreshAccessToken env0 1005000 (Some (aliceRefresh 1000))) db1).

Definition alice2 : User.t :=
  assign alice (refreshToken_set (Some (aliceRefresh 1005))).

Definition aliceAccess (s : Z) : jwt.Token :=
  jwt.Signed "access-secret" (jwt.AccessClaims 1 user "pro") s (s + 900).

Definition entry2 : UsedRefreshToken.t :=
  {| UsedRefreshToken.token := aliceRefresh 1000;
     UsedRefreshToken.userId := 1;
     UsedRefreshToken.accessToken := aliceAccess 1005;
     UsedRefreshToken.createdAt := 1005000 |}.

(** The response of the grace-period path on [db2]. *)
Definition graceResponse2 : Res.t :=
  {| Res.status := 200;
     Res.message := "Access token refreshed (grace period).";
     Res.accessToken := Some (aliceAccess 1005);
     Res.refreshToken := Some (aliceRefresh 1005);
     Res.user := None; Res.error := None |}.

(** A deployment with [ACCESS_TOKEN_EXPIRY=31s]. *)
Definition envShort : Env :=
  {| ACCESS_TOKEN_SECRET := "access-secret";
     REFRESH_TOKEN_SECRET := "refresh-secret";
     ACCESS_TOKEN_EXPIRY := 31;
     REFRESH_TOKEN_EXPIRY := 604800 |}.

(** The session NextAuth holds for alice after her login, and the backend's
    answer to its refresh at [t = 1005000] ms under [envShort]. *)
Definition session1 : auth.Session :=
  {| auth.accessToken := Some (aliceAccess 1000);
     auth.accessTokenExpires := Some 1900000;
     auth.refreshToken := Some (aliceRefresh 1000);
     auth.refreshJitterMs := Some 0;
     auth.error := None;
     auth.refreshErrorStatus := None |}.

Definition backendRefresh (now : Z) (token : auth.Session) : auth.Session :=
  match snd (run (refreshAccessToken envShort now (auth.refreshToken token)) db1) with
  | inr res => auth.refreshAccessToken now token res
  | inl _ => token
  end.

End Sample.

(** The current refresh-token pointer stored for a principal. *)
Definition currentRefreshToken (id : Z) (db : DB) : option jwt.Token :=
  match List.find (hasId id) (users db) with
  | Some u => User.refreshToken u
  | None => None
  end.

(** The same refresh token presented again and again, at the given
    instants, one request after the other. *)
Fixpoint presentRepeatedly (env : Env) (nows : list Z) (T : jwt.Token) (db : DB)
    : DB * list (Exn + Res.t) :=
  match nows with
  | [] => (db, [])
  | now :: rest =>
      let '(db1, r) := run (refreshAccessToken env now (Some T)) db in
      let '(db2, rs) := presentRepeatedly env rest T db1 in
      (db2, r :: rs)
  end.

(** A request after [n] of its database calls, all served from [db]. *)
Fixpoint stepN {A : Type} (n : nat) (p : Prog A) (db : DB) : Prog A :=
  match n with
  | O => p
  | S n' => stepN n' (snd (step p db)) db
  end.

(** The number of database calls a schedule grants to one of the two
    requests. *)
Fixpoint turns (who : bool) (schedule : list bool) : nat :=
  match schedule with
  | [] => O
  | b :: rest => if Bool.eqb b who then S (turns who rest) else turns who rest
  end.

(** A request none of whose database calls changes [db]. *)
Definition readOnlyAt {A : Type} (p : Prog A) (db : DB) : Prop :=
  forall n, fst (step (stepN n p db) db) = db.

(** A response of the happy path that hands out a refresh token other than
    the one presented. *)
Definition rotated (T : jwt.Token) (r : Res.t) : Prop :=
  Res.status r = 200
  /\ Res.message r = "Access token refreshed."%string
  /\ Res.refreshToken r <> Some T.

(** What a compare-and-swap on the pointer would guarantee for two refresh
    requests that present the same token and are served in any
    interleaving: the swap of the one that comes second finds the pointer
    changed, so at most one of them rotates the token. *)
Definition rotationIsCompareAndSwap (env : Env) : Prop :=
  forall (schedule : list bool) (nowA nowB : Z) (T : jwt.Token) (db db' : DB)
         (rA rB : Res.t),
    interleave schedule
      (refreshAccessToken env nowA (Some T))
      (refreshAccessToken env nowB (Some T)) db
    = (db', (Ret rA, Ret rB)) ->
    ~ (rotated T rA /\ rotated T rB).

(** A stored document and a loaded one hold the same values on the paths
    the token code assigns; a loaded [planId] that is populated (or [null])
    stands for any stored reference. *)
Definition agrees (stored loaded : User.t) : Prop :=
  User.refreshToken stored = User.refreshToken loaded
  /\ (User.planId stored = User.planId loaded
      \/ forall oid, User.planId loaded <> PlanOid oid)
  /\ User.subscriptionStatus stored = User.subscriptionStatus loaded
  /\ User.subscriptionStartDate stored = User.subscriptionStartDate loaded
  /\ User.subscriptionEndDate stored = User.subscriptionEndDate loaded
  /\ User.trialEndsAt stored = User.trialEndsAt loaded.

(** The outcome of an issuance at [now] for a loaded user [u] whose
    subscription has run out: in the store [db'] after it, the stored
    principal carries the new refresh token and the downgrade, and the
    access token carries the plan of the downgraded document.  [db] is the
    store before. *)
Definition downgraded (env : Env) (now : Z) (u : User.t) (db db' : DB)
    (accessToken refreshToken : jwt.Token) : Prop :=
  exists stored stored',
    List.find (hasId (User._id u)) (users db) = Some stored
    /\ List.find (hasId (User._id u)) (users db') = Some stored'
    /\ User.refreshToken stored' = Some refreshToken
    /\ match Plan_findOne_free db with
       | Some freePlan =>
           User.planId stored' = PlanOid (Plan._id freePlan)
           /\ User.subscriptionStatus stored' = free
           /\ User.subscriptionStartDate stored' = Some now
           /\ User.subscriptionEndDate stored' = None
           /\ User.trialEndsAt stored' = None
           /\ accessToken =
              jwt.sign now (jwt.AccessClaims (User._id u) (User.role u) "free")
                (ACCESS_TOKEN_SECRET env) (ACCESS_TOKEN_EXPIRY env)
       | None =>
           User.planId stored' = User.planId stored
           /\ User.subscriptionStatus stored' = canceled
           /\ accessToken =
              jwt.sign now
                (jwt.AccessClaims (User._id u) (User.role u)
                   (planSlugOf (populate (plans db) u)))
                (ACCESS_TOKEN_SECRET env) (ACCESS_TOKEN_EXPIRY env)
       end.

(** The subscription of [u] has run out before [now]. *)
Definition ranOut (now : Z) (u : User.t) : Prop :=
  (User.subscriptionStatus u = active
   /\ exists d, User.subscriptionEndDate u = Some d /\ d < now)
  \/ (User.subscriptionStatus u = trialing
      /\ exists d, User.trialEndsAt u = Some d /\ d < now).

(** ** What the requests of the user controller may change *)

(** A request each of whose database calls takes the store to one related
    to it by [R]. *)
Inductive keeps (R : DB -> DB -> Prop) {A : Type} : Prog A -> Prop :=
| keeps_Ret (a : A) : keeps R (Ret a)
| keeps_Throw (e : Exn) : keeps R (Throw e)
| keeps_Await {X : Type} (op : DB -> DB * X) (k : X -> Prog A) :
    (forall db, R db (fst (op db))) ->
    (forall x, keeps R (k x)) ->
    keeps R (Await op k).

(** The paths of a user that make up the account, not the session. *)
Definition accountOf (u : User.t) : Z * string * string * option string * Role :=
  (User._id u, User.username u, User.email u, User.password_hash u, User.role u).

(** The accounts and the plans are as they were, and the ledger has only
    grown at its end. *)
Definition onlySessionsChanged (db db' : DB) : Prop :=
  List.map accountOf (users db') = List.map accountOf (users db)
  /\ plans db' = plans db
  /\ exists added, usedRefreshTokens db' = usedRefreshTokens db ++ added.

(** ** Registration: [registerUser] of [server/controllers/user.js] *)

(** The [match] validator of the email path, [/\S+@\S+\.\S+/], searched
    anywhere in the value.  [dotThenNonSpace r] finds, inside the run of
    non-space characters at the head of [r], a dot followed by a non-space
    character; [afterAt r] asks for one non-space character before that
    dot; [emailRegexFrom prev s] looks for an [@] preceded by a non-space
    character ([prev] tells whether the character before [s] is one). *)
Fixpoint dotThenNonSpace (r : string) : bool :=
  match r with
  | EmptyString => false
  | String c r' =>
      if JsString.isSpace c then false
      else
        (Ascii.eqb c "."%char
         && match r' with
            | String d _ => negb (JsString.isSpace d)
            | EmptyString => false
            end)
        || dotThenNonSpace r'
  end.

Definition afterAt (r : string) : bool :=
  match r with
  | String c r' => negb (JsString.isSpace c) && dotThenNonSpace r'
  | EmptyString => false
  end.

Fixpoint emailRegexFrom (prev : bool) (s : string) : bool :=
  match s with
  | EmptyString => false
  | String c r =>
      (prev && Ascii.eqb c "@"%char && afterAt r)
      || emailRegexFrom (negb (JsString.isSpace c)) r
  end.

Definition emailRegexTest (s : string) : bool := emailRegexFrom false s.

(** Mongoose validation of a new user document, in the order of the schema
    paths: [required] fails on an empty string, and [match] is tried on a
    non-empty value only.  The result is the list of messages. *)
Definition User_validate (u : User.t) : list string :=
  (if bool_decide (User.username u = EmptyString)
   then ["Username is required."%string] else [])
  ++ (if bool_decide (User.email u = EmptyString)
      then ["Email is required."%string]
      else if emailRegexTest (User.email u) then []
           else ["Please use a valid email address."%string])
  ++ (if JsString.truthy (User.password_hash u)
      then [] else ["Password hash is required."%string]).

(** The outcome of saving a new document. *)
Inductive InsertResult :=
| Inserted
| ValidationFailed (messages : list string)
| DuplicateKey.

(** The unique indexes of the user collection: [_id], [username], [email]. *)
Definition collides (doc u : User.t) : bool :=
  bool_decide (User._id u = User._id doc)
  || bool_decide (User.username u = User.username doc)
  || bool_decide (User.email u = User.email doc).

(** The filter [{ $or: [{ username }, { email }] }] of [registerUser], cast
    with the schema setters. *)
Definition matchesRegistration (username email : string) (u : User.t) : bool :=
  bool_decide (User.username u = castUsername username)
  || bool_decide (User.email u = castEmail email).

Section Registration.

(** [bcrypt.hash(password, 10)] with the salt the call draws, and the
    message Mongoose composes for a list of failed validators. *)
Variable bcrypt_hash : string -> string.
Variable validationMessage : list string -> string.

(** [new User({ username, email, password_hash: password })]: the setters
    have run, the defaults of the schema are in place. *)
Definition newUser (_id : Z) (username email password : string) : User.t :=
  {| User._id := _id;
     User.username := castUsername username;
     User.email := castEmail email;
     User.password_hash := Some password;
     User.refreshToken := None;
     User.planId := PlanNone;
     User.subscriptionStatus := pending;
     User.subscriptionStartDate := None;
     User.subscriptionEndDate := None;
     User.trialEndsAt := None;
     User.role := user |}.

(** The pre-save hook: a modified [password_hash] is replaced by its hash. *)
Definition hashPassword (u : User.t) : User.t :=
  {| User._id := User._id u; User.username := User.username u;
     User.email := User.email u;
     User.password_hash := bcrypt_hash <$> User.password_hash u;
     User.refreshToken := User.refreshToken u; User.planId := User.planId u;
     User.subscriptionStatus := User.subscriptionStatus u;
     User.subscriptionStartDate := User.subscriptionStartDate u;
     User.subscriptionEndDate := User.subscriptionEndDate u;
     User.trialEndsAt := User.trialEndsAt u; User.role := User.role u |}.

(** [newUser.save()]: validation, then the pre-save hook, then the insert,
    which the unique indexes may refuse. *)
Definition User_saveNew (doc : User.t) (db : DB) : DB * InsertResult :=
  match User_validate doc with
  | [] =>
      let hashed := hashPassword doc in
      if existsb (collides hashed) (users db)
      then (db, DuplicateKey)
      else (withUsers db (users db ++ [hashed]), Inserted)
  | messages => (db, ValidationFailed messages)
  end.

(** [registerUser], on [req.body = { username, email, password }]; [_id] is
    the [ObjectId] that [new User] draws. *)
Definition registerUser (_id : Z) (username email password : option string) : Prog Res.t :=
  match username, email, password with
  | Some username', Some email', Some password' =>
      if negb (JsString.truthy username) || negb (JsString.truthy email)
         || negb (JsString.truthy password)
      then Ret (Res.json 400 "Please provide username, email, and password.")
      else
        let* existingUser :=
          query (fun db => List.find (matchesRegistration username' email') (users db)) in
        match existingUser with
        | Some _ => Ret (Res.json 400 "Username or email already exists.")
        | None =>
            let* saved := command (User_saveNew (newUser _id username' email' password')) in
            match saved with
            | Inserted => Ret (Res.json 201 "User registered successfully.")
            | DuplicateKey => Ret (Res.json 400 "Username or email already exists.")
            | ValidationFailed messages =>
                Ret {| Res.status := 500; Res.message := "Error registering user.";
                       Res.accessToken := None; Res.refreshToken := None;
                       Res.user := None;
                       Res.error := Some (validationMessage messages) |}
            end
        end
  | _, _, _ => Ret (Res.json 400 "Please provide username, email, and password.")
  end.

End Registration.

(** The unique indexes hold and the stored usernames and emails are as the
    setters leave them. *)
Definition wellKeyed (db : DB) : Prop :=
  List.NoDup (List.map User._id (users db))
  /\ List.NoDup (List.map User.username (users db))
  /\ List.NoDup (List.map User.email (users db))
  /\ Forall (fun u => User.username u = castUsername (User.username u)
                      /\ User.email u = castEmail (User.email u)) (users db).

(** The requests of the user controller. *)
Inductive Request :=
| Register (_id : Z) (username email password : option string)
| Login (now : Z) (identifier password : option string)
| Logout (userId : option Z) (body_refreshToken : option jwt.Token)
| Refresh (now : Z) (body_refreshToken : option jwt.Token).

Definition handle (env : Env) (bcrypt_compare : string -> string -> bool)
    (bcrypt_hash : string -> string) (validationMessage : list string -> string)
    (r : Request) : Prog Res.t :=
  match r with
  | Register _id username email password =>
      registerUser bcrypt_hash validationMessage _id username email password
  | Login now identifier password => loginUser env bcrypt_compare now identifier password
  | Logout userId body_refreshToken => logoutUser userId body_refreshToken
  | Refresh now body_refreshToken => refreshAccessToken env now body_refreshToken
  end.

(** The requests that work on sessions: all but the registration. *)
Definition sessionRequest (r : Request) : Prop :=
  match r with
  | Register _ _ _ _ => False
  | _ => True
  end.

(** What the schema validation asks of the username and the email of an
    account. *)
Definition validAccounts (db : DB) : Prop :=
  Forall (fun u => User.username u <> EmptyString
                   /\ emailRegexTest (User.email u) = true) (users db).

(** ** The middleware of the protected routes *)

Definition toUpperCaseChar (c : ascii) : ascii :=
  let n := nat_of_ascii c in
  if (Nat.leb 97 n && Nat.leb n 122)%bool then ascii_of_nat (n - 32) else c.

Fixpoint toUpperCase (s : string) : string :=
  match s with
  | EmptyString => EmptyString
  | String c r => String (toUpperCaseChar c) (toUpperCase r)
  end.

(** [s.split(' ')]: the pieces between the spaces, at least one. *)
Fixpoint split_space (s : string) : list string :=
  match s with
  | EmptyString => [EmptyString]
  | String c r =>
      if Ascii.eqb c " "%char then EmptyString :: split_space r
      else
        match split_space r with
        | w :: ws => String c w :: ws
        | [] => [String c EmptyString]
        end
  end.

(** A middleware either calls [next()], having attached a value to the
    request, or answers with a status and a message. *)
Inductive Outcome (A : Type) :=
| Next (a : A)
| Respond (status : Z) (message : string).

Arguments Next {A} a.
Arguments Respond {A} status message.

(** [mapMethodToAction] of [middleware/casbinAuthorize.js]. *)
Definition mapMethodToAction (method : string) : string :=
  let m := toUpperCase method in
  if String.eqb m "GET" then "read"
  else if String.eqb m "POST" then "write"
  else if String.eqb m "PUT" then "update"
  else if String.eqb m "PATCH" then "update"
  else if String.eqb m "DELETE" then "delete"
  else JsString.toLowerCase method.

Section Middleware.

Variable env : Env.

(** The token that the text after [Bearer] is: a signed token, or
    [jwt.Opaque] for a text that is none. *)
Variable tokenOfString : string -> jwt.Token.

(** [enforcer.enforce(sub, dom, obj, act)] on the loaded policy. *)
Variable enforce : Role -> string -> string -> string -> bool.

(** [authenticate] of [middleware/authMiddleware.js], on
    [req.headers['authorization']]; [Next decoded] stands for
    [req.user = decoded; next()].  [jwt.verify] raises one of the two
    errors the handler tells apart, so its generic 500 branch is not
    reached.  The module exits at start-up when [ACCESS_TOKEN_SECRET] is
    not set. *)
Definition authenticate (now : Z) (authorization : option string) : Outcome jwt.Claims :=
  match authorization with
  | None => Respond 401 "Unauthorized: No token provided or malformed header."
  | Some authHeader =>
      if negb (JsString.truthy authorization) || negb (String.prefix "Bearer " authHeader)
      then Respond 401 "Unauthorized: No token provided or malformed header."
      else
        match nth_error (split_space authHeader) 1 with
        | None => Respond 401 "Unauthorized: Token missing after Bearer prefix."
        | Some token =>
            if bool_decide (token = EmptyString)
            then Respond 401 "Unauthorized: Token missing after Bearer prefix."
            else
              match jwt.verify now (tokenOfString token) (ACCESS_TOKEN_SECRET env) with
              | inr decoded => Next decoded
              | inl jwt.TokenExpiredError => Respond 401 "Unauthorized: Token has expired."
              | inl jwt.JsonWebTokenError => Respond 401 "Unauthorized: Invalid token."
              end
        end
  end.

(** [authorize(resource, explicitAction)] of
    [middleware/casbinAuthorize.js], on [req.user] and [req.method].  The
    subject handed to the enforcer is the role, the domain is the plan.  A
    payload without [plan] (a refresh token's) is answered 401; [_id] is
    present in every payload the server signs. *)
Definition authorize (resource : string) (explicitAction : option string)
    (req_user : option jwt.Claims) (method : string) : Outcome unit :=
  match req_user with
  | Some (jwt.AccessClaims _ role plan) =>
      if bool_decide (plan = EmptyString)
      then Respond 401 "Unauthorized: User information missing."
      else
        let act :=
          if JsString.truthy explicitAction then default EmptyString explicitAction
          else mapMethodToAction method in
        if enforce role plan resource act then Next tt
        else Respond 403 "Forbidden: You do not have permission to perform this action."
  | _ => Respond 401 "Unauthorized: User information missing."
  end.

(** A route [router.verb(path, authenticate, handler)]: the handler runs
    when the middleware called [next()], and [Next r] is then the answer
    [r] of the handler. *)
Definition behind {A : Type} (middleware : Outcome jwt.Claims)
    (handler : jwt.Claims -> Prog A) : Prog (Outcome A) :=
  match middleware with
  | Next decoded => let* r := handler decoded in Ret (Next r)
  | Respond status message => Ret (Respond status message)
  end.

(** [router.post('/logout', authenticate, userController.logoutUser)]. *)
Definition logoutRoute (now : Z) (authorization : option string)
    (body_refreshToken : option jwt.Token) : Prog (Outcome Res.t) :=
  behind (authenticate now authorization)
    (fun decoded => logoutUser (Some (jwt.claims_id decoded)) body_refreshToken).

End Middleware.

(** ** The NextAuth callbacks of [client/src/lib/auth.js] *)

Module nextauth.

(** [stableJitterMs(input)]; [buf] is the HMAC-SHA256 digest of the input
    under [KEY_SALT], a sequence of bytes. *)
Definition stableJitterMs (buf : list Z) : Z :=
  Z.lor (Z.shiftl (List.nth 0 buf 0) 8) (List.nth 1 buf 0) mod 10000.

(** [res.ok]. *)
Definition ok (res : Res.t) : bool := (200 <=? Res.status res) && (Res.status res <=? 299).

(** [authorize(credentials)] of the credentials provider, given what the
    login request to the backend came back with ([None] when [fetch]
    threw) and the digest from which the jitter is taken.  The result is
    the user object, of which the keys that the refresh code reads are
    kept; [None] is [null]. *)
Definition Credentials_authorize (now : Z) (identifier password : option string)
    (fetched : option Res.t) (buf : list Z) : option auth.Session :=
  if negb (JsString.truthy identifier) || negb (JsString.truthy password) then None
  else
    match fetched with
    | None => None
    | Some data =>
        if negb (ok data) then None
        else
          match Res.accessToken data, Res.refreshToken data with
          | Some accessToken, Some refreshToken =>
              if negb (jwt.truthy (Res.accessToken data))
                 || negb (jwt.truthy (Res.refreshToken data))
              then None
              else
                Some {| auth.accessToken := Some accessToken;
                        auth.accessTokenExpires :=
                          Some (auth.computeAccessTokenExpires now data accessToken);
                        auth.refreshToken := Some refreshToken;
                        auth.refreshJitterMs := Some (stableJitterMs buf);
                        auth.error := None;
                        auth.refreshErrorStatus := None |}
          | _, _ => None
          end
    end.

(** [callbacks.jwt], on the keys of the token that the refresh code
    touches.  [user] is present at the initial sign-in; [refresh] stands
    for [getOrCreateRefreshPromise(token, refreshAccessToken)]. *)
Definition callbacks_jwt (now : Z) (token : auth.Session) (user : option auth.Session)
    (refresh : auth.Session -> auth.Session) : auth.Session :=
  match user with
  | Some user' =>
      {| auth.accessToken := auth.accessToken user';
         auth.accessTokenExpires := auth.accessTokenExpires user';
         auth.refreshToken := auth.refreshToken user';
         auth.refreshJitterMs :=
           match auth.refreshJitterMs user' with
           | Some j => Some j
           | None =>
               match auth.refreshJitterMs token with
               | Some j => Some j
               | None => Some 0
               end
           end;
         auth.error := None;
         auth.refreshErrorStatus := None |}
  | None =>
      if bool_decide (auth.refreshErrorStatus token = Some 401)
         || bool_decide (auth.refreshErrorStatus token = Some 403)
      then token
      else if negb (auth.needsRefresh now token) then token
      else refresh token
  end.

End nextauth.

(** ** The distributed single flight of [client/src/lib/auth.js] *)

Module singleFlight.

(** [lockKeyFor(key)] and [resultKeyFor(key)]. *)
Definition lockKeyFor (REDIS_PREFIX key : string) : string :=
  String.append REDIS_PREFIX (String.append ":refresh:lock:" key).

Definition resultKeyFor (REDIS_PREFIX key : string) : string :=
  String.append REDIS_PREFIX (String.append ":refresh:result:" key).

(** The keys of the Redis instance that the code uses: the cached results
    (session and deadline) and the locks (lock id and deadline).  A key
    whose deadline has passed does not exist for a command. *)
Record Redis := {
  results : gmap string (auth.Session * Z);
  locks : gmap string (string * Z)
}.

Definition lockLive (now : Z) (key : string) (l : gmap string (string * Z)) : bool :=
  match l !! key with
  | Some (_, deadline) => now <? deadline
  | None => false
  end.

(** [redis.set(key, value, "PX", px, "NX")]; [true] is the reply [OK]. *)
Definition redis_set_px_nx (now : Z) (key value : string) (px : Z)
    (l : gmap string (string * Z)) : gmap string (string * Z) * bool :=
  if lockLive now key l then (l, false)
  else (<[ key := (value, now + px) ]> l, true).

(** [redis.eval(UNLOCK_LUA, 1, key, arg)]: compare and delete. *)
Definition UNLOCK_LUA (now : Z) (key arg : string) (l : gmap string (string * Z))
    : gmap string (string * Z) :=
  match l !! key with
  | Some (value, deadline) =>
      if (now <? deadline) && bool_decide (value = arg) then delete key l else l
  | None => l
  end.

(** [redis.pexpire(key, px)] of the keep-alive interval. *)
Definition redis_pexpire (now : Z) (key : string) (px : Z) (l : gmap string (string * Z))
    : gmap string (string * Z) :=
  match l !! key with
  | Some (value, deadline) =>
      if now <? deadline then <[ key := (value, now + px) ]> l else l
  | None => l
  end.

(** Where a call of [distributedSingleFlightRefresh] stands: the operation
    it awaits, or the session it has returned. *)
Inductive Phase :=
| Get
| SetLock
| Leader
| Unlock (refreshed : auth.Session)
| PollGet (start : Z)
| Sleep (start : Z)
| Timeout
| FinalGet (attempt : auth.Session)
| LocalRefresh
| Returned (result : auth.Session).

(** A call in progress; [refreshes] counts the calls of [refreshFn] made so
    far (it is not a variable of the code). *)
Record Call := {
  phase : Phase;
  refreshes : nat
}.

Section Calls.

Variable REDIS_PREFIX : string.

(** [refreshKeyFor(token)], an HMAC of the refresh token of the session. *)
Variable refreshKeyFor : auth.Session -> string.

(** [refreshFn(token)], with the instant at which it returns. *)
Variable refreshFn : Z -> auth.Session -> auth.Session.

(** The arguments of the call and the [lockId] it draws. *)
Variable token : auth.Session.
Variable lockId : string.

Definition rKey : string := resultKeyFor REDIS_PREFIX (refreshKeyFor token).
Definition lKey : string := lockKeyFor REDIS_PREFIX (refreshKeyFor token).

(** One resumption of [distributedSingleFlightRefresh(token, refreshFn)]:
    the awaited operation takes effect at [now] and the code runs on to its
    next [await], reading [now] from the clock.  [up] tells whether the
    Redis command succeeds; when it throws, the [catch] blocks of the code
    apply. *)
Definition resume (now : Z) (up : bool) (c : Call) (redis : Redis) : Call * Redis :=
  match phase c with
  | Get =>
      if negb up then ({| phase := LocalRefresh; refreshes := refreshes c |}, redis)
      else
        match auth.redis_get now rKey (results redis) with
        | Some cached => ({| phase := Returned cached; refreshes := refreshes c |}, redis)
        | None => ({| phase := SetLock; refreshes := refreshes c |}, redis)
        end
  | SetLock =>
      if negb up then ({| phase := LocalRefresh; refreshes := refreshes c |}, redis)
      else
        let (l, haveLock) :=
          redis_set_px_nx now lKey lockId auth.LOCK_TTL_MS (locks redis) in
        if haveLock
        then ({| phase := Leader; refreshes := refreshes c |},
              {| results := results redis; locks := l |})
        else ({| phase := PollGet now; refreshes := refreshes c |}, redis)
  | Leader =>
      let (published, refreshed) :=
        auth.leaderRefresh now rKey (refreshFn now) token (results redis) in
      ({| phase := Unlock refreshed; refreshes := S (refreshes c) |},
       if up then {| results := published; locks := locks redis |} else redis)
  | Unlock refreshed =>
      ({| phase := Returned refreshed; refreshes := refreshes c |},
       if up
       then {| results := results redis;
               locks := UNLOCK_LUA now lKey lockId (locks redis) |}
       else redis)
  | PollGet start =>
      match (if up then auth.redis_get now rKey (results redis) else None) with
      | Some cached => ({| phase := Returned cached; refreshes := refreshes c |}, redis)
      | None => ({| phase := Sleep start; refreshes := refreshes c |}, redis)
      end
  | Sleep start =>
      if now - start <? auth.WAIT_TIMEOUT_MS
      then ({| phase := PollGet start; refreshes := refreshes c |}, redis)
      else ({| phase := Timeout; refreshes := refreshes c |}, redis)
  | Timeout =>
      let attempt := refreshFn now token in
      if bool_decide (auth.error attempt = Some "RefreshAccessTokenError"%string)
      then ({| phase := FinalGet attempt; refreshes := S (refreshes c) |}, redis)
      else ({| phase := Returned attempt; refreshes := S (refreshes c) |}, redis)
  | FinalGet attempt =>
      match (if up then auth.redis_get now rKey (results redis) else None) with
      | Some cached => ({| phase := Returned cached; refreshes := refreshes c |}, redis)
      | None => ({| phase := Returned attempt; refreshes := refreshes c |}, redis)
      end
  | LocalRefresh =>
      ({| phase := Returned (refreshFn now token); refreshes := S (refreshes c) |}, redis)
  | Returned result => (c, redis)
  end.

(** A firing of the keep-alive interval, which runs while the leader
    awaits [refreshFn] and the publication of its result. *)
Definition keepAlive (now : Z) (up : bool) (c : Call) (redis : Redis) : Redis :=
  match phase c with
  | Leader =>
      if up
      then {| results := results redis;
              locks := redis_pexpire now lKey auth.LOCK_TTL_MS (locks redis) |}
      else redis
  | _ => redis
  end.

(** The call as it starts. *)
Definition start : Call := {| phase := Get; refreshes := 0 |}.

(** A call that runs on its own: one resumption per instant of the list,
    every command served. *)
Fixpoint resumeAt (instants : list Z) (c : Call) (redis : Redis) : Call * Redis :=
  match instants with
  | [] => (c, redis)
  | now :: rest => let (c', redis') := resume now true c redis in resumeAt rest c' redis'
  end.

(** A call against a Redis that others change: each resumption comes with
    its instant, whether its command is served, and the keys as they are
    then; what the call writes is not followed. *)
Fixpoint resumeAmong (events : list (Z * bool * Redis)) (c : Call) : Call :=
  match events with
  | [] => c
  | (now, up, redis) :: rest => resumeAmong rest (fst (resume now up c redis))
  end.

(** The clock of a list of resumptions does not go back, and a sleep lasts
    [POLL_INTERVAL_MS] at least. *)
Fixpoint paced (previous : Z) (c : Call) (events : list (Z * bool * Redis)) : Prop :=
  match events with
  | [] => True
  | (now, up, redis) :: rest =>
      previous <= now
      /\ match phase c with
         | Sleep _ => previous + auth.POLL_INTERVAL_MS <= now
         | _ => True
         end
      /\ paced now (fst (resume now up c redis)) rest
  end.

End Calls.

End singleFlight.

(** A session that a resumption of the list could hand to the call: one
    that a served [GET] of the result key returned, or one that [refreshFn]
    returned. *)
Definition servedOrRefreshed (REDIS_PREFIX : string)
    (refreshKeyFor : auth.Session -> string)
    (refreshFn : Z -> auth.Session -> auth.Session) (token : auth.Session)
    (events : list (Z * bool * singleFlight.Redis)) (r : auth.Session) : Prop :=
  exists now up redis,
    In (now, up, redis) events
    /\ ((up = true
         /\ auth.redis_get now (singleFlight.rKey REDIS_PREFIX refreshKeyFor token)
              (singleFlight.results redis) = Some r)
        \/ r = refreshFn now token).

(** The calls of [refreshFn] are accounted for: none before the call holds
    a result of its own, one at most afterwards, and the session the call
    holds satisfies [P]. *)
Definition accounted (P : auth.Session -> Prop) (c : singleFlight.Call) : Prop :=
  match singleFlight.phase c with
  | singleFlight.Unlock r | singleFlight.FinalGet r =>
      singleFlight.refreshes c = 1%nat /\ P r
  | singleFlight.Returned r => (singleFlight.refreshes c <= 1)%nat /\ P r
  | _ => singleFlight.refreshes c = 0%nat
  end.

(** ** The nightly job of [server/jobs/subscriptionJobs.js] *)

Module subscriptionJobs.

(** The filter of [User.find]: an active subscription whose end date, or a
    trial whose end, is before [now] ([$lt]). *)
Definition matchesExpired (now : Z) (u : User.t) : bool :=
  (bool_decide (User.subscriptionStatus u = active)
   && match User.subscriptionEndDate u with Some d => d <? now | None => false end)
  || (bool_decide (User.subscriptionStatus u = trialing)
      && match User.trialEndsAt u with Some d => d <? now | None => false end).

(** [updateData], the argument of [$set], with [DEFAULT_EXPIRED_STATUS =
    'canceled'] and [REVERT_TO_FREE_PLAN_ON_EXPIRY = true]. *)
Definition updateData (now : Z) (freePlanId : option Z) : list Assignment :=
  match freePlanId with
  | Some id =>
      [ subscriptionStatus_set free;
        subscriptionEndDate_set None;
        trialEndsAt_set None;
        planId_set (PlanOid id);
        subscriptionStartDate_set (Some now) ]
  | None =>
      [ subscriptionStatus_set canceled;
        subscriptionEndDate_set None;
        trialEndsAt_set None ]
  end.

(** [User.bulkWrite(bulkOps)], each operation an [updateOne] with the
    filter [{ _id }] and the update [{ $set }]. *)
Definition bulkWrite (bulkOps : list (Z * list Assignment)) (us : list User.t)
    : list User.t :=
  fold_left
    (fun us op => updateFirst (hasId (fst op)) (fun u => assignAll u (snd op)) us)
    bulkOps us.

(** The loop over the cursor, which writes a batch whenever 500 operations
    have gathered, and the final batch. *)
Fixpoint forAwait (now : Z) (freePlanId : option Z) (cursor : list User.t)
    (bulkOps : list (Z * list Assignment)) (us : list User.t) : list User.t :=
  match cursor with
  | [] => if (0 <? length bulkOps)%nat then bulkWrite bulkOps us else us
  | user' :: rest =>
      let bulkOps' := bulkOps ++ [(User._id user', updateData now freePlanId)] in
      if (500 <=? length bulkOps')%nat
      then forAwait now freePlanId rest [] (bulkWrite bulkOps' us)
      else forAwait now freePlanId rest bulkOps' us
  end.

(** The scheduled task, run at [now] with no other writer at work. *)
Definition checkExpiredSubscriptions (now : Z) (db : DB) : DB :=
  let freePlanId := Plan._id <$> Plan_findOne_free db in
  let expiredUsersCursor := List.filter (matchesExpired now) (users db) in
  withUsers db (forAwait now freePlanId expiredUsersCursor [] (users db)).

End subscriptionJobs.

(** ** Statements used by the properties of the token lifecycle *)

(** The user document as [generateAccessAndRefereshTokens] holds it when it
    signs: populated, and downgraded by [checkAndUpdateExpiredStatus] when
    the subscription has expired. *)
Definition checkedAt (now : Z) (db : DB) (u : User.t) : User.t :=
  let populated := populate (plans db) u in
  if subscriptionExpired now populated
  then assignAll populated (expiredUpdateData now (Plan_findOne_free db))
  else populated.

(** The lookup by identifier as the specification words it: in a
    collection that respects the unique indexes and the setters, an
    identifier that differs from a stored email in letter case only finds
    the principal of that email. *)
Definition lookupFindsEmailInAnyCase : Prop :=
  forall (db : DB) (u : User.t) (identifier : string),
    wellKeyed db ->
    In u (users db) ->
    JsString.differsOnlyInCase identifier (User.email u) = true ->
    exists found,
      User_findOne_identifier identifier db = Some found
      /\ User._id found = User._id u.

(** A collection in which a principal has chosen as username the email of
    another one, in capitals. *)
Definition mallory : User.t :=
  {| User._id := 3; User.username := "Alice@Example.COM";
     User.email := "mallory@example.com";
     User.password_hash := Some "$2a$10$letmein#42"%string;
     User.refreshToken := None; User.planId := PlanNone;
     User.subscriptionStatus := pending;
     User.subscriptionStartDate := None;
     User.subscriptionEndDate := None;
     User.trialEndsAt := None; User.role := user |}.

Definition dbShadowed : DB :=
  {| users := [mallory; Sample.alice; Sample.bob];
     plans := [Sample.proPlan; Sample.freePlan];
     usedRefreshTokens := [] |}.

(** What an issuance that downgrades leaves behind.  [u] is the user as the
    request loaded it, [db'] the store after the request, [accessToken] the
    access token of the response.  The stored principal holds the refresh
    token signed at [now]; when the plans hold the plan of slug 'free'
    (slugs are unique), the principal is on it with status 'free', the
    start date [now] and no end or trial date, and the access token says
    'free'; when no plan has the slug 'free', the status is 'canceled', the
    plan is the one stored before, and the access token carries the slug
    of that plan. *)
Definition persistedDowngrade (env : Env) (now : Z) (u : User.t) (db db' : DB)
    (accessToken : jwt.Token) : Prop :=
  exists stored stored',
    List.find (hasId (User._id u)) (users db) = Some stored
    /\ List.find (hasId (User._id u)) (users db') = Some stored'
    /\ User.refreshToken stored'
       = Some (jwt.sign now (jwt.RefreshClaims (User._id u))
                 (REFRESH_TOKEN_SECRET env) (REFRESH_TOKEN_EXPIRY env))
    /\ (forall freePlan,
          In freePlan (plans db) ->
          Plan.slug freePlan = "free"%string ->
          List.NoDup (List.map Plan.slug (plans db)) ->
          User.planId stored' = PlanOid (Plan._id freePlan)
          /\ User.subscriptionStatus stored' = free
          /\ User.subscriptionStartDate stored' = Some now
          /\ User.subscriptionEndDate stored' = None
          /\ User.trialEndsAt stored' = None
          /\ accessToken =
             jwt.sign now (jwt.AccessClaims (User._id u) (User.role u) "free")
               (ACCESS_TOKEN_SECRET env) (ACCESS_TOKEN_EXPIRY env))
    /\ (Forall (fun p => Plan.slug p <> "free"%string) (plans db) ->
        User.planId stored' = User.planId stored
        /\ User.subscriptionStatus stored' = canceled
        /\ accessToken =
           jwt.sign now
             (jwt.AccessClaims (User._id u) (User.role u)
                (planSlugOf (populate (plans db) u)))
             (ACCESS_TOKEN_SECRET env) (ACCESS_TOKEN_EXPIRY env)).

(** The downgrade as the specification words it: with a free plan in the
    store, a login of a principal whose subscription has run out leaves
    the principal with status 'free' and every subscription date
    cleared. *)
Definition downgradeClearsSubscriptionDates (env : Env)
    (bcrypt_compare : string -> string -> bool) : Prop :=
  forall (now : Z) (identifier password : string) (db db' : DB) (r : Res.t)
         (u stored' : User.t) (freePlan : Plan.t),
    User_findOne_identifier identifier db = Some u ->
    ranOut now u ->
    In freePlan (plans db) -> Plan.slug freePlan = "free"%string ->
    run (loginUser env bcrypt_compare now (Some identifier) (Some password)) db
    = (db', inr r) ->
    Res.status r = 200 ->
    List.find (hasId (User._id u)) (users db') = Some stored' ->
    User.subscriptionStatus stored' = free
    /\ User.subscriptionStartDate stored' = None
    /\ User.subscriptionEndDate stored' = None
    /\ User.trialEndsAt stored' = None.

(** * Properties *)

(** ** Running programs *)

Lemma run_bind {A B : Type} (m : Prog A) (f : A -> Prog B) (db : DB) :
  run (bind m f) db =
  match run m db with
  | (db', inr a) => run (f a) db'
  | (db', inl e) => (db', inl e)
  end.
Proof.
  revert db. induction m as [a | e | X op k IH]; intros db; simpl; try reflexivity.
  destruct (op db) as [db' x]. apply IH.
Qed.

Lemma run_tryCatch {A : Type} (m : Prog A) (h : Exn -> Prog A) (db : DB) :
  run (tryCatch m h) db =
  match run m db with
  | (db', inr a) => (db', inr a)
  | (db', inl e) => run (h e) db'
  end.
Proof.
  revert db. induction m as [a | e | X op k IH]; intros db; simpl; try reflexivity.
  destruct (op db) as [db' x]. apply IH.
Qed.

Lemma run_query {X : Type} (q : DB -> X) (db : DB) :
  run (query q) db = (db, inr (q db)).
Proof. reflexivity. Qed.

Lemma run_command {X : Type} (c : DB -> DB * X) (db : DB) :
  run (command c) db = (fst (c db), inr (snd (c db))).
Proof. unfold command. simpl. destruct (c db); reflexivity. Qed.

Lemma run_lift {A : Type} (r : Exn + A) (db : DB) :
  run (lift r) db = (db, r).
Proof. destruct r; reflexivity. Qed.

(** ** Collections *)

Lemma assign_id (u : User.t) (a : Assignment) : User._id (assign u a) = User._id u.
Proof. destruct a; reflexivity. Qed.

Lemma assignAll_id (l : list Assignment) (u : User.t) :
  User._id (assignAll u l) = User._id u.
Proof.
  unfold assignAll. revert u.
  induction l as [| a l IH]; intros u; simpl; [reflexivity |].
  rewrite IH. apply assign_id.
Qed.

Lemma assignAll_app (u : User.t) (l1 l2 : list Assignment) :
  assignAll u (l1 ++ l2) = assignAll (assignAll u l1) l2.
Proof. unfold assignAll. apply fold_left_app. Qed.

Lemma find_updateFirst {A : Type} (p : A -> bool) (f : A -> A) (l : list A) :
  (forall x, p (f x) = p x) ->
  List.find p (updateFirst p f l) = f <$> List.find p l.
Proof.
  intros Hp. induction l as [| x r IH]; simpl; [reflexivity |].
  destruct (p x) eqn:E; simpl.
  - rewrite Hp, E. reflexivity.
  - rewrite E. apply IH.
Qed.

Lemma updateFirst_none {A : Type} (p : A -> bool) (f : A -> A) (l : list A) :
  List.find p l = None -> updateFirst p f l = l.
Proof.
  induction l as [| x r IH]; simpl; [reflexivity |].
  destruct (p x); [discriminate |]. intros H. rewrite IH by exact H. reflexivity.
Qed.

Lemma updateFirst_idem {A : Type} (p : A -> bool) (f : A -> A) (l : list A) :
  (forall x, p (f x) = p x) -> (forall x, f (f x) = f x) ->
  updateFirst p f (updateFirst p f l) = updateFirst p f l.
Proof.
  intros Hp Hf. induction l as [| x r IH]; simpl; [reflexivity |].
  destruct (p x) eqn:E; simpl.
  - rewrite Hp, E, Hf. reflexivity.
  - rewrite E, IH. reflexivity.
Qed.

Lemma find_hasId_id (id : Z) (l : list User.t) (u : User.t) :
  List.find (hasId id) l = Some u -> User._id u = id.
Proof.
  intros H. apply find_some in H as [_ H].
  unfold hasId in H. apply bool_decide_eq_true in H. exact H.
Qed.

Lemma populate_id (ps : list Plan.t) (u : User.t) :
  User._id (populate ps u) = User._id u.
Proof. unfold populate. destruct (User.planId u); reflexivity. Qed.

Lemma populate_refreshToken (ps : list Plan.t) (u : User.t) :
  User.refreshToken (populate ps u) = User.refreshToken u.
Proof. unfold populate. destruct (User.planId u); reflexivity. Qed.

Lemma populate_status_dates (ps : list Plan.t) (u : User.t) :
  User.subscriptionStatus (populate ps u) = User.subscriptionStatus u
  /\ User.subscriptionStartDate (populate ps u) = User.subscriptionStartDate u
  /\ User.subscriptionEndDate (populate ps u) = User.subscriptionEndDate u
  /\ User.trialEndsAt (populate ps u) = User.trialEndsAt u
  /\ User.role (populate ps u) = User.role u.
Proof. unfold populate. destruct (User.planId u); repeat split. Qed.

Lemma User_findById_found (id : Z) (db : DB) (u : User.t) :
  User_findById id db = Some u ->
  exists stored,
    List.find (hasId id) (users db) = Some stored
    /\ u = populate (plans db) (deselectPasswordHash stored)
    /\ User._id u = id
    /\ User.refreshToken u = User.refreshToken stored.
Proof.
  unfold User_findById. destruct (List.find (hasId id) (users db)) as [s |] eqn:E;
    simpl; [| discriminate].
  intros [= <-]. exists s. split; [reflexivity |]. split; [reflexivity |].
  rewrite populate_id, populate_refreshToken. simpl.
  split; [eapply find_hasId_id; eassumption | reflexivity].
Qed.

(** ** Token issuance *)

Lemma populate_other (ps : list Plan.t) (u : User.t) :
  (forall oid, User.planId u <> PlanOid oid) -> populate ps u = u.
Proof.
  intros H. unfold populate. destruct (User.planId u) eqn:E; try reflexivity.
  exfalso. eapply H. reflexivity.
Qed.

Lemma populate_not_oid (ps : list Plan.t) (u : User.t) (oid : Z) :
  User.planId (populate ps u) <> PlanOid oid.
Proof.
  unfold populate. destruct (User.planId u) as [| o | p] eqn:E; simpl.
  - rewrite E. discriminate.
  - destruct (List.find _ ps); discriminate.
  - rewrite E. discriminate.
Qed.

Lemma this_setPath (doc : Document) (a : Assignment) :
  this (setPath doc a) = assign (this doc) a.
Proof.
  unfold setPath, changes.
  destruct (bool_decide (assign (this doc) a = this doc)) eqn:E; simpl.
  - apply bool_decide_eq_true in E. symmetry. exact E.
  - reflexivity.
Qed.

Lemma this_Object_assign (l : list Assignment) (doc : Document) :
  this (Object_assign doc l) = assignAll (this doc) l.
Proof.
  unfold Object_assign, assignAll. revert doc.
  induction l as [| a l IH]; intros doc; simpl; [reflexivity |].
  rewrite IH, this_setPath. reflexivity.
Qed.

Lemma modifiedPaths_setPath (doc : Document) (a : Assignment) :
  modifiedPaths (setPath doc a) =
  modifiedPaths doc ++ (if changes (this doc) a then [a] else []).
Proof.
  unfold setPath. destruct (changes (this doc) a); simpl;
    [reflexivity | symmetry; apply app_nil_r].
Qed.

Lemma modifiedPaths_Object_assign_In (l : list Assignment) (doc : Document) (b : Assignment) :
  In b (modifiedPaths (Object_assign doc l)) -> In b (modifiedPaths doc) \/ In b l.
Proof.
  unfold Object_assign. revert doc.
  induction l as [| a l IH]; intros doc; simpl; [auto |].
  intros H. apply IH in H. destruct H as [H | H]; [| auto].
  rewrite modifiedPaths_setPath in H. apply in_app_or in H as [H | H]; [auto |].
  destruct (changes (this doc) a); simpl in H; intuition.
Qed.

(** Agreement between the stored and the loaded document is kept by every
    assignment that [save] will write. *)
Lemma agrees_assign (x y : User.t) (a : Assignment) :
  agrees x y -> agrees (assign x a) (assign y a).
Proof.
  unfold agrees. intros (H1 & H2 & H3 & H4 & H5 & H6).
  destruct a; simpl; repeat split; auto.
Qed.

Lemma agrees_setPath (s : User.t) (doc : Document) (a : Assignment) :
  agrees (assignAll s (modifiedPaths doc)) (this doc) ->
  agrees (assignAll s (modifiedPaths (setPath doc a))) (this (setPath doc a)).
Proof.
  intros H. unfold setPath. destruct (changes (this doc) a); [| exact H].
  cbn [this modifiedPaths]. rewrite assignAll_app. apply (agrees_assign _ _ a H).
Qed.

Lemma agrees_Object_assign (s : User.t) (l : list Assignment) (doc : Document) :
  agrees (assignAll s (modifiedPaths doc)) (this doc) ->
  agrees (assignAll s (modifiedPaths (Object_assign doc l))) (this (Object_assign doc l)).
Proof.
  unfold Object_assign. revert doc.
  induction l as [| a l IH]; intros doc H; simpl; [exact H |].
  apply IH, agrees_setPath, H.
Qed.

Lemma agrees_populate (ps : list Plan.t) (x y : User.t) :
  agrees x y -> agrees x (populate ps y).
Proof.
  unfold agrees. intros (H1 & H2 & H3 & H4 & H5 & H6).
  destruct (populate_status_dates ps y) as (E3 & E4 & E5 & E6 & _).
  rewrite populate_refreshToken, E3, E4, E5, E6.
  split; [exact H1 |]. split; [| auto].
  right. intros oid. apply populate_not_oid.
Qed.

Lemma agrees_loaded (ps : list Plan.t) (stored : User.t) :
  agrees stored (populate ps stored)
  /\ agrees stored (populate ps (deselectPasswordHash stored)).
Proof.
  split; apply agrees_populate; unfold agrees; simpl; repeat split; auto.
Qed.

(** What [generateAccessAndRefereshTokens] does when both secrets are set
    and the document is still stored: the paths modified since the load,
    by the downgrade (if any) and by the new refresh token are written to
    the stored document, and the tokens are minted from the document as
    modified. *)
Lemma run_generateAccessAndRefereshTokens
    (env : Env) (now : Z) (doc : Document) (db : DB) (stored : User.t) :
  ACCESS_TOKEN_SECRET env <> EmptyString ->
  REFRESH_TOKEN_SECRET env <> EmptyString ->
  List.find (hasId (User._id (this doc))) (users db) = Some stored ->
  let doc1 := {| this := populate (plans db) (this doc);
                 modifiedPaths := modifiedPaths doc |} in
  let doc2 := if subscriptionExpired now (this doc1)
              then Object_assign doc1 (expiredUpdateData now (Plan_findOne_free db))
              else doc1 in
  let accessToken :=
    jwt.sign now
      (jwt.AccessClaims (User._id (this doc)) (User.role (this doc2)) (planSlugOf (this doc2)))
      (ACCESS_TOKEN_SECRET env) (ACCESS_TOKEN_EXPIRY env) in
  let refreshToken :=
    jwt.sign now (jwt.RefreshClaims (User._id (this doc)))
      (REFRESH_TOKEN_SECRET env) (REFRESH_TOKEN_EXPIRY env) in
  let doc3 := setPath doc2 (refreshToken_set (Some refreshToken)) in
  run (generateAccessAndRefereshTokens env now doc) db =
  (withUsers db
     (updateFirst (hasId (User._id (this doc)))
        (fun v => assignAll v (modifiedPaths doc3)) (users db)),
   inr (doc3, (accessToken, refreshToken))).
Proof.
  intros Ha Hr Hfind doc1 doc2 accessToken refreshToken doc3.
  assert (Hid2 : User._id (this doc2) = User._id (this doc)).
  { unfold doc2. destruct (subscriptionExpired now (this doc1)).
    - rewrite this_Object_assign, assignAll_id. apply populate_id.
    - apply populate_id. }
  unfold generateAccessAndRefereshTokens.
  rewrite run_tryCatch, run_bind.
  assert (Hdoc1 :
    run (match User.planId (this doc) with
         | PlanOid _ =>
             let* ps := query plans in
             Ret {| this := populate ps (this doc); modifiedPaths := modifiedPaths doc |}
         | _ => Ret doc
         end) db
    = (db, inr doc1)).
  { unfold doc1. destruct (User.planId (this doc)) eqn:E; simpl.
    - rewrite populate_other by (intros oid; congruence). destruct doc; reflexivity.
    - reflexivity.
    - rewrite populate_other by (intros oid; congruence). destruct doc; reflexivity. }
  rewrite Hdoc1. clear Hdoc1.
  rewrite run_bind.
  assert (Hdoc2 :
    run (checkAndUpdateExpiredStatus now doc1) db
    = (db, inr (doc2, subscriptionExpired now (this doc1)))).
  { unfold checkAndUpdateExpiredStatus, doc2.
    destruct (subscriptionExpired now (this doc1)); reflexivity. }
  rewrite Hdoc2. clear Hdoc2.
  rewrite run_bind, run_lift. unfold generateAccessToken.
  rewrite bool_decide_eq_false_2 by exact Ha.
  rewrite run_bind, run_lift. unfold generateRefreshToken.
  rewrite bool_decide_eq_false_2 by exact Hr.
  cbv zeta. rewrite run_bind, run_command.
  unfold doc3, accessToken, refreshToken. rewrite !Hid2.
  unfold save. rewrite this_setPath, assign_id, Hid2, Hfind. cbn [fst snd].
  rewrite run_bind, run_lift. reflexivity.
Qed.

(** When the loaded document agrees with the stored one, the stored
    document after the issuance agrees with the document as modified. *)
Lemma generate_saves_in_agreement
    (env : Env) (now : Z) (doc : Document) (db : DB) (stored : User.t) :
  ACCESS_TOKEN_SECRET env <> EmptyString ->
  REFRESH_TOKEN_SECRET env <> EmptyString ->
  List.find (hasId (User._id (this doc))) (users db) = Some stored ->
  agrees (assignAll stored (modifiedPaths doc)) (this doc) ->
  let u1 := populate (plans db) (this doc) in
  let upd := if subscriptionExpired now u1
             then expiredUpdateData now (Plan_findOne_free db) else [] in
  let u2 := assignAll u1 upd in
  let accessToken :=
    jwt.sign now (jwt.AccessClaims (User._id (this doc)) (User.role u2) (planSlugOf u2))
      (ACCESS_TOKEN_SECRET env) (ACCESS_TOKEN_EXPIRY env) in
  let refreshToken :=
    jwt.sign now (jwt.RefreshClaims (User._id (this doc)))
      (REFRESH_TOKEN_SECRET env) (REFRESH_TOKEN_EXPIRY env) in
  exists db' doc' stored',
    run (generateAccessAndRefereshTokens env now doc) db
    = (db', inr (doc', (accessToken, refreshToken)))
    /\ this doc' = assign u2 (refreshToken_set (Some refreshToken))
    /\ List.find (hasId (User._id (this doc))) (users db') = Some stored'
    /\ stored' = assignAll stored (modifiedPaths doc')
    /\ agrees stored' (this doc')
    /\ (forall b, In b (modifiedPaths doc') ->
          In b (modifiedPaths doc) \/ In b upd \/ b = refreshToken_set (Some refreshToken))
    /\ usedRefreshTokens db' = usedRefreshTokens db
    /\ plans db' = plans db.
Proof.
  intros Ha Hr Hfind Hagree u1 upd u2 accessToken refreshToken.
  pose proof (run_generateAccessAndRefereshTokens env now doc db stored Ha Hr Hfind) as Hrun.
  cbv zeta in Hrun.
  set (doc1 := {| this := populate (plans db) (this doc);
                  modifiedPaths := modifiedPaths doc |}) in *.
  set (doc2 := if subscriptionExpired now (this doc1)
               then Object_assign doc1 (expiredUpdateData now (Plan_findOne_free db))
               else doc1) in *.
  assert (H2 : this doc2 = u2).
  { unfold doc2, u2, upd, u1. cbn [this doc1].
    destruct (subscriptionExpired now (populate (plans db) (this doc))).
    - apply this_Object_assign.
    - reflexivity. }
  assert (Hag2 : agrees (assignAll stored (modifiedPaths doc2)) (this doc2)).
  { unfold doc2. destruct (subscriptionExpired now (this doc1)).
    - apply agrees_Object_assign. cbn [this modifiedPaths doc1].
      apply agrees_populate, Hagree.
    - cbn [this modifiedPaths doc1]. apply agrees_populate, Hagree. }
  assert (Hin2 : forall b, In b (modifiedPaths doc2) -> In b (modifiedPaths doc) \/ In b upd).
  { intros b. unfold doc2, upd, u1. cbn [this doc1].
    destruct (subscriptionExpired now (populate (plans db) (this doc))).
    - intros Hb. apply modifiedPaths_Object_assign_In in Hb. exact Hb.
    - intros Hb. left. exact Hb. }
  rewrite H2 in Hrun. fold accessToken refreshToken in Hrun.
  eexists _, _, _. split; [exact Hrun |].
  split; [rewrite this_setPath, H2; reflexivity |].
  split; [| split; [reflexivity |]].
  - unfold withUsers. cbn [users]. rewrite find_updateFirst.
    + rewrite Hfind. reflexivity.
    + intros x. unfold hasId. rewrite assignAll_id. reflexivity.
  - split; [apply agrees_setPath, Hag2 |].
    split; [| split; reflexivity].
    intros b Hb. rewrite modifiedPaths_setPath in Hb.
    apply in_app_or in Hb as [Hb | Hb].
    + apply Hin2 in Hb. tauto.
    + destruct (changes (this doc2) _); simpl in Hb; [| contradiction].
      destruct Hb as [<- | []]. auto.
Qed.

(** ** The refresh endpoint: rejections *)

Lemma refreshAccessToken_unfold (env : Env) (now : Z) (T : jwt.Token) :
  jwt.truthy (Some T) = true ->
  refreshAccessToken env now (Some T) =
  tryCatch
    (let* decoded :=
       lift (match jwt.verify now T (REFRESH_TOKEN_SECRET env) with
             | inl e => inl (JwtExn e)
             | inr c => inr c
             end) in
     let* found := query (User_findById (jwt.claims_id decoded)) in
     match found with
     | None => Ret (Res.json 403 "Forbidden: User not found.")
     | Some u =>
         if bool_decide (User.refreshToken u = Some T)
         then
           let* (_, (accessToken, newRefreshToken)) :=
             generateAccessAndRefereshTokens env now (loaded u) in
           let* _ := command (UsedRefreshToken_create now T (User._id u) accessToken) in
           Ret {| Res.status := 200;
                  Res.message := "Access token refreshed.";
                  Res.accessToken := Some accessToken;
                  Res.refreshToken := Some newRefreshToken;
                  Res.user := None; Res.error := None |}
         else
           let* isInGraceList := query (UsedRefreshToken_findOne T) in
           match isInGraceList with
           | Some entry =>
               Ret {| Res.status := 200;
                      Res.message := "Access token refreshed (grace period).";
                      Res.accessToken := Some (UsedRefreshToken.accessToken entry);
                      Res.refreshToken := User.refreshToken u;
                      Res.user := None; Res.error := None |}
           | None => Ret (Res.json 403 "Forbidden: Invalid refresh token.")
           end
     end)
    (fun error => Ret (refreshCatch error)).
Proof. intros H. unfold refreshAccessToken. rewrite H. reflexivity. Qed.

Lemma verify_expired (now : Z) (k : string) (c : jwt.Claims) (iat exp : Z) :
  k <> EmptyString -> exp <= jwt.clockTimestamp now ->
  jwt.verify now (jwt.Signed k c iat exp) k = inl jwt.TokenExpiredError.
Proof.
  intros Hk Hexp. unfold jwt.verify.
  rewrite bool_decide_eq_false_2 by exact Hk.
  rewrite bool_decide_eq_true_2 by reflexivity.
  destruct (Z.leb_spec exp (jwt.clockTimestamp now)); [reflexivity | lia].
Qed.

(** C4.  A refresh token signed with the refresh secret whose [exp] has
    passed is answered with the "Refresh token expired" rejection by a
    handler that makes no database call at all: the store is not consulted,
    whatever it holds (the presented token may well be the stored current
    pointer), and it is left as it was, so nothing is rotated, issued or
    written to the ledger. *)
Theorem expired_refresh_token_rejected_before_store
    (env : Env) (now : Z) (c : jwt.Claims) (iat exp : Z) (db : DB) :
  REFRESH_TOKEN_SECRET env <> EmptyString ->
  exp <= jwt.clockTimestamp now ->
  let T := jwt.Signed (REFRESH_TOKEN_SECRET env) c iat exp in
  refreshAccessToken env now (Some T)
    = Ret (Res.json 403 "Forbidden: Refresh token expired.")
  /\ run (refreshAccessToken env now (Some T)) db
     = (db, inr (Res.json 403 "Forbidden: Refresh token expired.")).
Proof.
  intros Hk Hexp T.
  assert (E : refreshAccessToken env now (Some T)
              = Ret (Res.json 403 "Forbidden: Refresh token expired.")).
  { rewrite refreshAccessToken_unfold by reflexivity.
    unfold T. rewrite verify_expired by assumption. reflexivity. }
  split; [exact E |]. rewrite E. reflexivity.
Qed.

Lemma expired_refresh_token_rejected_before_store_witness :
  currentRefreshToken 1 Sample.db1 = Some (Sample.aliceRefresh 1000)
  /\ run (refreshAccessToken Sample.env0 700000000 (Some (Sample.aliceRefresh 1000)))
       Sample.db1
     = (Sample.db1, inr (Res.json 403 "Forbidden: Refresh token expired.")).
Proof.
  split; [reflexivity |].
  apply (expired_refresh_token_rejected_before_store
           Sample.env0 700000000 (jwt.RefreshClaims 1) 1000 605800 Sample.db1).
  - discriminate.
  - vm_compute. discriminate.
Defined.

(** C3, as stated, fails: an expired refresh token is answered with status
    403, not 401, which is also the status of a forged one. *)
Lemma expired_refresh_token_is_403_like_forged :
  snd (run (refreshAccessToken Sample.env0 700000000 (Some (Sample.aliceRefresh 1000)))
         Sample.db1)
    = inr (Res.json 403 "Forbidden: Refresh token expired.")
  /\ snd (run (refreshAccessToken Sample.env0 2000000
                 (Some (jwt.Signed "guessed-secret" (jwt.RefreshClaims 1) 1000 605800)))
            Sample.db1)
     = inr (Res.json 403 "Forbidden: Malformed refresh token.")
  /\ Res.status (Res.json 403 "Forbidden: Refresh token expired.") <> 401
  /\ Res.status (Res.json 403 "Forbidden: Refresh token expired.")
     = Res.status (Res.json 403 "Forbidden: Malformed refresh token.").
Proof. repeat split; try reflexivity. discriminate. Qed.

(** C3, amended.  Every terminal rejection of a presented refresh token has
    status 403 and leaves the store as it was; the expired case and the
    invalid cases (bad signature or no JWT, unknown principal, neither the
    current pointer nor in the ledger) differ in the message only. *)
Theorem refresh_rejections_are_403
    (env : Env) (now : Z) (T : jwt.Token) (db : DB) :
  jwt.truthy (Some T) = true ->
  (jwt.verify now T (REFRESH_TOKEN_SECRET env) = inl jwt.TokenExpiredError ->
   run (refreshAccessToken env now (Some T)) db
   = (db, inr (Res.json 403 "Forbidden: Refresh token expired.")))
  /\ (jwt.verify now T (REFRESH_TOKEN_SECRET env) = inl jwt.JsonWebTokenError ->
      run (refreshAccessToken env now (Some T)) db
      = (db, inr (Res.json 403 "Forbidden: Malformed refresh token.")))
  /\ (forall decoded,
        jwt.verify now T (REFRESH_TOKEN_SECRET env) = inr decoded ->
        User_findById (jwt.claims_id decoded) db = None ->
        run (refreshAccessToken env now (Some T)) db
        = (db, inr (Res.json 403 "Forbidden: User not found.")))
  /\ (forall decoded u,
        jwt.verify now T (REFRESH_TOKEN_SECRET env) = inr decoded ->
        User_findById (jwt.claims_id decoded) db = Some u ->
        User.refreshToken u <> Some T ->
        UsedRefreshToken_findOne T db = None ->
        run (refreshAccessToken env now (Some T)) db
        = (db, inr (Res.json 403 "Forbidden: Invalid refresh token."))).
Proof.
  intros Ht. rewrite refreshAccessToken_unfold by exact Ht.
  repeat split.
  - intros E. rewrite E. reflexivity.
  - intros E. rewrite E. reflexivity.
  - intros decoded E Hnone. rewrite E. simpl. rewrite Hnone. reflexivity.
  - intros decoded u E Hsome Hne Hledger. rewrite E. simpl. rewrite Hsome.
    rewrite bool_decide_eq_false_2 by exact Hne. simpl. rewrite Hledger. reflexivity.
Qed.

Lemma refresh_rejections_are_403_witness :
  run (refreshAccessToken Sample.env0 700000000 (Some (Sample.aliceRefresh 1000)))
    Sample.db1
  = (Sample.db1, inr (Res.json 403 "Forbidden: Refresh token expired."))
  /\ run (refreshAccessToken Sample.env0 2000000 (Some (Sample.aliceRefresh 7)))
       Sample.db1
     = (Sample.db1, inr (Res.json 403 "Forbidden: Invalid refresh token.")).
Proof.
  split.
  - apply (refresh_rejections_are_403 Sample.env0 700000000
             (Sample.aliceRefresh 1000) Sample.db1); reflexivity.
  - apply (proj2 (proj2 (proj2
             (refresh_rejections_are_403 Sample.env0 2000000
                (Sample.aliceRefresh 7) Sample.db1 eq_refl)))
             (jwt.RefreshClaims 1)
             (populate (plans Sample.db1) (deselectPasswordHash
                (assign Sample.alice (refreshToken_set (Some (Sample.aliceRefresh 1000))))))).
    + reflexivity.
    + reflexivity.
    + discriminate.
    + reflexivity.
Defined.

(** ** The refresh endpoint: grace-period path *)

Lemma verify_inr (now : Z) (T : jwt.Token) (k : string) (c : jwt.Claims) :
  jwt.verify now T k = inr c ->
  exists iat exp,
    T = jwt.Signed k c iat exp /\ k <> EmptyString /\ jwt.clockTimestamp now < exp.
Proof.
  unfold jwt.verify. destruct T as [k' c' iat exp | raw]; [| discriminate].
  destruct (bool_decide (k = EmptyString)) eqn:Ek; [discriminate |].
  destruct (bool_decide (k' = k)) eqn:Ekk; [| discriminate].
  destruct (Z.leb_spec exp (jwt.clockTimestamp now)); [discriminate |].
  intros [= ->]. apply bool_decide_eq_true in Ekk. subst k'.
  apply bool_decide_eq_false in Ek. exists iat, exp. auto.
Qed.

Lemma verify_inr_truthy (now : Z) (T : jwt.Token) (k : string) (c : jwt.Claims) :
  jwt.verify now T k = inr c -> jwt.truthy (Some T) = true.
Proof. intros H. apply verify_inr in H as (iat & exp & -> & _). reflexivity. Qed.

(** The response of the grace-period path. *)
Lemma run_refresh_grace
    (env : Env) (now : Z) (T : jwt.Token) (db : DB)
    (decoded : jwt.Claims) (stored : User.t) (entry : UsedRefreshToken.t) :
  jwt.verify now T (REFRESH_TOKEN_SECRET env) = inr decoded ->
  List.find (hasId (jwt.claims_id decoded)) (users db) = Some stored ->
  User.refreshToken stored <> Some T ->
  UsedRefreshToken_findOne T db = Some entry ->
  run (refreshAccessToken env now (Some T)) db =
  (db, inr {| Res.status := 200;
              Res.message := "Access token refreshed (grace period).";
              Res.accessToken := Some (UsedRefreshToken.accessToken entry);
              Res.refreshToken := User.refreshToken stored;
              Res.user := None; Res.error := None |}).
Proof.
  intros Hv Hfind Hne Hledger.
  rewrite refreshAccessToken_unfold by (eapply verify_inr_truthy; exact Hv).
  rewrite Hv. simpl. unfold User_findById. rewrite Hfind. simpl.
  rewrite populate_refreshToken. simpl.
  rewrite bool_decide_eq_false_2 by exact Hne. simpl.
  rewrite Hledger. reflexivity.
Qed.

Lemma stepN_add {A : Type} (n m : nat) (p : Prog A) (db : DB) :
  stepN (n + m) p db = stepN m (stepN n p db) db.
Proof.
  revert p. induction n as [| n IH]; intros p; simpl; [reflexivity | apply IH].
Qed.

Lemma stepN_Ret {A : Type} (n : nat) (a : A) (db : DB) : stepN n (Ret a) db = Ret a.
Proof. induction n as [| n IH]; simpl; [reflexivity | exact IH]. Qed.

(** Requests that only read are served from the same store in every
    interleaving, and each of them is at some point of its own run. *)
Lemma interleave_readOnly {A B : Type} (schedule : list bool) :
  forall (p : Prog A) (q : Prog B) (db db' : DB) (p' : Prog A) (q' : Prog B),
    readOnlyAt p db -> readOnlyAt q db ->
    interleave schedule p q db = (db', (p', q')) ->
    db' = db
    /\ p' = stepN (turns true schedule) p db
    /\ q' = stepN (turns false schedule) q db.
Proof.
  induction schedule as [| b rest IH]; intros p q db db' p' q' Hp Hq H.
  - simpl in H. injection H as <- <- <-. repeat split.
  - destruct b; simpl in H.
    + pose proof (Hp O) as H0. simpl in H0.
      destruct (step p db) as [db1 p1] eqn:E. simpl in H0. subst db1.
      apply IH in H.
      * destruct H as (-> & -> & ->). split; [reflexivity |].
        simpl. rewrite E. split; reflexivity.
      * intros n. specialize (Hp (S n)). simpl in Hp. rewrite E in Hp. exact Hp.
      * exact Hq.
    + pose proof (Hq O) as H0. simpl in H0.
      destruct (step q db) as [db1 q1] eqn:E. simpl in H0. subst db1.
      apply IH in H.
      * destruct H as (-> & -> & ->). split; [reflexivity |].
        simpl. rewrite E. split; reflexivity.
      * exact Hp.
      * intros n. specialize (Hq (S n)). simpl in Hq. rewrite E in Hq. exact Hq.
Qed.

(** The grace-period path is two reads and then the response. *)
Lemma grace_path_steps
    (env : Env) (now : Z) (T : jwt.Token) (db : DB)
    (decoded : jwt.Claims) (stored : User.t) (entry : UsedRefreshToken.t) :
  jwt.verify now T (REFRESH_TOKEN_SECRET env) = inr decoded ->
  List.find (hasId (jwt.claims_id decoded)) (users db) = Some stored ->
  User.refreshToken stored <> Some T ->
  UsedRefreshToken_findOne T db = Some entry ->
  let p := refreshAccessToken env now (Some T) in
  let resp := {| Res.status := 200;
                 Res.message := "Access token refreshed (grace period).";
                 Res.accessToken := Some (UsedRefreshToken.accessToken entry);
                 Res.refreshToken := User.refreshToken stored;
                 Res.user := None; Res.error := None |} in
  finished p = None
  /\ finished (stepN 1 p db) = None
  /\ stepN 2 p db = Ret resp
  /\ readOnlyAt p db.
Proof.
  intros Hv Hfind Hne Hledger p resp.
  assert (E0 : step p db = (db, stepN 1 p db)).
  { unfold p. rewrite refreshAccessToken_unfold by (eapply verify_inr_truthy; exact Hv).
    rewrite Hv. reflexivity. }
  assert (E1 : stepN 1 p db =
               Await (fun d => (d, UsedRefreshToken_findOne T d))
                 (fun x => tryCatch
                    (bind (Ret x) (fun isInGraceList =>
                       match isInGraceList with
                       | Some entry =>
                           Ret {| Res.status := 200;
                                  Res.message := "Access token refreshed (grace period).";
                                  Res.accessToken := Some (UsedRefreshToken.accessToken entry);
                                  Res.refreshToken := User.refreshToken stored;
                                  Res.user := None; Res.error := None |}
                       | None => Ret (Res.json 403 "Forbidden: Invalid refresh token.")
                       end))
                    (fun error => Ret (refreshCatch error)))).
  { unfold p. rewrite refreshAccessToken_unfold by (eapply verify_inr_truthy; exact Hv).
    rewrite Hv. simpl. unfold User_findById. rewrite Hfind. simpl.
    rewrite populate_refreshToken. simpl.
    rewrite bool_decide_eq_false_2 by exact Hne. reflexivity. }
  assert (E2 : stepN 2 p db = Ret resp).
  { change (stepN 2 p db) with (stepN 1 (stepN 1 p db) db).
    rewrite E1. simpl. rewrite Hledger. reflexivity. }
  split; [| split; [| split]].
  - unfold p. rewrite refreshAccessToken_unfold by (eapply verify_inr_truthy; exact Hv).
    rewrite Hv. reflexivity.
  - rewrite E1. reflexivity.
  - exact E2.
  - intros n. destruct n as [| [| n]].
    + simpl. rewrite E0. reflexivity.
    + rewrite E1. reflexivity.
    + change (S (S n)) with (2 + n)%nat. rewrite stepN_add, E2, stepN_Ret. reflexivity.
Qed.

Lemma grace_path_after_two_turns
    (env : Env) (now : Z) (T : jwt.Token) (db : DB)
    (decoded : jwt.Claims) (stored : User.t) (entry : UsedRefreshToken.t) (n : nat) :
  jwt.verify now T (REFRESH_TOKEN_SECRET env) = inr decoded ->
  List.find (hasId (jwt.claims_id decoded)) (users db) = Some stored ->
  User.refreshToken stored <> Some T ->
  UsedRefreshToken_findOne T db = Some entry ->
  (2 <= n)%nat ->
  stepN n (refreshAccessToken env now (Some T)) db =
  Ret {| Res.status := 200;
         Res.message := "Access token refreshed (grace period).";
         Res.accessToken := Some (UsedRefreshToken.accessToken entry);
         Res.refreshToken := User.refreshToken stored;
         Res.user := None; Res.error := None |}.
Proof.
  intros Hv Hfind Hne Hledger Hn.
  destruct (grace_path_steps env now T db decoded stored entry Hv Hfind Hne Hledger)
    as (_ & _ & E2 & _).
  replace n with (2 + (n - 2))%nat by lia.
  rewrite stepN_add, E2. apply stepN_Ret.
Qed.

(** The lookup in the ledger returns the oldest entry of the token. *)
Lemma findOne_first_entry (T : jwt.Token) (db : DB)
    (earlier later : list UsedRefreshToken.t) (entry : UsedRefreshToken.t) :
  usedRefreshTokens db = earlier ++ entry :: later ->
  UsedRefreshToken.token entry = T ->
  Forall (fun e => UsedRefreshToken.token e <> T) earlier ->
  UsedRefreshToken_findOne T db = Some entry.
Proof.
  intros Hledger Htoken Hearlier. unfold UsedRefreshToken_findOne. rewrite Hledger.
  clear Hledger. induction Hearlier as [| e rest He Hrest IH]; cbn [app List.find].
  - rewrite bool_decide_eq_true_2 by exact Htoken. reflexivity.
  - rewrite bool_decide_eq_false_2 by exact He. exact IH.
Qed.

(** C2.  When the presented token [T] verifies, is not the stored pointer of
    its principal, and the ledger holds an entry whose token is [T]
    ([entry] being the oldest such entry of the ledger), the refresh
    answers 200 with the access token recorded in that entry and the
    stored current pointer.  Two such requests in flight at once, in
    whatever order their database calls are served, leave the store as it
    was, and once each has had its two calls both hold that same response,
    hence the same current refresh token. *)
Theorem grace_path_returns_ledger_access_and_current_pointer
    (env : Env) (now1 now2 : Z) (T : jwt.Token) (db : DB)
    (decoded : jwt.Claims) (stored : User.t)
    (earlier later : list UsedRefreshToken.t) (entry : UsedRefreshToken.t) :
  jwt.verify now1 T (REFRESH_TOKEN_SECRET env) = inr decoded ->
  jwt.verify now2 T (REFRESH_TOKEN_SECRET env) = inr decoded ->
  List.find (hasId (jwt.claims_id decoded)) (users db) = Some stored ->
  User.refreshToken stored <> Some T ->
  usedRefreshTokens db = earlier ++ entry :: later ->
  UsedRefreshToken.token entry = T ->
  Forall (fun e => UsedRefreshToken.token e <> T) earlier ->
  let resp := {| Res.status := 200;
                 Res.message := "Access token refreshed (grace period).";
                 Res.accessToken := Some (UsedRefreshToken.accessToken entry);
                 Res.refreshToken := User.refreshToken stored;
                 Res.user := None; Res.error := None |} in
  run (refreshAccessToken env now1 (Some T)) db = (db, inr resp)
  /\ forall schedule : list bool,
       (2 <= turns true schedule)%nat -> (2 <= turns false schedule)%nat ->
       interleave schedule
         (refreshAccessToken env now1 (Some T))
         (refreshAccessToken env now2 (Some T)) db
       = (db, (Ret resp, Ret resp)).
Proof.
  intros Hv1 Hv2 Hfind Hne Hsplit Htoken Hearlier resp.
  pose proof (findOne_first_entry T db earlier later entry Hsplit Htoken Hearlier)
    as Hledger.
  unfold resp. split.
  - eapply run_refresh_grace; eassumption.
  - intros schedule Ht Hf.
    destruct (interleave schedule (refreshAccessToken env now1 (Some T))
                (refreshAccessToken env now2 (Some T)) db) as [db' [p q]] eqn:E.
    apply interleave_readOnly in E.
    + destruct E as (-> & -> & ->).
      rewrite (grace_path_after_two_turns env now1 T db decoded stored entry) by assumption.
      rewrite (grace_path_after_two_turns env now2 T db decoded stored entry) by assumption.
      reflexivity.
    + eapply grace_path_steps; eassumption.
    + eapply grace_path_steps; eassumption.
Qed.

Lemma grace_path_returns_ledger_access_and_current_pointer_witness :
  let db3 :=
    fst (run (refreshAccessToken Sample.env0 1008000 (Some (Sample.aliceRefresh 1005)))
           Sample.db2) in
  let resp := {| Res.status := 200;
                 Res.message := "Access token refreshed (grace period).";
                 Res.accessToken := Some (Sample.aliceAccess 1008);
                 Res.refreshToken := Some (Sample.aliceRefresh 1008);
                 Res.user := None; Res.error := None |} in
  usedRefreshTokens db3
  = [Sample.entry2;
     {| UsedRefreshToken.token := Sample.aliceRefresh 1005;
        UsedRefreshToken.userId := 1;
        UsedRefreshToken.accessToken := Sample.aliceAccess 1008;
        UsedRefreshToken.createdAt := 1008000 |}]
  /\ run (refreshAccessToken Sample.env0 1009000 (Some (Sample.aliceRefresh 1005))) db3
     = (db3, inr resp)
  /\ interleave [true; false; false; true]
       (refreshAccessToken Sample.env0 1009000 (Some (Sample.aliceRefresh 1005)))
       (refreshAccessToken Sample.env0 1009500 (Some (Sample.aliceRefresh 1005)))
       db3
     = (db3, (Ret resp, Ret resp)).
Proof.
  intros db3 resp.
  assert (Hledger : usedRefreshTokens db3
            = [Sample.entry2]
              ++ {| UsedRefreshToken.token := Sample.aliceRefresh 1005;
                    UsedRefreshToken.userId := 1;
                    UsedRefreshToken.accessToken := Sample.aliceAccess 1008;
                    UsedRefreshToken.createdAt := 1008000 |} :: [])
    by (vm_compute; reflexivity).
  pose proof (grace_path_returns_ledger_access_and_current_pointer
                Sample.env0 1009000 1009500 (Sample.aliceRefresh 1005) db3
                (jwt.RefreshClaims 1)
                (assign Sample.alice (refreshToken_set (Some (Sample.aliceRefresh 1008))))
                [Sample.entry2] []
                {| UsedRefreshToken.token := Sample.aliceRefresh 1005;
                   UsedRefreshToken.userId := 1;
                   UsedRefreshToken.accessToken := Sample.aliceAccess 1008;
                   UsedRefreshToken.createdAt := 1008000 |}
                eq_refl eq_refl ltac:(vm_compute; reflexivity) ltac:(discriminate)
                Hledger eq_refl
                ltac:(constructor; [discriminate | constructor])) as [H1 H2].
  split; [exact Hledger |]. split.
  - exact H1.
  - apply (H2 [true; false; false; true]); simpl; lia.
Defined.

(** ** The refresh endpoint: the grace-period path only reads *)

(** C9.  Under the conditions of the grace-period path, every database call
    of the request leaves the store as it was (pointer, users, plans and
    ledger alike), and presenting the same superseded token any number of
    times, one request after the other, yields the same response each time
    and the same store at the end. *)
Theorem grace_path_is_read_only
    (env : Env) (nows : list Z) (T : jwt.Token) (db : DB)
    (decoded : jwt.Claims) (stored : User.t) (entry : UsedRefreshToken.t) :
  Forall (fun now => jwt.verify now T (REFRESH_TOKEN_SECRET env) = inr decoded) nows ->
  List.find (hasId (jwt.claims_id decoded)) (users db) = Some stored ->
  User.refreshToken stored <> Some T ->
  UsedRefreshToken_findOne T db = Some entry ->
  let resp := {| Res.status := 200;
                 Res.message := "Access token refreshed (grace period).";
                 Res.accessToken := Some (UsedRefreshToken.accessToken entry);
                 Res.refreshToken := User.refreshToken stored;
                 Res.user := None; Res.error := None |} in
  presentRepeatedly env nows T db = (db, List.map (fun _ => inr resp) nows)
  /\ Forall (fun now => readOnlyAt (refreshAccessToken env now (Some T)) db) nows.
Proof.
  intros Hv Hfind Hne Hledger resp. split.
  - induction Hv as [| now rest Hnow Hrest IH]; cbn [presentRepeatedly List.map];
      [reflexivity |].
    rewrite (run_refresh_grace env now T db decoded stored entry) by assumption.
    rewrite IH. reflexivity.
  - induction Hv as [| now rest Hnow Hrest IH]; constructor; [| exact IH].
    eapply grace_path_steps; eassumption.
Qed.

Lemma grace_path_is_read_only_witness :
  presentRepeatedly Sample.env0 [1006000; 1006500; 1009000]
    (Sample.aliceRefresh 1000) Sample.db2
  = (Sample.db2,
     [inr Sample.graceResponse2; inr Sample.graceResponse2; inr Sample.graceResponse2]).
Proof.
  apply (grace_path_is_read_only Sample.env0 [1006000; 1006500; 1009000]
           (Sample.aliceRefresh 1000) Sample.db2
           (jwt.RefreshClaims 1) Sample.alice2 Sample.entry2).
  - repeat constructor.
  - reflexivity.
  - discriminate.
  - reflexivity.
Defined.

(** ** The refresh endpoint: happy path *)

Lemma assign_refreshToken_last (u : User.t) (l : list Assignment) (t : option jwt.Token) :
  User.refreshToken (assignAll u (l ++ [refreshToken_set t])) = t.
Proof. rewrite assignAll_app. reflexivity. Qed.

Lemma changes_refreshToken (u : User.t) (t : option jwt.Token) :
  User.refreshToken u <> t -> changes u (refreshToken_set t) = true.
Proof.
  intros H. unfold changes. rewrite bool_decide_eq_false_2; [reflexivity |].
  intros E. apply H. rewrite <- E. reflexivity.
Qed.

Lemma refreshToken_expiredUpdateData (now : Z) (freePlan : option Plan.t) (u : User.t) :
  User.refreshToken (assignAll u (expiredUpdateData now freePlan)) = User.refreshToken u.
Proof. destruct freePlan; reflexivity. Qed.

(** A request that runs alone, on a document that agrees with the stored
    one, leaves the new refresh token as the stored pointer. *)
Lemma rotation_in_sequence
    (env : Env) (now : Z) (u : User.t) (db : DB) (stored : User.t) :
  ACCESS_TOKEN_SECRET env <> EmptyString ->
  REFRESH_TOKEN_SECRET env <> EmptyString ->
  List.find (hasId (User._id u)) (users db) = Some stored ->
  agrees stored u ->
  let newRefreshToken :=
    jwt.sign now (jwt.RefreshClaims (User._id u))
      (REFRESH_TOKEN_SECRET env) (REFRESH_TOKEN_EXPIRY env) in
  exists db' doc' accessToken,
    run (generateAccessAndRefereshTokens env now (loaded u)) db
    = (db', inr (doc', (accessToken, newRefreshToken)))
    /\ currentRefreshToken (User._id u) db' = Some newRefreshToken
    /\ usedRefreshTokens db' = usedRefreshTokens db.
Proof.
  intros Ha Hr Hfind Hagree newRefreshToken.
  destruct (generate_saves_in_agreement env now (loaded u) db stored Ha Hr Hfind Hagree)
    as (db' & doc' & stored' & Hrun & Hthis & Hfind' & _ & Hag' & _ & Hledger & _).
  cbn [this loaded] in Hrun, Hfind', Hthis.
  eexists db', doc', _. split; [exact Hrun |]. split; [| exact Hledger].
  unfold currentRefreshToken. rewrite Hfind'.
  destruct Hag' as (E & _). rewrite E, Hthis. reflexivity.
Qed.

(** The rotation writes the new refresh token over whatever pointer the
    store holds for the principal at the time of the [save]. *)
Lemma rotation_overwrites_pointer
    (env : Env) (now : Z) (u : User.t) (db : DB) (stored : User.t) :
  ACCESS_TOKEN_SECRET env <> EmptyString ->
  REFRESH_TOKEN_SECRET env <> EmptyString ->
  List.find (hasId (User._id u)) (users db) = Some stored ->
  let newRefreshToken :=
    jwt.sign now (jwt.RefreshClaims (User._id u))
      (REFRESH_TOKEN_SECRET env) (REFRESH_TOKEN_EXPIRY env) in
  User.refreshToken u <> Some newRefreshToken ->
  exists db' doc' accessToken,
    run (generateAccessAndRefereshTokens env now (loaded u)) db
    = (db', inr (doc', (accessToken, newRefreshToken)))
    /\ currentRefreshToken (User._id u) db' = Some newRefreshToken.
Proof.
  intros Ha Hr Hfind newRefreshToken Hne.
  pose proof (run_generateAccessAndRefereshTokens env now (loaded u) db stored Ha Hr Hfind)
    as Hrun.
  cbv zeta in Hrun. cbn [this modifiedPaths loaded] in Hrun.
  eexists _, _, _. split; [exact Hrun |].
  unfold currentRefreshToken, withUsers. cbn [users].
  rewrite find_updateFirst.
  - rewrite Hfind. cbn [fmap option_fmap option_map].
    rewrite modifiedPaths_setPath, changes_refreshToken.
    + apply assign_refreshToken_last.
    + destruct (subscriptionExpired now _).
      * rewrite this_Object_assign. cbn [this].
        rewrite refreshToken_expiredUpdateData, populate_refreshToken. exact Hne.
      * cbn [this]. rewrite populate_refreshToken. exact Hne.
  - intros x. unfold hasId. rewrite assignAll_id. reflexivity.
Qed.

(** C1, as stated, fails: two refresh requests that present the same current
    token, the second loading the user before the first has saved, both
    rotate it, each to a token of its own; the pointer ends on the second
    one's. *)
Lemma rotation_is_not_compare_and_swap :
  ~ rotationIsCompareAndSwap Sample.env0.
Proof.
  intros H.
  eapply (H [true; false; true; true; false; false] 1500000 1501000
            (Sample.aliceRefresh 1000) Sample.db1 _
           {| Res.status := 200; Res.message := "Access token refreshed.";
              Res.accessToken := Some (Sample.aliceAccess 1500);
              Res.refreshToken := Some (Sample.aliceRefresh 1500);
              Res.user := None; Res.error := None |}
           {| Res.status := 200; Res.message := "Access token refreshed.";
              Res.accessToken := Some (Sample.aliceAccess 1501);
              Res.refreshToken := Some (Sample.aliceRefresh 1501);
              Res.user := None; Res.error := None |}).
  - vm_compute. reflexivity.
  - split; (split; [reflexivity | split; [reflexivity | discriminate]]).
Qed.

(** The same run, spelled out: the pointer is the second request's token,
    and the token handed to the first client is afterwards refused. *)
Example lost_rotation :
  let '(db', _) :=
    interleave [true; false; true; true; false; false]
      (refreshAccessToken Sample.env0 1500000 (Some (Sample.aliceRefresh 1000)))
      (refreshAccessToken Sample.env0 1501000 (Some (Sample.aliceRefresh 1000)))
      Sample.db1 in
  currentRefreshToken 1 db' = Some (Sample.aliceRefresh 1501)
  /\ snd (run (refreshAccessToken Sample.env0 1502000 (Some (Sample.aliceRefresh 1500))) db')
     = inr (Res.json 403 "Forbidden: Invalid refresh token.").
Proof. vm_compute. split; reflexivity. Qed.

(** The ledger record is created after the [save]: a request that loads the
    user between the two finds the presented token neither current nor in
    the ledger. *)
Example refresh_between_save_and_ledger_record :
  let '(db', (pA, pB)) :=
    interleave [true; true; false; false; true]
      (refreshAccessToken Sample.env0 1500000 (Some (Sample.aliceRefresh 1000)))
      (refreshAccessToken Sample.env0 1500200 (Some (Sample.aliceRefresh 1000)))
      Sample.db1 in
  finished pB = Some (inr (Res.json 403 "Forbidden: Invalid refresh token."))
  /\ currentRefreshToken 1 db' = Some (Sample.aliceRefresh 1500).
Proof. vm_compute. split; reflexivity. Qed.

Lemma role_expiredUpdateData (now : Z) (freePlan : option Plan.t) (u : User.t) :
  User.role (assignAll u (expiredUpdateData now freePlan)) = User.role u.
Proof. destruct freePlan; reflexivity. Qed.

Lemma role_populate (ps : list Plan.t) (u : User.t) :
  User.role (populate ps u) = User.role u.
Proof. destruct (populate_status_dates ps u) as (_ & _ & _ & _ & H). exact H. Qed.

Lemma role_checkedAt (now : Z) (db : DB) (u : User.t) :
  User.role (checkedAt now db u) = User.role u.
Proof.
  unfold checkedAt. destruct (subscriptionExpired now (populate (plans db) u)).
  - rewrite role_expiredUpdateData. apply role_populate.
  - apply role_populate.
Qed.

(** The tokens that an issuance signs: both at the clock reading of the
    request, the access token for the role of the user and the plan slug of
    the document after the expiry check. *)
Lemma issuance_signs_at_now
    (env : Env) (now : Z) (u : User.t) (db : DB) (stored : User.t) :
  ACCESS_TOKEN_SECRET env <> EmptyString ->
  REFRESH_TOKEN_SECRET env <> EmptyString ->
  List.find (hasId (User._id u)) (users db) = Some stored ->
  exists db' doc',
    run (generateAccessAndRefereshTokens env now (loaded u)) db
    = (db', inr (doc',
                 (jwt.sign now
                    (jwt.AccessClaims (User._id u) (User.role u)
                       (planSlugOf (checkedAt now db u)))
                    (ACCESS_TOKEN_SECRET env) (ACCESS_TOKEN_EXPIRY env),
                  jwt.sign now (jwt.RefreshClaims (User._id u))
                    (REFRESH_TOKEN_SECRET env) (REFRESH_TOKEN_EXPIRY env)))).
Proof.
  intros Ha Hr Hfind.
  pose proof (run_generateAccessAndRefereshTokens env now (loaded u) db stored Ha Hr Hfind)
    as Hrun.
  cbv zeta in Hrun. cbn [this modifiedPaths loaded] in Hrun.
  assert (Hthis :
    this (if subscriptionExpired now (populate (plans db) u)
          then Object_assign {| this := populate (plans db) u; modifiedPaths := [] |}
                 (expiredUpdateData now (Plan_findOne_free db))
          else {| this := populate (plans db) u; modifiedPaths := [] |})
    = checkedAt now db u).
  { unfold checkedAt. destruct (subscriptionExpired now (populate (plans db) u)).
    - rewrite this_Object_assign. reflexivity.
    - reflexivity. }
  rewrite Hthis, role_checkedAt in Hrun.
  eexists _, _. exact Hrun.
Qed.

(** A token signed in an earlier second is not the token signed now. *)
Lemma sign_differs_from_earlier (now : Z) (payload payload' : jwt.Claims)
    (secret k : string) (expiresIn iat exp : Z) :
  iat < jwt.clockTimestamp now ->
  jwt.sign now payload secret expiresIn <> jwt.Signed k payload' iat exp.
Proof. unfold jwt.sign. intros Hlt E. inversion E. lia. Qed.

(** C1, amended.  On the happy path (the presented token [T] verifies and
    equals the pointer of the loaded user) a request that runs with no other
    request in between answers 200 with the pair it signs at its own clock
    reading: the access token for the principal's id, role and plan slug
    after the expiry check, and the refresh token for the principal's id;
    that refresh token is not [T] whenever [T] was signed in an earlier
    second.  It leaves that refresh token as the principal's current
    pointer and appends the presented token with that access token to the
    ledger.  The pointer is replaced by a plain [save] keyed on the
    principal id: whatever pointer the store holds when the [save] of a
    rotation is served, the new refresh token is written over it. *)
Theorem happy_path_rotation_overwrites_pointer
    (env : Env) (now : Z) (T : jwt.Token) (db : DB)
    (decoded : jwt.Claims) (stored : User.t) :
  ACCESS_TOKEN_SECRET env <> EmptyString ->
  jwt.verify now T (REFRESH_TOKEN_SECRET env) = inr decoded ->
  List.find (hasId (jwt.claims_id decoded)) (users db) = Some stored ->
  User.refreshToken stored = Some T ->
  let id := jwt.claims_id decoded in
  let newAccessToken :=
    jwt.sign now
      (jwt.AccessClaims id (User.role stored)
         (planSlugOf (checkedAt now db (deselectPasswordHash stored))))
      (ACCESS_TOKEN_SECRET env) (ACCESS_TOKEN_EXPIRY env) in
  let newRefreshToken :=
    jwt.sign now (jwt.RefreshClaims id)
      (REFRESH_TOKEN_SECRET env) (REFRESH_TOKEN_EXPIRY env) in
  (exists db',
     run (refreshAccessToken env now (Some T)) db
     = (db', inr {| Res.status := 200;
                    Res.message := "Access token refreshed.";
                    Res.accessToken := Some newAccessToken;
                    Res.refreshToken := Some newRefreshToken;
                    Res.user := None; Res.error := None |})
     /\ currentRefreshToken id db' = Some newRefreshToken
     /\ usedRefreshTokens db' =
        usedRefreshTokens db ++
          [{| UsedRefreshToken.token := T; UsedRefreshToken.userId := id;
              UsedRefreshToken.accessToken := newAccessToken;
              UsedRefreshToken.createdAt := now |}])
  /\ (forall k payload iat exp,
        T = jwt.Signed k payload iat exp ->
        iat < jwt.clockTimestamp now ->
        newRefreshToken <> T)
  /\ (forall (u : User.t) (db2 : DB) (stored2 : User.t),
        User._id u = id ->
        User.refreshToken u = Some T ->
        T <> newRefreshToken ->
        List.find (hasId id) (users db2) = Some stored2 ->
        exists db2' doc' accessToken,
          run (generateAccessAndRefereshTokens env now (loaded u)) db2
          = (db2', inr (doc', (accessToken, newRefreshToken)))
          /\ currentRefreshToken id db2' = Some newRefreshToken).
Proof.
  intros Ha Hv Hfind Hptr id newAccessToken newRefreshToken.
  assert (Hr : REFRESH_TOKEN_SECRET env <> EmptyString).
  { apply verify_inr in Hv as (? & ? & _ & Hk & _). exact Hk. }
  split; [| split].
  - set (u := populate (plans db) (deselectPasswordHash stored)).
    assert (Hu : User_findById id db = Some u).
    { unfold User_findById, id. rewrite Hfind. reflexivity. }
    assert (Hid : User._id u = id).
    { unfold u. rewrite populate_id. simpl. eapply find_hasId_id. exact Hfind. }
    assert (Hfind' : List.find (hasId (User._id u)) (users db) = Some stored).
    { rewrite Hid. exact Hfind. }
    destruct (rotation_in_sequence env now u db stored Ha Hr Hfind'
                (proj2 (agrees_loaded (plans db) stored)))
      as (db1 & doc' & accessToken & Hrun & Hcur & Hledger).
    destruct (issuance_signs_at_now env now u db stored Ha Hr Hfind')
      as (db1' & doc'' & Hsigned).
    assert (Hacc : accessToken = newAccessToken).
    { rewrite Hrun in Hsigned. injection Hsigned as _ _ Hacc.
      rewrite Hacc. unfold newAccessToken. rewrite Hid.
      unfold u at 1. rewrite role_populate. cbn [deselectPasswordHash User.role].
      f_equal. f_equal. unfold u, checkedAt.
      rewrite (populate_other (plans db)
                 (populate (plans db) (deselectPasswordHash stored)))
        by apply populate_not_oid.
      reflexivity. }
    rewrite Hid in Hrun, Hcur. fold newRefreshToken in Hrun, Hcur.
    rewrite Hacc in Hrun.
    exists (withUsedRefreshTokens db1
              (usedRefreshTokens db1 ++
                 [{| UsedRefreshToken.token := T; UsedRefreshToken.userId := id;
                     UsedRefreshToken.accessToken := newAccessToken;
                     UsedRefreshToken.createdAt := now |}])).
    split; [| split].
    + rewrite refreshAccessToken_unfold by (eapply verify_inr_truthy; exact Hv).
      rewrite run_tryCatch, run_bind, Hv, run_lift, run_bind, run_query.
      fold id. rewrite Hu.
      assert (Hb : User.refreshToken u = Some T).
      { unfold u. rewrite populate_refreshToken. exact Hptr. }
      rewrite bool_decide_eq_true_2 by exact Hb.
      rewrite run_bind, Hrun, run_bind, run_command. rewrite Hid. reflexivity.
    + exact Hcur.
    + cbn [usedRefreshTokens withUsedRefreshTokens]. rewrite Hledger. reflexivity.
  - intros k payload iat exp -> Hlt. apply sign_differs_from_earlier. exact Hlt.
  - intros u db2 stored2 Hid HuT Hnew Hfind2. rewrite <- Hid in Hfind2.
    assert (Hne : User.refreshToken u <>
                  Some (jwt.sign now (jwt.RefreshClaims (User._id u))
                          (REFRESH_TOKEN_SECRET env) (REFRESH_TOKEN_EXPIRY env))).
    { rewrite HuT, Hid. intros [= E]. exact (Hnew E). }
    destruct (rotation_overwrites_pointer env now u db2 stored2 Ha Hr Hfind2 Hne)
      as (db2' & doc' & accessToken & Hrun & Hcur).
    rewrite Hid in Hrun, Hcur. exists db2', doc', accessToken. split; assumption.
Qed.

Lemma happy_path_rotation_overwrites_pointer_witness :
  (exists db',
     run (refreshAccessToken Sample.env0 1005000 (Some (Sample.aliceRefresh 1000)))
       Sample.db1
     = (db', inr {| Res.status := 200;
                    Res.message := "Access token refreshed.";
                    Res.accessToken := Some (Sample.aliceAccess 1005);
                    Res.refreshToken := Some (Sample.aliceRefresh 1005);
                    Res.user := None; Res.error := None |})
     /\ currentRefreshToken 1 db' = Some (Sample.aliceRefresh 1005)
     /\ usedRefreshTokens db' =
        usedRefreshTokens Sample.db1 ++
          [{| UsedRefreshToken.token := Sample.aliceRefresh 1000;
              UsedRefreshToken.userId := 1;
              UsedRefreshToken.accessToken := Sample.aliceAccess 1005;
              UsedRefreshToken.createdAt := 1005000 |}])
  /\ Sample.aliceRefresh 1005 <> Sample.aliceRefresh 1000.
Proof.
  pose proof (happy_path_rotation_overwrites_pointer Sample.env0 1005000
                (Sample.aliceRefresh 1000) Sample.db1 (jwt.RefreshClaims 1)
                (assign Sample.alice (refreshToken_set (Some (Sample.aliceRefresh 1000))))
                ltac:(discriminate) eq_refl eq_refl eq_refl) as (H1 & H2 & _).
  split.
  - exact H1.
  - apply (H2 "refresh-secret"%string (jwt.RefreshClaims 1) 1000 (1000 + 604800)).
    + reflexivity.
    + vm_compute. reflexivity.
Defined.

(** ** Login *)

Lemma loginUser_unfold
    (env : Env) (bcrypt_compare : string -> string -> bool)
    (now : Z) (identifier password : string) :
  identifier <> EmptyString -> password <> EmptyString ->
  loginUser env bcrypt_compare now (Some identifier) (Some password) =
  tryCatch
    (let* found := query (User_findOne_identifier identifier) in
     match found with
     | None => Ret (Res.json 404 "Invalid credentials.")
     | Some u =>
         if negb (isPasswordCorrect bcrypt_compare u (Some password))
         then Ret (Res.json 401 "Invalid credentials.")
         else
           let* (doc, (accessToken, refreshToken)) :=
             generateAccessAndRefereshTokens env now (loaded u) in
           Ret {| Res.status := 200;
                  Res.message := "Login successful.";
                  Res.accessToken := Some accessToken;
                  Res.refreshToken := Some refreshToken;
                  Res.user := Some
                    {| Res._id := User._id (this doc);
                       Res.username := User.username (this doc);
                       Res.email := User.email (this doc);
                       Res.role := User.role (this doc);
                       Res.plan := planOfResponse (this doc);
                       Res.subscriptionStatus := User.subscriptionStatus (this doc) |};
                  Res.error := None |}
     end)
    (fun error =>
       Ret {| Res.status := 500; Res.message := "Error logging in user.";
              Res.accessToken := None; Res.refreshToken := None; Res.user := None;
              Res.error := Some (exnMessage error) |}).
Proof.
  intros Hi Hp. unfold loginUser, JsString.truthy.
  rewrite !bool_decide_eq_false_2 by assumption. reflexivity.
Qed.

Lemma run_loginUser_unknown
    (env : Env) (bcrypt_compare : string -> string -> bool)
    (now : Z) (identifier password : string) (db : DB) :
  identifier <> EmptyString -> password <> EmptyString ->
  User_findOne_identifier identifier db = None ->
  run (loginUser env bcrypt_compare now (Some identifier) (Some password)) db
  = (db, inr (Res.json 404 "Invalid credentials.")).
Proof.
  intros Hi Hp Hnone. rewrite loginUser_unfold by assumption.
  rewrite run_tryCatch, run_bind, run_query, Hnone. reflexivity.
Qed.

Lemma run_loginUser_wrong_password
    (env : Env) (bcrypt_compare : string -> string -> bool)
    (now : Z) (identifier password : string) (db : DB) (u : User.t) :
  identifier <> EmptyString -> password <> EmptyString ->
  User_findOne_identifier identifier db = Some u ->
  isPasswordCorrect bcrypt_compare u (Some password) = false ->
  run (loginUser env bcrypt_compare now (Some identifier) (Some password)) db
  = (db, inr (Res.json 401 "Invalid credentials.")).
Proof.
  intros Hi Hp Hsome Hwrong. rewrite loginUser_unfold by assumption.
  rewrite run_tryCatch, run_bind, run_query, Hsome, Hwrong. reflexivity.
Qed.

(** C5 on the code: an identifier that matches no principal is answered
    with status 404, a wrong password with status 401; the message is the
    same, the status tells the two apart. *)
Theorem login_unknown_identifier_answers_404 :
  run (loginUser Sample.env0 Sample.bcrypt0 1000000
         (Some "carol"%string) (Some "Passw0rd!"%string)) Sample.db0
  = (Sample.db0, inr (Res.json 404 "Invalid credentials."))
  /\ run (loginUser Sample.env0 Sample.bcrypt0 1000000
            (Some "alice"%string) (Some "wrong-password"%string)) Sample.db0
     = (Sample.db0, inr (Res.json 401 "Invalid credentials.")).
Proof. split; reflexivity. Qed.

(** ** Lookup by identifier *)

Lemma differsOnlyInCase_toLowerCase (a b : string) :
  JsString.differsOnlyInCase a b = true ->
  JsString.toLowerCase a = JsString.toLowerCase b.
Proof.
  revert b. induction a as [| x a IH]; intros [| y b]; simpl; try discriminate.
  - reflexivity.
  - intros H. apply andb_prop in H as [Hc Hr].
    apply bool_decide_eq_true in Hc. rewrite Hc, (IH b Hr). reflexivity.
Qed.

Lemma NoDup_map_inj {A B : Type} (f : A -> B) (l : list A) (x y : A) :
  List.NoDup (List.map f l) -> In x l -> In y l -> f x = f y -> x = y.
Proof.
  induction l as [| a l IH]; simpl; intros Hnd Hx Hy Hf; [contradiction |].
  apply List.NoDup_cons_iff in Hnd as [Hnotin Hnd].
  destruct Hx as [-> | Hx], Hy as [-> | Hy].
  - reflexivity.
  - exfalso. apply Hnotin. rewrite Hf. apply in_map. exact Hy.
  - exfalso. apply Hnotin. rewrite <- Hf. apply in_map. exact Hx.
  - apply IH; assumption.
Qed.

(** C6, as stated, fails: in a collection that respects the unique indexes
    and the setters, a principal whose username is the email of another
    one, in capitals, is what the lookup returns for that identifier,
    although the identifier differs from the other's stored email in letter
    case only. *)
Lemma login_lookup_prefers_username_match :
  ~ lookupFindsEmailInAnyCase.
Proof.
  intros H.
  destruct (H dbShadowed Sample.alice "Alice@Example.COM") as (found & Hfound & Hid).
  - unfold wellKeyed. cbn [dbShadowed users List.map].
    repeat split.
    + repeat (constructor; [cbn; intuition discriminate |]). constructor.
    + repeat (constructor; [cbn; intuition discriminate |]). constructor.
    + repeat (constructor; [cbn; intuition discriminate |]). constructor.
    + repeat constructor.
  - cbn. right. left. reflexivity.
  - reflexivity.
  - vm_compute in Hfound. injection Hfound as <-. discriminate Hid.
Qed.

(** The same collection, spelled out: the login of the second principal by
    her email in capitals, with her own password, is answered 401. *)
Example shadowed_login_is_refused :
  User_findOne_identifier "Alice@Example.COM" dbShadowed = Some mallory
  /\ run (loginUser Sample.env0 Sample.bcrypt0 1000000
            (Some "Alice@Example.COM"%string) (Some "Passw0rd!"%string)) dbShadowed
     = (dbShadowed, inr (Res.json 401 "Invalid credentials.")).
Proof. vm_compute. split; reflexivity. Qed.

(** C6, amended.  The lookup of [loginUser] returns the first stored
    principal whose username is the trimmed identifier or whose email is
    the trimmed, lower-cased identifier.  On the email key: for a stored
    principal whose email is stored as the schema setters leave it, in a
    collection with unique emails, an identifier that differs from that
    email in letter case only finds that principal, provided the
    identifier is not the username of another principal.  On the username
    key: in a collection with unique usernames, an identifier that is the
    username of a stored principal, up to surrounding blanks, finds that
    principal, provided the lower-cased identifier is not the email of
    another principal; the username is compared as it is written, so an
    identifier that matches no email and differs from every username,
    if only in letter case, finds nobody. *)
Theorem login_lookup_matches_either_key
    (db : DB) (u : User.t) (identifier : string) :
  In u (users db) ->
  (List.NoDup (List.map User.email (users db)) ->
   User.email u = castEmail (User.email u) ->
   JsString.differsOnlyInCase identifier (User.email u) = true ->
   (forall v, In v (users db) -> v <> u -> User.username v <> castUsername identifier) ->
   User_findOne_identifier identifier db = Some (populate (plans db) u))
  /\ (List.NoDup (List.map User.username (users db)) ->
      User.username u = castUsername identifier ->
      (forall v, In v (users db) -> v <> u -> User.email v <> castEmail identifier) ->
      User_findOne_identifier identifier db = Some (populate (plans db) u))
  /\ ((forall v, In v (users db) ->
         User.username v <> castUsername identifier
         /\ User.email v <> castEmail identifier) ->
      User_findOne_identifier identifier db = None).
Proof.
  intros Hin. split; [| split].
  - intros Hnd Hnorm Hcase Huser.
    assert (Hemail : castEmail identifier = User.email u).
    { unfold castEmail. rewrite (differsOnlyInCase_toLowerCase _ _ Hcase).
      symmetry. exact Hnorm. }
    assert (Hu : matchesIdentifier identifier u = true).
    { unfold matchesIdentifier. rewrite Hemail.
      rewrite (bool_decide_eq_true_2 (User.email u = User.email u)) by reflexivity.
      apply orb_true_r. }
    unfold User_findOne_identifier.
    destruct (List.find (matchesIdentifier identifier) (users db)) as [v |] eqn:E.
    + apply find_some in E as [Hv Hm]. simpl. f_equal. f_equal.
      destruct (decide (v = u)) as [-> | Hne]; [reflexivity |].
      unfold matchesIdentifier in Hm. apply orb_prop in Hm as [Hm | Hm];
        apply bool_decide_eq_true in Hm.
      * exfalso. exact (Huser v Hv Hne Hm).
      * apply (NoDup_map_inj User.email (users db)); try assumption. congruence.
    + exfalso. pose proof (find_none _ _ E u Hin) as Hf. congruence.
  - intros Hnd Hname Hmail.
    assert (Hu : matchesIdentifier identifier u = true).
    { unfold matchesIdentifier.
      rewrite (bool_decide_eq_true_2 _ Hname). reflexivity. }
    unfold User_findOne_identifier.
    destruct (List.find (matchesIdentifier identifier) (users db)) as [v |] eqn:E.
    + apply find_some in E as [Hv Hm]. simpl. f_equal. f_equal.
      destruct (decide (v = u)) as [-> | Hne]; [reflexivity |].
      unfold matchesIdentifier in Hm. apply orb_prop in Hm as [Hm | Hm];
        apply bool_decide_eq_true in Hm.
      * apply (NoDup_map_inj User.username (users db)); try assumption. congruence.
      * exfalso. exact (Hmail v Hv Hne Hm).
    + exfalso. pose proof (find_none _ _ E u Hin) as Hf. congruence.
  - intros Hnone. unfold User_findOne_identifier.
    destruct (List.find (matchesIdentifier identifier) (users db)) as [v |] eqn:E;
      [| reflexivity].
    exfalso. apply find_some in E as [Hv Hm].
    destruct (Hnone v Hv) as [Hn He].
    unfold matchesIdentifier in Hm. apply orb_prop in Hm as [Hm | Hm];
      apply bool_decide_eq_true in Hm; contradiction.
Qed.

Lemma login_lookup_matches_either_key_witness :
  User_findOne_identifier "Alice@Example.COM" Sample.db0
  = Some (populate (plans Sample.db0) Sample.alice)
  /\ User_findOne_identifier " alice " Sample.db0
     = Some (populate (plans Sample.db0) Sample.alice)
  /\ User_findOne_identifier "Alice" Sample.db0 = None.
Proof.
  split; [| split].
  - apply (proj1 (login_lookup_matches_either_key Sample.db0 Sample.alice
                    "Alice@Example.COM" ltac:(simpl; left; reflexivity))).
    + simpl. repeat constructor; simpl; intuition discriminate.
    + reflexivity.
    + reflexivity.
    + intros v [<- | [<- | []]] Hne; [congruence | discriminate].
  - apply (proj1 (proj2 (login_lookup_matches_either_key Sample.db0 Sample.alice
                           " alice " ltac:(simpl; left; reflexivity)))).
    + simpl. repeat constructor; simpl; intuition discriminate.
    + reflexivity.
    + intros v [<- | [<- | []]] Hne; [congruence | discriminate].
  - apply (proj2 (proj2 (login_lookup_matches_either_key Sample.db0 Sample.alice
                           "Alice" ltac:(simpl; left; reflexivity)))).
    intros v [<- | [<- | []]]; split; discriminate.
Defined.

(** ** Logout *)

Lemma unset_idem (u : User.t) :
  assign (assign u (refreshToken_set None)) (refreshToken_set None)
  = assign u (refreshToken_set None).
Proof. reflexivity. Qed.

(** C8.  Logging out an identified principal clears the principal's stored
    pointer and answers 200; a second logout right after leaves that store
    as it is and gives the same answer. *)
Theorem logout_is_idempotent
    (userId : Z) (body_refreshToken : option jwt.Token) (db : DB) :
  let ok := Res.json 200 "User logged out successfully." in
  let db1 := User_unsetRefreshToken_byId userId db in
  run (logoutUser (Some userId) body_refreshToken) db = (db1, inr ok)
  /\ run (logoutUser (Some userId) body_refreshToken) db1 = (db1, inr ok)
  /\ currentRefreshToken userId db1 = None.
Proof.
  intros ok db1. split; [reflexivity |]. split.
  - unfold logoutUser. cbn [tryCatch bind command run].
    unfold db1, User_unsetRefreshToken_byId, withUsers. cbn [users plans usedRefreshTokens].
    rewrite updateFirst_idem; [reflexivity | |].
    + intros x. unfold hasId. rewrite assign_id. reflexivity.
    + intros x. apply unset_idem.
  - unfold currentRefreshToken, db1, User_unsetRefreshToken_byId, withUsers. cbn [users].
    rewrite find_updateFirst.
    + destruct (List.find (hasId userId) (users db)); reflexivity.
    + intros x. unfold hasId. rewrite assign_id. reflexivity.
Qed.

(** ** Issuance and the subscription *)

Lemma ranOut_subscriptionExpired (now : Z) (ps : list Plan.t) (u : User.t) :
  ranOut now u -> subscriptionExpired now (populate ps u) = true.
Proof.
  intros H. unfold subscriptionExpired.
  destruct (populate_status_dates ps u) as (-> & _ & -> & -> & _).
  destruct H as [[Hs (d & -> & Hd)] | [Hs (d & -> & Hd)]]; rewrite Hs.
  - rewrite bool_decide_eq_true_2 by reflexivity.
    destruct (Z.leb_spec d now); [reflexivity | lia].
  - rewrite (bool_decide_eq_false_2 (trialing = active)) by discriminate.
    rewrite bool_decide_eq_true_2 by reflexivity.
    destruct (Z.leb_spec d now); [reflexivity | lia].
Qed.

Lemma planSlugOf_status (u : User.t) (s : SubscriptionStatus) :
  planSlugOf (assign u (subscriptionStatus_set s)) = planSlugOf u.
Proof.
  unfold planSlugOf. simpl. destruct (User.planId u) as [| oid | p]; try reflexivity.
  - destruct (bool_decide (s = free)), (bool_decide (User.subscriptionStatus u = free));
      reflexivity.
  - destruct (negb (bool_decide (Plan.slug p = EmptyString))); [reflexivity |].
    destruct (bool_decide (s = free)), (bool_decide (User.subscriptionStatus u = free));
      reflexivity.
Qed.

Lemma planId_assignAll (l : list Assignment) (u : User.t) :
  (forall b, In b l -> forall v, b <> planId_set v) ->
  User.planId (assignAll u l) = User.planId u.
Proof.
  unfold assignAll. revert u.
  induction l as [| a l IH]; intros u H; simpl; [reflexivity |].
  rewrite IH by (intros b Hb; apply H; right; exact Hb).
  destruct a; try reflexivity. exfalso. eapply (H _ (or_introl eq_refl)). reflexivity.
Qed.

Lemma generate_downgrades
    (env : Env) (now : Z) (u : User.t) (db : DB) (stored : User.t) :
  ACCESS_TOKEN_SECRET env <> EmptyString ->
  REFRESH_TOKEN_SECRET env <> EmptyString ->
  List.find (hasId (User._id u)) (users db) = Some stored ->
  agrees stored u ->
  ranOut now u ->
  exists db' doc' accessToken refreshToken,
    run (generateAccessAndRefereshTokens env now (loaded u)) db
    = (db', inr (doc', (accessToken, refreshToken)))
    /\ usedRefreshTokens db' = usedRefreshTokens db
    /\ downgraded env now u db db' accessToken refreshToken.
Proof.
  intros Ha Hr Hfind Hagree Hout.
  destruct (generate_saves_in_agreement env now (loaded u) db stored Ha Hr Hfind Hagree)
    as (db' & doc' & stored' & Hrun & Hthis & Hfind' & Hst & Hag' & Hin & Hledger & _).
  cbn [this loaded modifiedPaths] in Hrun, Hthis, Hfind', Hin.
  rewrite (ranOut_subscriptionExpired now (plans db) u Hout) in Hrun, Hthis, Hin.
  eexists db', doc', _, _. split; [exact Hrun |]. split; [exact Hledger |].
  unfold downgraded. exists stored, stored'.
  split; [exact Hfind |]. split; [exact Hfind' |].
  destruct Hag' as (E1 & E2 & E3 & E4 & E5 & E6).
  rewrite Hthis in E1, E2, E3, E4, E5, E6.
  split; [exact E1 |].
  destruct (populate_status_dates (plans db) u) as (_ & _ & _ & _ & Hrole).
  destruct (Plan_findOne_free db) as [freePlan |].
  - split.
    { destruct E2 as [E2 | E2]; [exact E2 |].
      exfalso. apply (E2 (Plan._id freePlan)). reflexivity. }
    split; [exact E3 |]. split; [exact E4 |]. split; [exact E5 |]. split; [exact E6 |].
    f_equal. f_equal. exact Hrole.
  - split.
    { rewrite Hst. apply planId_assignAll.
      intros b Hb v. apply Hin in Hb as [[] | [[<- | []] | ->]]; discriminate. }
    split; [exact E3 |].
    f_equal. f_equal; [exact Hrole |].
    apply (planSlugOf_status (populate (plans db) u) canceled).
Qed.

Lemma find_hasId_of_member (l : list User.t) (s : User.t) :
  In s l -> exists s', List.find (hasId (User._id s)) l = Some s'.
Proof.
  intros Hin. destruct (List.find (hasId (User._id s)) l) as [s' |] eqn:E.
  - exists s'. reflexivity.
  - exfalso. pose proof (find_none _ _ E s Hin) as Hf.
    unfold hasId in Hf. rewrite bool_decide_eq_true_2 in Hf by reflexivity. discriminate.
Qed.

Lemma User_findOne_identifier_found (identifier : string) (db : DB) (u : User.t) :
  List.NoDup (List.map User._id (users db)) ->
  User_findOne_identifier identifier db = Some u ->
  exists stored,
    List.find (hasId (User._id u)) (users db) = Some stored
    /\ u = populate (plans db) stored.
Proof.
  intros Hnd. unfold User_findOne_identifier.
  destruct (List.find (matchesIdentifier identifier) (users db)) as [s |] eqn:E;
    simpl; [| discriminate].
  intros [= <-]. rewrite populate_id. apply find_some in E as [Hin _].
  destruct (find_hasId_of_member _ _ Hin) as [s' Hs'].
  assert (s' = s) as ->.
  { pose proof (find_some _ _ Hs') as [Hin' Hid'].
    apply (NoDup_map_inj User._id (users db)); try assumption.
    eapply find_hasId_id. exact Hs'. }
  exists s. split; [exact Hs' | reflexivity].
Qed.

Lemma Plan_findOne_free_In (db : DB) (freePlan : Plan.t) :
  In freePlan (plans db) ->
  Plan.slug freePlan = "free"%string ->
  List.NoDup (List.map Plan.slug (plans db)) ->
  Plan_findOne_free db = Some freePlan.
Proof.
  intros Hin Hslug Hnd. unfold Plan_findOne_free.
  destruct (List.find (fun p => bool_decide (Plan.slug p = "free"%string)) (plans db))
    as [p |] eqn:E.
  - apply find_some in E as [Hp Hfree]. apply bool_decide_eq_true in Hfree.
    f_equal. apply (NoDup_map_inj Plan.slug (plans db)); try assumption. congruence.
  - exfalso. pose proof (find_none _ _ E freePlan Hin) as Hf.
    cbn beta in Hf. apply bool_decide_eq_false in Hf. exact (Hf Hslug).
Qed.

Lemma Plan_findOne_free_none (db : DB) :
  Forall (fun p => Plan.slug p <> "free"%string) (plans db) ->
  Plan_findOne_free db = None.
Proof.
  intros Hall. unfold Plan_findOne_free.
  destruct (List.find (fun p => bool_decide (Plan.slug p = "free"%string)) (plans db))
    as [p |] eqn:E; [| reflexivity].
  exfalso. apply find_some in E as [Hp Hfree]. apply bool_decide_eq_true in Hfree.
  rewrite List.Forall_forall in Hall. exact (Hall p Hp Hfree).
Qed.

(** The run of an issuance for a user whose subscription has run out, with
    what it leaves in the store. *)
Lemma generate_persists_downgrade
    (env : Env) (now : Z) (u : User.t) (db : DB) (stored : User.t) :
  ACCESS_TOKEN_SECRET env <> EmptyString ->
  REFRESH_TOKEN_SECRET env <> EmptyString ->
  List.find (hasId (User._id u)) (users db) = Some stored ->
  agrees stored u ->
  ranOut now u ->
  exists db' doc' accessToken,
    run (generateAccessAndRefereshTokens env now (loaded u)) db
    = (db', inr (doc',
                 (accessToken,
                  jwt.sign now (jwt.RefreshClaims (User._id u))
                    (REFRESH_TOKEN_SECRET env) (REFRESH_TOKEN_EXPIRY env))))
    /\ usedRefreshTokens db' = usedRefreshTokens db
    /\ persistedDowngrade env now u db db' accessToken.
Proof.
  intros Ha Hr Hfind Hag Hout.
  destruct (generate_downgrades env now u db stored Ha Hr Hfind Hag Hout)
    as (db' & doc' & accessToken & refreshToken & Hrun & Hledger & Hdown).
  destruct (rotation_in_sequence env now u db stored Ha Hr Hfind Hag)
    as (db1 & doc1 & accessToken1 & Hrun1 & _ & _).
  assert (Hrt : refreshToken
                = jwt.sign now (jwt.RefreshClaims (User._id u))
                    (REFRESH_TOKEN_SECRET env) (REFRESH_TOKEN_EXPIRY env)).
  { rewrite Hrun in Hrun1. injection Hrun1 as _ _ _ E. exact E. }
  subst refreshToken.
  exists db', doc', accessToken. split; [exact Hrun |]. split; [exact Hledger |].
  destruct Hdown as (stored0 & stored' & Hfind0 & Hfind' & Hptr & Hvalues).
  exists stored0, stored'. split; [exact Hfind0 |]. split; [exact Hfind' |].
  split; [exact Hptr |]. split.
  - intros freePlan Hin Hslug Hnd.
    rewrite (Plan_findOne_free_In db freePlan Hin Hslug Hnd) in Hvalues. exact Hvalues.
  - intros Hnone. rewrite (Plan_findOne_free_none db Hnone) in Hvalues. exact Hvalues.
Qed.

(** C10, as stated, fails: the downgrade to the free plan does not clear
    every subscription date; it sets the start date to the time of the
    check. *)
Lemma downgrade_sets_start_date :
  ~ downgradeClearsSubscriptionDates Sample.env0 Sample.bcrypt0.
Proof.
  intros H.
  destruct (H 6000000 "alice"%string "Passw0rd!"%string Sample.db0
              (fst (run (loginUser Sample.env0 Sample.bcrypt0 6000000
                           (Some "alice"%string) (Some "Passw0rd!"%string)) Sample.db0))
              {| Res.status := 200; Res.message := "Login successful.";
                 Res.accessToken :=
                   Some (jwt.Signed "access-secret" (jwt.AccessClaims 1 user "free")
                           6000 6900);
                 Res.refreshToken := Some (Sample.aliceRefresh 6000);
                 Res.user :=
                   Some {| Res._id := 1; Res.username := "alice";
                           Res.email := "alice@example.com"; Res.role := user;
                           Res.plan := None; Res.subscriptionStatus := free |};
                 Res.error := None |}
              (populate (plans Sample.db0) Sample.alice)
              {| User._id := 1; User.username := "alice";
                 User.email := "alice@example.com";
                 User.password_hash := Some "$2a$10$Passw0rd!"%string;
                 User.refreshToken := Some (Sample.aliceRefresh 6000);
                 User.planId := PlanOid 11;
                 User.subscriptionStatus := free;
                 User.subscriptionStartDate := Some 6000000;
                 User.subscriptionEndDate := None;
                 User.trialEndsAt := None; User.role := user |}
              Sample.freePlan) as (_ & Hstart & _).
  - reflexivity.
  - left. split; [reflexivity |]. exists 5000000. split; [reflexivity | lia].
  - cbn. right. left. reflexivity.
  - reflexivity.
  - vm_compute. reflexivity.
  - reflexivity.
  - vm_compute. reflexivity.
  - discriminate Hstart.
Qed.

(** C10, amended.  An issuance for a user whose subscription has run out
    ('active' with a [subscriptionEndDate], or 'trialing' with a
    [trialEndsAt], before now) downgrades before it mints.  When the plans
    of the store hold the plan of slug 'free', the stored principal ends
    on that plan with status 'free', the start date set to now and the end
    and trial dates cleared, and the access token carries the plan 'free';
    when no plan has the slug 'free', the status becomes 'canceled' and the
    plan, stored and in the token, stays.  The change is saved with the
    refresh token signed by the request.  This is what a successful login
    and a happy-path refresh do, both answering 200 with the tokens so
    minted.  The [_id]s of the user collection are unique. *)
Theorem issuance_downgrades_expired_subscription
    (env : Env) (bcrypt_compare : string -> string -> bool)
    (now : Z) (u : User.t) (db : DB) :
  ACCESS_TOKEN_SECRET env <> EmptyString ->
  REFRESH_TOKEN_SECRET env <> EmptyString ->
  List.NoDup (List.map User._id (users db)) ->
  ranOut now u ->
  let refreshToken :=
    jwt.sign now (jwt.RefreshClaims (User._id u))
      (REFRESH_TOKEN_SECRET env) (REFRESH_TOKEN_EXPIRY env) in
  (forall identifier password,
     identifier <> EmptyString -> password <> EmptyString ->
     User_findOne_identifier identifier db = Some u ->
     isPasswordCorrect bcrypt_compare u (Some password) = true ->
     exists db' r accessToken,
       run (loginUser env bcrypt_compare now (Some identifier) (Some password)) db
       = (db', inr r)
       /\ Res.status r = 200
       /\ Res.accessToken r = Some accessToken
       /\ Res.refreshToken r = Some refreshToken
       /\ persistedDowngrade env now u db db' accessToken)
  /\ (forall T decoded,
        jwt.verify now T (REFRESH_TOKEN_SECRET env) = inr decoded ->
        User_findById (jwt.claims_id decoded) db = Some u ->
        User.refreshToken u = Some T ->
        exists db' r accessToken,
          run (refreshAccessToken env now (Some T)) db = (db', inr r)
          /\ Res.status r = 200
          /\ Res.accessToken r = Some accessToken
          /\ Res.refreshToken r = Some refreshToken
          /\ persistedDowngrade env now u db db' accessToken).
Proof.
  intros Ha Hr Hnd Hout refreshToken. split.
  - intros identifier password Hi Hp Hsome Hok.
    destruct (User_findOne_identifier_found identifier db u Hnd Hsome)
      as (stored & Hfind & Hu).
    assert (Hagree : agrees stored u).
    { rewrite Hu. apply agrees_loaded. }
    destruct (generate_persists_downgrade env now u db stored Ha Hr Hfind Hagree Hout)
      as (db' & doc' & accessToken & Hrun & _ & Hd).
    eexists db', _, accessToken. split.
    { rewrite loginUser_unfold by assumption.
      rewrite run_tryCatch, run_bind, run_query, Hsome, Hok.
      cbn [negb]. rewrite run_bind, Hrun. reflexivity. }
    split; [reflexivity |]. split; [reflexivity |]. split; [reflexivity | exact Hd].
  - intros T decoded Hv Hsome Hptr.
    destruct (User_findById_found _ _ _ Hsome) as (stored & Hfind & Hu & Hid & _).
    rewrite <- Hid in Hfind.
    assert (Hagree : agrees stored u).
    { rewrite Hu. apply agrees_loaded. }
    destruct (generate_persists_downgrade env now u db stored Ha Hr Hfind Hagree Hout)
      as (db' & doc' & accessToken & Hrun & _ & Hd).
    eexists _, _, accessToken. split.
    { rewrite refreshAccessToken_unfold by (eapply verify_inr_truthy; exact Hv).
      rewrite run_tryCatch, run_bind, Hv, run_lift, run_bind, run_query, Hsome.
      rewrite bool_decide_eq_true_2 by exact Hptr.
      rewrite run_bind, Hrun, run_bind, run_command. reflexivity. }
    split; [reflexivity |]. split; [reflexivity |]. split; [reflexivity |].
    destruct Hd as (s & s' & H1 & H2 & H3). exists s, s'.
    split; [exact H1 |]. split; [exact H2 |]. exact H3.
Qed.

Lemma issuance_downgrades_expired_subscription_witness :
  (exists db' r accessToken,
     run (loginUser Sample.env0 Sample.bcrypt0 6000000
            (Some "alice"%string) (Some "Passw0rd!"%string)) Sample.db0
     = (db', inr r)
     /\ Res.status r = 200
     /\ Res.accessToken r = Some accessToken
     /\ Res.refreshToken r = Some (Sample.aliceRefresh 6000)
     /\ persistedDowngrade Sample.env0 6000000 (populate (plans Sample.db0) Sample.alice)
          Sample.db0 db' accessToken)
  /\ (exists db' r accessToken,
        run (refreshAccessToken Sample.env0 6000000 (Some (Sample.aliceRefresh 1000)))
          Sample.db1 = (db', inr r)
        /\ Res.status r = 200
        /\ Res.accessToken r = Some accessToken
        /\ Res.refreshToken r = Some (Sample.aliceRefresh 6000)
        /\ persistedDowngrade Sample.env0 6000000
             (populate (plans Sample.db1)
                (deselectPasswordHash
                   (assign Sample.alice
                      (refreshToken_set (Some (Sample.aliceRefresh 1000))))))
             Sample.db1 db' accessToken).
Proof.
  split.
  - apply (proj1 (issuance_downgrades_expired_subscription
                    Sample.env0 Sample.bcrypt0 6000000
                    (populate (plans Sample.db0) Sample.alice) Sample.db0
                    ltac:(discriminate) ltac:(discriminate)
                    ltac:(simpl; repeat constructor; simpl; intuition discriminate)
                    (or_introl (conj eq_refl
                       (ex_intro _ 5000000 (conj eq_refl eq_refl)))))).
    + discriminate.
    + discriminate.
    + reflexivity.
    + reflexivity.
  - apply (proj2 (issuance_downgrades_expired_subscription
                    Sample.env0 Sample.bcrypt0 6000000
                    (populate (plans Sample.db1)
                       (deselectPasswordHash
                          (assign Sample.alice
                             (refreshToken_set (Some (Sample.aliceRefresh 1000))))))
                    Sample.db1
                    ltac:(discriminate) ltac:(discriminate)
                    ltac:(vm_compute; repeat constructor; simpl; intuition discriminate)
                    (or_introl (conj eq_refl
                       (ex_intro _ 5000000 (conj eq_refl eq_refl)))))
             (Sample.aliceRefresh 1000) (jwt.RefreshClaims 1)).
    + reflexivity.
    + reflexivity.
    + reflexivity.
Defined.

(** ** The leader's result TTL *)

(** A run of the leader with an access token that lives 31 seconds: the
    refresh succeeds one second before the next refresh point, the result
    is cached for two seconds, and it is still served after that point. *)
Lemma result_ttl_outlives_refresh_point :
  let now := 1005000 in
  let refreshed := Sample.backendRefresh now Sample.session1 in
  auth.error refreshed = None
  /\ auth.accessTokenExpires refreshed = Some 1036000
  /\ auth.resultTtlMs now refreshed = 2000
  /\ auth.resultTtlMs now refreshed
     > auth.numberOr0 (auth.accessTokenExpires refreshed)
       - auth.EARLY_REFRESH_WINDOW_MS - now
  /\ auth.needsRefresh 1006500 refreshed = true
  /\ auth.redis_get 1006500 "auth:v1:refresh:result:k"
       (fst (auth.leaderRefresh now "auth:v1:refresh:result:k"
               (Sample.backendRefresh now) Sample.session1 ∅))
     = Some refreshed.
Proof. vm_compute. repeat split; reflexivity. Qed.

(** C7 on the code.  The comment above the computation says 'Result TTL
    short and never overlapping next early-refresh window', and so does the
    specification; the floor of two seconds and the fallback
    [msUntilEarly || RESULT_TTL_CAP_MS] break it.  Whenever less than two
    seconds remain until the next refresh point (the new expiry minus the
    early-refresh window), the TTL exceeds the time remaining: it is two
    seconds when some time remains, and the whole cap of twenty seconds
    when none does (the result is already due); and the result published by
    the leader is served at every instant from the refresh point until the
    TTL has run out. *)
Theorem result_ttl_overlaps_refresh_window
    (now : Z) (refreshed : auth.Session) :
  let remaining :=
    auth.numberOr0 (auth.accessTokenExpires refreshed)
    - auth.EARLY_REFRESH_WINDOW_MS - now in
  remaining < 2000 ->
  remaining < auth.resultTtlMs now refreshed
  /\ (0 < remaining -> auth.resultTtlMs now refreshed = 2000)
  /\ (remaining <= 0 -> auth.resultTtlMs now refreshed = auth.RESULT_TTL_CAP_MS)
  /\ forall (rKey : string) (refreshFn : auth.Session -> auth.Session)
            (token : auth.Session) (redis : gmap string (auth.Session * Z)) (t : Z),
       refreshFn token = refreshed ->
       now <= t ->
       now + remaining <= t < now + auth.resultTtlMs now refreshed ->
       auth.redis_get t rKey (fst (auth.leaderRefresh now rKey refreshFn token redis))
       = Some refreshed.
Proof.
  intros remaining Hrem.
  assert (Hm : auth.msUntilEarly now refreshed = Z.max 0 remaining).
  { unfold auth.msUntilEarly, remaining. lia. }
  assert (Hpos : 0 < remaining -> auth.resultTtlMs now refreshed = 2000).
  { intros H. unfold auth.resultTtlMs. rewrite Hm.
    replace (Z.max 0 remaining) with remaining by lia.
    destruct (Z.eqb_spec remaining 0); [lia |].
    unfold auth.RESULT_TTL_CAP_MS. lia. }
  assert (Hdue : remaining <= 0 -> auth.resultTtlMs now refreshed = auth.RESULT_TTL_CAP_MS).
  { intros H. unfold auth.resultTtlMs. rewrite Hm.
    replace (Z.max 0 remaining) with 0 by lia.
    unfold auth.RESULT_TTL_CAP_MS. reflexivity. }
  split; [| split; [exact Hpos | split; [exact Hdue |]]].
  - destruct (Z.lt_ge_cases 0 remaining) as [H | H].
    + rewrite (Hpos H). exact Hrem.
    + rewrite (Hdue H). unfold auth.RESULT_TTL_CAP_MS. lia.
  - intros rKey refreshFn token redis t Hfn Hnow [Hfrom Hto].
    unfold auth.leaderRefresh, auth.redis_get, auth.redis_set_px. cbn [fst].
    rewrite lookup_insert_eq, Hfn.
    destruct (Z.ltb_spec t (now + auth.resultTtlMs now refreshed)); [reflexivity | lia].
Qed.

Lemma result_ttl_overlaps_refresh_window_witness :
  let now := 1005000 in
  let refreshed := Sample.backendRefresh now Sample.session1 in
  1036000 - 30000 - now < auth.resultTtlMs now refreshed
  /\ auth.resultTtlMs now refreshed = 2000
  /\ auth.needsRefresh 1006500 refreshed = true
  /\ auth.redis_get 1006500 "auth:v1:refresh:result:k"
       (fst (auth.leaderRefresh now "auth:v1:refresh:result:k"
               (Sample.backendRefresh now) Sample.session1 ∅))
     = Some refreshed.
Proof.
  intros now refreshed.
  pose proof (result_ttl_overlaps_refresh_window now refreshed
                ltac:(vm_compute; reflexivity)) as (H1 & H2 & _ & H4).
  split; [exact H1 |]. split; [apply H2; vm_compute; reflexivity |].
  split; [vm_compute; reflexivity |].
  apply (H4 "auth:v1:refresh:result:k"%string (Sample.backendRefresh now)
            Sample.session1 ∅ 1006500).
  - reflexivity.
  - unfold now. lia.
  - split; [vm_compute; discriminate | vm_compute; reflexivity].
Defined.

(** The same computation with a result that is already due: no time
    remains, the TTL is the whole cap, and the result is still served
    19999 ms later. *)
Example due_result_is_cached_for_the_cap :
  let now := 1870000 in
  let refreshed := Sample.session1 in
  auth.msUntilEarly now refreshed = 0
  /\ auth.resultTtlMs now refreshed = 20000
  /\ auth.needsRefresh now refreshed = true
  /\ auth.redis_get (now + 19999) "auth:v1:refresh:result:k"
       (fst (auth.leaderRefresh now "auth:v1:refresh:result:k"
               (fun _ => refreshed) Sample.session1 ∅))
     = Some refreshed.
Proof. vm_compute. repeat split; reflexivity. Qed.

(** Where at least two seconds remain until the next refresh point, the
    TTL of the cached result does not exceed the time remaining, and the
    result published by the leader is no longer served from that point
    on. *)
Lemma result_ttl_bounded_by_cap_and_refresh_point
    (now : Z) (refreshed : auth.Session) :
  let remaining :=
    auth.numberOr0 (auth.accessTokenExpires refreshed)
    - auth.EARLY_REFRESH_WINDOW_MS - now in
  2000 <= remaining ->
  2000 <= auth.resultTtlMs now refreshed <= auth.RESULT_TTL_CAP_MS
  /\ auth.resultTtlMs now refreshed <= remaining
  /\ forall (rKey : string) (refreshFn : auth.Session -> auth.Session)
            (token : auth.Session) (redis : gmap string (auth.Session * Z)) (t : Z),
       refreshFn token = refreshed ->
       now + remaining <= t ->
       auth.redis_get t rKey (fst (auth.leaderRefresh now rKey refreshFn token redis))
       = None.
Proof.
  intros remaining Hrem.
  assert (Hm : auth.msUntilEarly now refreshed = remaining).
  { unfold auth.msUntilEarly, remaining. lia. }
  assert (Httl : auth.resultTtlMs now refreshed = Z.min auth.RESULT_TTL_CAP_MS remaining).
  { unfold auth.resultTtlMs. rewrite Hm.
    destruct (Z.eqb_spec remaining 0); [lia |].
    unfold auth.RESULT_TTL_CAP_MS. lia. }
  rewrite Httl. unfold auth.RESULT_TTL_CAP_MS. repeat split; try lia.
  intros rKey refreshFn token redis t Hfn Ht.
  unfold auth.leaderRefresh, auth.redis_get, auth.redis_set_px. cbn [fst].
  rewrite lookup_insert_eq, Hfn, Httl.
  destruct (Z.ltb_spec t (now + Z.min auth.RESULT_TTL_CAP_MS remaining));
    [lia | reflexivity].
Qed.

(** The cap and the floor hold whatever the expiry is. *)
Lemma result_ttl_between_floor_and_cap (now : Z) (refreshed : auth.Session) :
  2000 <= auth.resultTtlMs now refreshed <= auth.RESULT_TTL_CAP_MS.
Proof.
  unfold auth.resultTtlMs, auth.RESULT_TTL_CAP_MS.
  destruct (auth.msUntilEarly now refreshed =? 0); lia.
Qed.

(** * Further properties of the token lifecycle *)

(** ** Helpers: the runs of a successful login and of a happy-path refresh *)

Lemma currentRefreshToken_Some (id : Z) (db : DB) (t : jwt.Token) :
  currentRefreshToken id db = Some t ->
  exists stored,
    List.find (hasId id) (users db) = Some stored /\ User.refreshToken stored = Some t.
Proof.
  unfold currentRefreshToken.
  destruct (List.find (hasId id) (users db)) as [s |]; [| discriminate].
  intros H. exists s. split; [reflexivity | exact H].
Qed.

Lemma verify_signed (now : Z) (k : string) (c : jwt.Claims) (iat exp : Z) :
  k <> EmptyString ->
  jwt.verify now (jwt.Signed k c iat exp) k =
  if exp <=? jwt.clockTimestamp now then inl jwt.TokenExpiredError else inr c.
Proof.
  intros Hk. unfold jwt.verify.
  rewrite bool_decide_eq_false_2 by exact Hk.
  rewrite bool_decide_eq_true_2 by reflexivity. reflexivity.
Qed.

Lemma run_loginUser_success
    (env : Env) (bcrypt_compare : string -> string -> bool)
    (now : Z) (identifier password : string) (db : DB) (u : User.t) :
  ACCESS_TOKEN_SECRET env <> EmptyString ->
  REFRESH_TOKEN_SECRET env <> EmptyString ->
  List.NoDup (List.map User._id (users db)) ->
  identifier <> EmptyString -> password <> EmptyString ->
  User_findOne_identifier identifier db = Some u ->
  isPasswordCorrect bcrypt_compare u (Some password) = true ->
  let refreshToken :=
    jwt.sign now (jwt.RefreshClaims (User._id u))
      (REFRESH_TOKEN_SECRET env) (REFRESH_TOKEN_EXPIRY env) in
  exists db' r accessToken,
    run (loginUser env bcrypt_compare now (Some identifier) (Some password)) db
    = (db', inr r)
    /\ Res.status r = 200
    /\ Res.accessToken r = Some accessToken
    /\ Res.refreshToken r = Some refreshToken
    /\ currentRefreshToken (User._id u) db' = Some refreshToken
    /\ usedRefreshTokens db' = usedRefreshTokens db.
Proof.
  intros Ha Hr Hnd Hi Hp Hsome Hok refreshToken.
  destruct (User_findOne_identifier_found identifier db u Hnd Hsome)
    as (stored & Hfind & Hu).
  assert (Hagree : agrees stored u) by (rewrite Hu; apply agrees_loaded).
  destruct (rotation_in_sequence env now u db stored Ha Hr Hfind Hagree)
    as (db' & doc' & accessToken & Hrun & Hcur & Hledger).
  eexists db', _, accessToken. split.
  { rewrite loginUser_unfold by assumption.
    rewrite run_tryCatch, run_bind, run_query, Hsome, Hok.
    cbn [negb]. rewrite run_bind, Hrun. reflexivity. }
  repeat split; assumption.
Qed.

Lemma run_refresh_happy
    (env : Env) (now : Z) (T : jwt.Token) (db : DB)
    (decoded : jwt.Claims) (stored : User.t) :
  ACCESS_TOKEN_SECRET env <> EmptyString ->
  jwt.verify now T (REFRESH_TOKEN_SECRET env) = inr decoded ->
  List.find (hasId (jwt.claims_id decoded)) (users db) = Some stored ->
  User.refreshToken stored = Some T ->
  let id := jwt.claims_id decoded in
  let newRefreshToken :=
    jwt.sign now (jwt.RefreshClaims id)
      (REFRESH_TOKEN_SECRET env) (REFRESH_TOKEN_EXPIRY env) in
  exists db' accessToken,
    run (refreshAccessToken env now (Some T)) db
    = (db', inr {| Res.status := 200;
                   Res.message := "Access token refreshed.";
                   Res.accessToken := Some accessToken;
                   Res.refreshToken := Some newRefreshToken;
                   Res.user := None; Res.error := None |})
    /\ currentRefreshToken id db' = Some newRefreshToken
    /\ usedRefreshTokens db' =
       usedRefreshTokens db ++
         [{| UsedRefreshToken.token := T; UsedRefreshToken.userId := id;
             UsedRefreshToken.accessToken := accessToken;
             UsedRefreshToken.createdAt := now |}].
Proof.
  intros Ha Hv Hfind Hptr id newRefreshToken.
  assert (Hr : REFRESH_TOKEN_SECRET env <> EmptyString).
  { apply verify_inr in Hv as (? & ? & _ & Hk & _). exact Hk. }
  set (u := populate (plans db) (deselectPasswordHash stored)).
  assert (Hu : User_findById id db = Some u).
  { unfold User_findById, id. rewrite Hfind. reflexivity. }
  assert (Hid : User._id u = id).
  { unfold u. rewrite populate_id. simpl. eapply find_hasId_id. exact Hfind. }
  assert (Hfind' : List.find (hasId (User._id u)) (users db) = Some stored).
  { rewrite Hid. exact Hfind. }
  destruct (rotation_in_sequence env now u db stored Ha Hr Hfind'
              (proj2 (agrees_loaded (plans db) stored)))
    as (db1 & doc' & accessToken & Hrun & Hcur & Hledger).
  rewrite Hid in Hrun, Hcur. fold newRefreshToken in Hrun, Hcur.
  exists (withUsedRefreshTokens db1
            (usedRefreshTokens db1 ++
               [{| UsedRefreshToken.token := T; UsedRefreshToken.userId := id;
                   UsedRefreshToken.accessToken := accessToken;
                   UsedRefreshToken.createdAt := now |}])), accessToken.
  split; [| split].
  - rewrite refreshAccessToken_unfold by (eapply verify_inr_truthy; exact Hv).
    rewrite run_tryCatch, run_bind, Hv, run_lift, run_bind, run_query.
    fold id. rewrite Hu.
    assert (Hb : User.refreshToken u = Some T).
    { unfold u. rewrite populate_refreshToken. exact Hptr. }
    rewrite bool_decide_eq_true_2 by exact Hb.
    rewrite run_bind, Hrun, run_bind, run_command. rewrite Hid. reflexivity.
  - exact Hcur.
  - cbn [usedRefreshTokens withUsedRefreshTokens]. rewrite Hledger. reflexivity.
Qed.

Lemma run_refresh_invalid
    (env : Env) (now : Z) (T : jwt.Token) (db : DB)
    (decoded : jwt.Claims) (stored : User.t) :
  jwt.verify now T (REFRESH_TOKEN_SECRET env) = inr decoded ->
  List.find (hasId (jwt.claims_id decoded)) (users db) = Some stored ->
  User.refreshToken stored <> Some T ->
  UsedRefreshToken_findOne T db = None ->
  run (refreshAccessToken env now (Some T)) db
  = (db, inr (Res.json 403 "Forbidden: Invalid refresh token.")).
Proof.
  intros Hv Hfind Hne Hledger.
  rewrite refreshAccessToken_unfold by (eapply verify_inr_truthy; exact Hv).
  rewrite Hv. simpl. unfold User_findById. rewrite Hfind. simpl.
  rewrite populate_refreshToken. simpl.
  rewrite bool_decide_eq_false_2 by exact Hne. simpl.
  rewrite Hledger. reflexivity.
Qed.

(** ** Minting and verifying *)

(** X1.  A refresh token minted at [now] verifies against the refresh
    secret, with the principal's id as its only claim, at every instant
    whose second is before the second of issuance plus
    [REFRESH_TOKEN_EXPIRY]; from that second on it is expired. *)
Theorem refresh_token_lifetime
    (env : Env) (now : Z) (u : User.t) (T : jwt.Token) (later : Z) :
  generateRefreshToken env now u = inr T ->
  jwt.verify later T (REFRESH_TOKEN_SECRET env) =
  if jwt.clockTimestamp now + REFRESH_TOKEN_EXPIRY env <=? jwt.clockTimestamp later
  then inl jwt.TokenExpiredError
  else inr (jwt.RefreshClaims (User._id u)).
Proof.
  unfold generateRefreshToken.
  destruct (bool_decide (REFRESH_TOKEN_SECRET env = EmptyString)) eqn:E; [discriminate |].
  apply bool_decide_eq_false in E. intros [= <-].
  unfold jwt.sign. apply verify_signed. exact E.
Qed.

Lemma refresh_token_lifetime_witness :
  jwt.verify 605799999 (Sample.aliceRefresh 1000) "refresh-secret"
  = inr (jwt.RefreshClaims 1)
  /\ jwt.verify 605800000 (Sample.aliceRefresh 1000) "refresh-secret"
     = inl jwt.TokenExpiredError.
Proof.
  split.
  - apply (refresh_token_lifetime Sample.env0 1000000 Sample.alice
             (Sample.aliceRefresh 1000) 605799999 eq_refl).
  - apply (refresh_token_lifetime Sample.env0 1000000 Sample.alice
             (Sample.aliceRefresh 1000) 605800000 eq_refl).
Defined.

(** X2.  Key separation: when the two secrets differ, an access token
    presented at the refresh endpoint is refused as malformed, at any time
    and without a database call. *)
Theorem access_token_is_no_refresh_token
    (env : Env) (now : Z) (u : User.t) (A : jwt.Token) (later : Z) :
  ACCESS_TOKEN_SECRET env <> REFRESH_TOKEN_SECRET env ->
  generateAccessToken env now u = inr A ->
  refreshAccessToken env later (Some A)
  = Ret (Res.json 403 "Forbidden: Malformed refresh token.").
Proof.
  intros Hsep. unfold generateAccessToken.
  destruct (bool_decide (ACCESS_TOKEN_SECRET env = EmptyString)); [discriminate |].
  intros [= <-]. unfold jwt.sign.
  rewrite refreshAccessToken_unfold by reflexivity.
  unfold jwt.verify.
  destruct (bool_decide (REFRESH_TOKEN_SECRET env = EmptyString)); [reflexivity |].
  rewrite bool_decide_eq_false_2 by exact Hsep. reflexivity.
Qed.

Lemma access_token_is_no_refresh_token_witness :
  refreshAccessToken Sample.env0 1001000 (Some (Sample.aliceAccess 1000))
  = Ret (Res.json 403 "Forbidden: Malformed refresh token.").
Proof.
  apply (access_token_is_no_refresh_token Sample.env0 1000000
           (populate (plans Sample.db0) Sample.alice) (Sample.aliceAccess 1000) 1001000).
  - discriminate.
  - reflexivity.
Defined.

(** ** Sessions: login, refresh, logout in sequence *)

(** X3.  The refresh token returned by a successful login is accepted by the
    refresh endpoint, on the happy path, at any instant before its expiry,
    when no other request has touched the principal in between; the
    principal's pointer is then the rotated token. *)
Theorem login_then_refresh
    (env : Env) (bcrypt_compare : string -> string -> bool)
    (now later : Z) (identifier password : string) (db : DB) (u : User.t) :
  ACCESS_TOKEN_SECRET env <> EmptyString ->
  REFRESH_TOKEN_SECRET env <> EmptyString ->
  List.NoDup (List.map User._id (users db)) ->
  identifier <> EmptyString -> password <> EmptyString ->
  User_findOne_identifier identifier db = Some u ->
  isPasswordCorrect bcrypt_compare u (Some password) = true ->
  jwt.clockTimestamp later < jwt.clockTimestamp now + REFRESH_TOKEN_EXPIRY env ->
  exists db1 r1 T db2 r2,
    run (loginUser env bcrypt_compare now (Some identifier) (Some password)) db
    = (db1, inr r1)
    /\ Res.status r1 = 200
    /\ Res.refreshToken r1 = Some T
    /\ run (refreshAccessToken env later (Some T)) db1 = (db2, inr r2)
    /\ Res.status r2 = 200
    /\ Res.message r2 = "Access token refreshed."%string
    /\ Res.refreshToken r2 =
       Some (jwt.sign later (jwt.RefreshClaims (User._id u))
               (REFRESH_TOKEN_SECRET env) (REFRESH_TOKEN_EXPIRY env))
    /\ currentRefreshToken (User._id u) db2 = Res.refreshToken r2.
Proof.
  intros Ha Hr Hnd Hi Hp Hsome Hok Hlife.
  destruct (run_loginUser_success env bcrypt_compare now identifier password db u
              Ha Hr Hnd Hi Hp Hsome Hok)
    as (db1 & r1 & accessToken & Hrun1 & Hs1 & _ & Ht1 & Hcur1 & _).
  apply currentRefreshToken_Some in Hcur1 as (stored1 & Hfind1 & Hptr1).
  set (T := jwt.sign now (jwt.RefreshClaims (User._id u))
              (REFRESH_TOKEN_SECRET env) (REFRESH_TOKEN_EXPIRY env)) in *.
  assert (Hv : jwt.verify later T (REFRESH_TOKEN_SECRET env)
               = inr (jwt.RefreshClaims (User._id u))).
  { unfold T, jwt.sign. rewrite verify_signed by exact Hr.
    destruct (Z.leb_spec (jwt.clockTimestamp now + REFRESH_TOKEN_EXPIRY env)
                (jwt.clockTimestamp later)); [lia | reflexivity]. }
  destruct (run_refresh_happy env later T db1 (jwt.RefreshClaims (User._id u)) stored1
              Ha Hv Hfind1 Hptr1)
    as (db2 & accessToken2 & Hrun2 & Hcur2 & _).
  eexists db1, r1, T, db2, _.
  split; [exact Hrun1 |]. split; [exact Hs1 |]. split; [exact Ht1 |].
  split; [exact Hrun2 |]. split; [reflexivity |]. split; [reflexivity |].
  split; [reflexivity |]. exact Hcur2.
Qed.

Lemma login_then_refresh_witness :
  exists db1 r1 T db2 r2,
    run (loginUser Sample.env0 Sample.bcrypt0 1000000
           (Some "alice"%string) (Some "Passw0rd!"%string)) Sample.db0
    = (db1, inr r1)
    /\ Res.status r1 = 200
    /\ Res.refreshToken r1 = Some T
    /\ run (refreshAccessToken Sample.env0 1005000 (Some T)) db1 = (db2, inr r2)
    /\ Res.status r2 = 200
    /\ Res.message r2 = "Access token refreshed."%string
    /\ Res.refreshToken r2 = Some (Sample.aliceRefresh 1005)
    /\ currentRefreshToken 1 db2 = Res.refreshToken r2.
Proof.
  apply (login_then_refresh Sample.env0 Sample.bcrypt0 1000000 1005000
           "alice" "Passw0rd!" Sample.db0 (populate (plans Sample.db0) Sample.alice)).
  - discriminate.
  - discriminate.
  - simpl. repeat constructor; simpl; intuition discriminate.
  - discriminate.
  - discriminate.
  - reflexivity.
  - reflexivity.
  - reflexivity.
Defined.

Lemma findOne_same_ledger (T : jwt.Token) (db db' : DB) :
  usedRefreshTokens db' = usedRefreshTokens db ->
  UsedRefreshToken_findOne T db' = UsedRefreshToken_findOne T db.
Proof. intros H. unfold UsedRefreshToken_findOne. rewrite H. reflexivity. Qed.

Lemma find_app_last {A : Type} (p : A -> bool) (l : list A) (x : A) :
  List.find p l = None -> p x = true -> List.find p (l ++ [x]) = Some x.
Proof.
  induction l as [| y l IH]; simpl; intros Hn Hx.
  - rewrite Hx. reflexivity.
  - destruct (p y); [discriminate |]. apply IH; assumption.
Qed.

(** X4.  A login supersedes the principal's earlier refresh tokens: after a
    successful login, a token of that principal other than the one just
    issued, and not in the ledger, is refused as invalid, and the refusal
    changes nothing. *)
Theorem login_supersedes_earlier_tokens
    (env : Env) (bcrypt_compare : string -> string -> bool)
    (now later : Z) (identifier password : string) (db : DB) (u : User.t)
    (T : jwt.Token) (decoded : jwt.Claims) :
  ACCESS_TOKEN_SECRET env <> EmptyString ->
  REFRESH_TOKEN_SECRET env <> EmptyString ->
  List.NoDup (List.map User._id (users db)) ->
  identifier <> EmptyString -> password <> EmptyString ->
  User_findOne_identifier identifier db = Some u ->
  isPasswordCorrect bcrypt_compare u (Some password) = true ->
  jwt.verify later T (REFRESH_TOKEN_SECRET env) = inr decoded ->
  jwt.claims_id decoded = User._id u ->
  T <> jwt.sign now (jwt.RefreshClaims (User._id u))
         (REFRESH_TOKEN_SECRET env) (REFRESH_TOKEN_EXPIRY env) ->
  UsedRefreshToken_findOne T db = None ->
  exists db1 r1,
    run (loginUser env bcrypt_compare now (Some identifier) (Some password)) db
    = (db1, inr r1)
    /\ Res.status r1 = 200
    /\ run (refreshAccessToken env later (Some T)) db1
       = (db1, inr (Res.json 403 "Forbidden: Invalid refresh token.")).
Proof.
  intros Ha Hr Hnd Hi Hp Hsome Hok Hv Hid Hne Hledger.
  destruct (run_loginUser_success env bcrypt_compare now identifier password db u
              Ha Hr Hnd Hi Hp Hsome Hok)
    as (db1 & r1 & accessToken & Hrun1 & Hs1 & _ & _ & Hcur1 & Hl1).
  apply currentRefreshToken_Some in Hcur1 as (stored1 & Hfind1 & Hptr1).
  exists db1, r1. split; [exact Hrun1 |]. split; [exact Hs1 |].
  apply (run_refresh_invalid env later T db1 decoded stored1 Hv).
  - rewrite Hid. exact Hfind1.
  - rewrite Hptr1. intros [= E]. apply Hne. symmetry. exact E.
  - rewrite (findOne_same_ledger T db db1 Hl1). exact Hledger.
Qed.

Lemma login_supersedes_earlier_tokens_witness :
  exists db1 r1,
    run (loginUser Sample.env0 Sample.bcrypt0 1200000
           (Some "alice"%string) (Some "Passw0rd!"%string)) Sample.db1
    = (db1, inr r1)
    /\ Res.status r1 = 200
    /\ run (refreshAccessToken Sample.env0 1300000 (Some (Sample.aliceRefresh 1000))) db1
       = (db1, inr (Res.json 403 "Forbidden: Invalid refresh token.")).
Proof.
  apply (login_supersedes_earlier_tokens Sample.env0 Sample.bcrypt0 1200000 1300000
           "alice" "Passw0rd!" Sample.db1
           (populate (plans Sample.db1)
              (assign Sample.alice (refreshToken_set (Some (Sample.aliceRefresh 1000)))))
           (Sample.aliceRefresh 1000) (jwt.RefreshClaims 1)).
  - discriminate.
  - discriminate.
  - simpl. repeat constructor; simpl; intuition discriminate.
  - discriminate.
  - discriminate.
  - reflexivity.
  - reflexivity.
  - reflexivity.
  - reflexivity.
  - discriminate.
  - reflexivity.
Defined.

Lemma find_after_unset (id : Z) (db : DB) (stored : User.t) :
  List.find (hasId id) (users db) = Some stored ->
  List.find (hasId id) (users (User_unsetRefreshToken_byId id db))
  = Some (assign stored (refreshToken_set None)).
Proof.
  intros H. unfold User_unsetRefreshToken_byId, withUsers. cbn [users].
  rewrite find_updateFirst.
  - rewrite H. reflexivity.
  - intros x. unfold hasId. rewrite assign_id. reflexivity.
Qed.

(** X5.  Logout revokes: after the logout of a stored principal, a refresh
    token of that principal that is not in the ledger is refused as
    invalid, whatever it was before, and the refusal changes nothing. *)
Theorem logout_revokes_refresh_token
    (env : Env) (later : Z) (id : Z) (body_refreshToken : option jwt.Token)
    (db : DB) (stored : User.t) (T : jwt.Token) (decoded : jwt.Claims) :
  List.find (hasId id) (users db) = Some stored ->
  jwt.verify later T (REFRESH_TOKEN_SECRET env) = inr decoded ->
  jwt.claims_id decoded = id ->
  UsedRefreshToken_findOne T db = None ->
  let db1 := fst (run (logoutUser (Some id) body_refreshToken) db) in
  run (refreshAccessToken env later (Some T)) db1
  = (db1, inr (Res.json 403 "Forbidden: Invalid refresh token.")).
Proof.
  intros Hfind Hv Hid Hledger db1.
  assert (E : db1 = User_unsetRefreshToken_byId id db) by reflexivity.
  rewrite E.
  apply (run_refresh_invalid env later T _ decoded (assign stored (refreshToken_set None)) Hv).
  - rewrite Hid. apply find_after_unset. exact Hfind.
  - discriminate.
  - exact Hledger.
Qed.

Lemma logout_revokes_refresh_token_witness :
  run (refreshAccessToken Sample.env0 1005000 (Some (Sample.aliceRefresh 1000)))
    (fst (run (logoutUser (Some 1) None) Sample.db1))
  = (fst (run (logoutUser (Some 1) None) Sample.db1),
     inr (Res.json 403 "Forbidden: Invalid refresh token.")).
Proof.
  apply (logout_revokes_refresh_token Sample.env0 1005000 1 None Sample.db1
           (assign Sample.alice (refreshToken_set (Some (Sample.aliceRefresh 1000))))
           (Sample.aliceRefresh 1000) (jwt.RefreshClaims 1)); reflexivity.
Defined.

(** X6.  Logout leaves the ledger alone: after the logout of a stored
    principal, a superseded token that still has a ledger entry is answered
    200 with the access token of that entry and with no refresh token. *)
Theorem logout_keeps_grace_path
    (env : Env) (later : Z) (id : Z) (body_refreshToken : option jwt.Token)
    (db : DB) (stored : User.t) (T : jwt.Token) (decoded : jwt.Claims)
    (entry : UsedRefreshToken.t) :
  List.find (hasId id) (users db) = Some stored ->
  jwt.verify later T (REFRESH_TOKEN_SECRET env) = inr decoded ->
  jwt.claims_id decoded = id ->
  UsedRefreshToken_findOne T db = Some entry ->
  let db1 := fst (run (logoutUser (Some id) body_refreshToken) db) in
  run (refreshAccessToken env later (Some T)) db1
  = (db1, inr {| Res.status := 200;
                 Res.message := "Access token refreshed (grace period).";
                 Res.accessToken := Some (UsedRefreshToken.accessToken entry);
                 Res.refreshToken := None;
                 Res.user := None; Res.error := None |}).
Proof.
  intros Hfind Hv Hid Hledger db1.
  assert (E : db1 = User_unsetRefreshToken_byId id db) by reflexivity.
  rewrite E.
  apply (run_refresh_grace env later T _ decoded
           (assign stored (refreshToken_set None)) entry Hv).
  - rewrite Hid. apply find_after_unset. exact Hfind.
  - discriminate.
  - exact Hledger.
Qed.

Lemma logout_keeps_grace_path_witness :
  run (refreshAccessToken Sample.env0 1006000 (Some (Sample.aliceRefresh 1000)))
    (fst (run (logoutUser (Some 1) None) Sample.db2))
  = (fst (run (logoutUser (Some 1) None) Sample.db2),
     inr {| Res.status := 200;
            Res.message := "Access token refreshed (grace period).";
            Res.accessToken := Some (Sample.aliceAccess 1005);
            Res.refreshToken := None;
            Res.user := None; Res.error := None |}).
Proof.
  apply (logout_keeps_grace_path Sample.env0 1006000 1 None Sample.db2
           Sample.alice2 (Sample.aliceRefresh 1000) (jwt.RefreshClaims 1)
           Sample.entry2); reflexivity.
Defined.

(** ** The ledger and its time to live *)

(** X7.  A duplicate of a refresh request, arriving after the first has
    rotated the token and before the ledger entry is deleted, is answered
    through the grace-period path with the very pair the first received,
    and changes nothing.  The token presented has no earlier ledger entry
    and the rotation mints a token other than it. *)
Theorem duplicate_refresh_receives_same_pair
    (env : Env) (now later : Z) (T : jwt.Token) (db : DB)
    (decoded : jwt.Claims) (stored : User.t) :
  ACCESS_TOKEN_SECRET env <> EmptyString ->
  jwt.verify now T (REFRESH_TOKEN_SECRET env) = inr decoded ->
  jwt.verify later T (REFRESH_TOKEN_SECRET env) = inr decoded ->
  List.find (hasId (jwt.claims_id decoded)) (users db) = Some stored ->
  User.refreshToken stored = Some T ->
  UsedRefreshToken_findOne T db = None ->
  T <> jwt.sign now (jwt.RefreshClaims (jwt.claims_id decoded))
         (REFRESH_TOKEN_SECRET env) (REFRESH_TOKEN_EXPIRY env) ->
  exists db1 r1 r2,
    run (refreshAccessToken env now (Some T)) db = (db1, inr r1)
    /\ Res.message r1 = "Access token refreshed."%string
    /\ run (refreshAccessToken env later (Some T)) db1 = (db1, inr r2)
    /\ Res.message r2 = "Access token refreshed (grace period)."%string
    /\ Res.status r2 = Res.status r1
    /\ Res.accessToken r2 = Res.accessToken r1
    /\ Res.refreshToken r2 = Res.refreshToken r1.
Proof.
  intros Ha Hv1 Hv2 Hfind Hptr Hledger Hne.
  destruct (run_refresh_happy env now T db decoded stored Ha Hv1 Hfind Hptr)
    as (db1 & accessToken & Hrun1 & Hcur1 & Hl1).
  apply currentRefreshToken_Some in Hcur1 as (stored1 & Hfind1 & Hptr1).
  eexists db1, _, _. split; [exact Hrun1 |]. split; [reflexivity |].
  split.
  { apply (run_refresh_grace env later T db1 decoded stored1
             {| UsedRefreshToken.token := T;
                UsedRefreshToken.userId := jwt.claims_id decoded;
                UsedRefreshToken.accessToken := accessToken;
                UsedRefreshToken.createdAt := now |} Hv2 Hfind1).
    - rewrite Hptr1. intros [= E]. apply Hne. symmetry. exact E.
    - unfold UsedRefreshToken_findOne. rewrite Hl1. apply find_app_last.
      + exact Hledger.
      + apply bool_decide_eq_true_2. reflexivity. }
  cbn [Res.message Res.status Res.accessToken Res.refreshToken UsedRefreshToken.accessToken].
  rewrite Hptr1. repeat split.
Qed.

Lemma duplicate_refresh_receives_same_pair_witness :
  exists db1 r1 r2,
    run (refreshAccessToken Sample.env0 1005000 (Some (Sample.aliceRefresh 1000)))
      Sample.db1 = (db1, inr r1)
    /\ Res.message r1 = "Access token refreshed."%string
    /\ run (refreshAccessToken Sample.env0 1005300 (Some (Sample.aliceRefresh 1000)))
         db1 = (db1, inr r2)
    /\ Res.message r2 = "Access token refreshed (grace period)."%string
    /\ Res.status r2 = Res.status r1
    /\ Res.accessToken r2 = Res.accessToken r1
    /\ Res.refreshToken r2 = Res.refreshToken r1.
Proof.
  apply (duplicate_refresh_receives_same_pair Sample.env0 1005000 1005300
           (Sample.aliceRefresh 1000) Sample.db1 (jwt.RefreshClaims 1)
           (assign Sample.alice (refreshToken_set (Some (Sample.aliceRefresh 1000))))).
  - discriminate.
  - reflexivity.
  - reflexivity.
  - reflexivity.
  - reflexivity.
  - reflexivity.
  - discriminate.
Defined.

Lemma find_filter_none {A : Type} (p q : A -> bool) (l : list A) :
  (forall x, In x l -> p x = true -> q x = false) ->
  List.find p (List.filter q l) = None.
Proof.
  induction l as [| x l IH]; simpl; intros H; [reflexivity |].
  destruct (q x) eqn:Eq; simpl.
  - destruct (p x) eqn:Ep.
    + rewrite (H x (or_introl eq_refl) Ep) in Eq. discriminate.
    + apply IH. intros y Hy. apply H. right. exact Hy.
  - apply IH. intros y Hy. apply H. right. exact Hy.
Qed.

Lemma find_filter_keeps {A : Type} (p q : A -> bool) (l : list A) (x : A) :
  List.find p l = Some x -> q x = true -> List.find p (List.filter q l) = Some x.
Proof.
  induction l as [| y l IH]; simpl; [discriminate |].
  destruct (p y) eqn:Ep.
  - intros [= ->] Hq. rewrite Hq. simpl. rewrite Ep. reflexivity.
  - intros Hf Hq. destruct (q y); simpl; [rewrite Ep |]; apply IH; assumption.
Qed.

(** X8.  Stale rejection: once a pass of the TTL monitor has run at a time
    when every ledger entry of a token is more than ten seconds old, that
    token, if it is not the principal's pointer, is refused as invalid. *)
Theorem superseded_token_refused_after_ttl
    (env : Env) (sweep later : Z) (T : jwt.Token) (db : DB)
    (decoded : jwt.Claims) (stored : User.t) :
  jwt.verify later T (REFRESH_TOKEN_SECRET env) = inr decoded ->
  List.find (hasId (jwt.claims_id decoded)) (users db) = Some stored ->
  User.refreshToken stored <> Some T ->
  (forall e, In e (usedRefreshTokens db) ->
             UsedRefreshToken.token e = T ->
             UsedRefreshToken.createdAt e + UsedRefreshToken.expires < sweep) ->
  run (refreshAccessToken env later (Some T)) (ttlMonitor sweep db)
  = (ttlMonitor sweep db, inr (Res.json 403 "Forbidden: Invalid refresh token.")).
Proof.
  intros Hv Hfind Hne Hold.
  apply (run_refresh_invalid env later T _ decoded stored Hv).
  - exact Hfind.
  - exact Hne.
  - unfold UsedRefreshToken_findOne, ttlMonitor, withUsedRefreshTokens.
    cbn [usedRefreshTokens]. apply find_filter_none.
    intros e He Hp. apply bool_decide_eq_true in Hp.
    specialize (Hold e He Hp).
    destruct (Z.ltb_spec sweep (UsedRefreshToken.createdAt e + UsedRefreshToken.expires));
      [lia | reflexivity].
Qed.

Lemma superseded_token_refused_after_ttl_witness :
  run (refreshAccessToken Sample.env0 1016000 (Some (Sample.aliceRefresh 1000)))
    (ttlMonitor 1015001 Sample.db2)
  = (ttlMonitor 1015001 Sample.db2,
     inr (Res.json 403 "Forbidden: Invalid refresh token.")).
Proof.
  apply (superseded_token_refused_after_ttl Sample.env0 1015001 1016000
           (Sample.aliceRefresh 1000) Sample.db2 (jwt.RefreshClaims 1) Sample.alice2).
  - reflexivity.
  - reflexivity.
  - discriminate.
  - intros e [<- | []] _. vm_compute. reflexivity.
Defined.

(** X9.  The grace window lasts ten seconds at least: a pass of the TTL
    monitor earlier than ten seconds after the creation of the first
    ledger entry of a token keeps that entry first, so the grace-period
    path answers as before the pass. *)
Theorem grace_window_survives_early_ttl_pass
    (env : Env) (sweep later : Z) (T : jwt.Token) (db : DB)
    (decoded : jwt.Claims) (stored : User.t) (entry : UsedRefreshToken.t) :
  jwt.verify later T (REFRESH_TOKEN_SECRET env) = inr decoded ->
  List.find (hasId (jwt.claims_id decoded)) (users db) = Some stored ->
  User.refreshToken stored <> Some T ->
  UsedRefreshToken_findOne T db = Some entry ->
  sweep < UsedRefreshToken.createdAt entry + UsedRefreshToken.expires ->
  UsedRefreshToken_findOne T (ttlMonitor sweep db) = Some entry
  /\ snd (run (refreshAccessToken env later (Some T)) (ttlMonitor sweep db))
     = snd (run (refreshAccessToken env later (Some T)) db).
Proof.
  intros Hv Hfind Hne Hledger Hyoung.
  assert (Hkept : UsedRefreshToken_findOne T (ttlMonitor sweep db) = Some entry).
  { unfold UsedRefreshToken_findOne, ttlMonitor, withUsedRefreshTokens.
    cbn [usedRefreshTokens]. apply find_filter_keeps; [exact Hledger |].
    destruct (Z.ltb_spec sweep
                (UsedRefreshToken.createdAt entry + UsedRefreshToken.expires));
      [reflexivity | lia]. }
  split; [exact Hkept |].
  rewrite (run_refresh_grace env later T db decoded stored entry Hv Hfind Hne Hledger).
  rewrite (run_refresh_grace env later T (ttlMonitor sweep db) decoded stored entry
             Hv Hfind Hne Hkept).
  reflexivity.
Qed.

Lemma grace_window_survives_early_ttl_pass_witness :
  UsedRefreshToken_findOne (Sample.aliceRefresh 1000) (ttlMonitor 1014999 Sample.db2)
  = Some Sample.entry2
  /\ snd (run (refreshAccessToken Sample.env0 1014999 (Some (Sample.aliceRefresh 1000)))
            (ttlMonitor 1014999 Sample.db2))
     = snd (run (refreshAccessToken Sample.env0 1014999 (Some (Sample.aliceRefresh 1000)))
              Sample.db2).
Proof.
  apply (grace_window_survives_early_ttl_pass Sample.env0 1014999 1014999
           (Sample.aliceRefresh 1000) Sample.db2 (jwt.RefreshClaims 1)
           Sample.alice2 Sample.entry2).
  - reflexivity.
  - reflexivity.
  - discriminate.
  - reflexivity.
  - vm_compute. reflexivity.
Defined.

(** ** What the requests may change, in any interleaving *)

Lemma keeps_bind (R : DB -> DB -> Prop) {A B : Type} (m : Prog A) (f : A -> Prog B) :
  keeps R m -> (forall a, keeps R (f a)) -> keeps R (bind m f).
Proof.
  intros Hm Hf. induction Hm as [a | e | X op k Hop Hk IH]; simpl.
  - apply Hf.
  - constructor.
  - constructor; [exact Hop | exact IH].
Qed.

Lemma keeps_tryCatch (R : DB -> DB -> Prop) {A : Type} (m : Prog A) (h : Exn -> Prog A) :
  keeps R m -> (forall e, keeps R (h e)) -> keeps R (tryCatch m h).
Proof.
  intros Hm Hh. induction Hm as [a | e | X op k Hop Hk IH]; simpl.
  - constructor.
  - apply Hh.
  - constructor; [exact Hop | exact IH].
Qed.

Lemma keeps_query (R : DB -> DB -> Prop) {X : Type} (q : DB -> X) :
  (forall db, R db db) -> keeps R (query q).
Proof. intros Hrefl. constructor; [intros db; apply Hrefl | intros x; constructor]. Qed.

Lemma keeps_command (R : DB -> DB -> Prop) {X : Type} (c : DB -> DB * X) :
  (forall db, R db (fst (c db))) -> keeps R (command c).
Proof. intros H. constructor; [exact H | intros x; constructor]. Qed.

Lemma keeps_lift (R : DB -> DB -> Prop) {A : Type} (r : Exn + A) : keeps R (lift r).
Proof. destruct r; constructor. Qed.

Lemma keeps_step (R : DB -> DB -> Prop) {A : Type} (p : Prog A) (db : DB) :
  (forall d, R d d) -> keeps R p ->
  R db (fst (step p db)) /\ keeps R (snd (step p db)).
Proof.
  intros Hrefl Hp. destruct Hp as [a | e | X op k Hop Hk]; simpl.
  - split; [apply Hrefl | constructor].
  - split; [apply Hrefl | constructor].
  - specialize (Hop db). destruct (op db) as [db' x]. split; [exact Hop | apply Hk].
Qed.

Lemma keeps_run (R : DB -> DB -> Prop) {A : Type} (p : Prog A) :
  (forall d, R d d) -> (forall a b c, R a b -> R b c -> R a c) ->
  keeps R p -> forall db, R db (fst (run p db)).
Proof.
  intros Hrefl Htrans Hp. induction Hp as [a | e | X op k Hop Hk IH]; intros db; simpl.
  - apply Hrefl.
  - apply Hrefl.
  - specialize (Hop db). destruct (op db) as [db' x]. simpl in Hop.
    eapply Htrans; [exact Hop | apply IH].
Qed.

Lemma keeps_interleave (R : DB -> DB -> Prop) {A B : Type} (schedule : list bool) :
  (forall d, R d d) -> (forall a b c, R a b -> R b c -> R a c) ->
  forall (p : Prog A) (q : Prog B) (db : DB),
    keeps R p -> keeps R q -> R db (fst (interleave schedule p q db)).
Proof.
  intros Hrefl Htrans. induction schedule as [| b rest IH]; intros p q db Hp Hq.
  - apply Hrefl.
  - destruct b; simpl.
    + destruct (keeps_step R p db Hrefl Hp) as [H1 H2].
      destruct (step p db) as [db' p']. simpl in H1, H2.
      eapply Htrans; [exact H1 | apply IH; assumption].
    + destruct (keeps_step R q db Hrefl Hq) as [H1 H2].
      destruct (step q db) as [db' q']. simpl in H1, H2.
      eapply Htrans; [exact H1 | apply IH; assumption].
Qed.

Lemma onlySessionsChanged_refl (db : DB) : onlySessionsChanged db db.
Proof.
  split; [reflexivity |]. split; [reflexivity |].
  exists []. symmetry. apply app_nil_r.
Qed.

Lemma onlySessionsChanged_trans (a b c : DB) :
  onlySessionsChanged a b -> onlySessionsChanged b c -> onlySessionsChanged a c.
Proof.
  intros (H1 & H2 & l1 & H3) (K1 & K2 & l2 & K3).
  split; [congruence |]. split; [congruence |].
  exists (l1 ++ l2). rewrite K3, H3. symmetry. apply app_assoc.
Qed.

Lemma accountOf_assign (u : User.t) (a : Assignment) : accountOf (assign u a) = accountOf u.
Proof. destruct a; reflexivity. Qed.

Lemma accountOf_assignAll (l : list Assignment) (u : User.t) :
  accountOf (assignAll u l) = accountOf u.
Proof.
  unfold assignAll. revert u.
  induction l as [| a l IH]; intros u; simpl; [reflexivity |].
  rewrite IH. apply accountOf_assign.
Qed.

Lemma map_updateFirst {A B : Type} (g : A -> B) (p : A -> bool) (f : A -> A) (l : list A) :
  (forall x, g (f x) = g x) -> List.map g (updateFirst p f l) = List.map g l.
Proof.
  intros H. induction l as [| x r IH]; simpl; [reflexivity |].
  destruct (p x); simpl; [rewrite H | rewrite IH]; reflexivity.
Qed.

Lemma save_onlySessionsChanged (doc : Document) (db : DB) :
  onlySessionsChanged db (fst (save doc db)).
Proof.
  unfold save. destruct (List.find _ (users db)); simpl.
  - split; [| split; [reflexivity | exists []; symmetry; apply app_nil_r]].
    apply map_updateFirst. intros x. apply accountOf_assignAll.
  - apply onlySessionsChanged_refl.
Qed.

Lemma keeps_generateAccessAndRefereshTokens (env : Env) (now : Z) (doc : Document) :
  keeps onlySessionsChanged (generateAccessAndRefereshTokens env now doc).
Proof.
  unfold generateAccessAndRefereshTokens.
  apply keeps_tryCatch; [| intros e; constructor].
  apply keeps_bind.
  { destruct (User.planId (this doc)) as [| oid | p]; [constructor | | constructor].
    apply keeps_bind; [apply keeps_query, onlySessionsChanged_refl | intros; constructor]. }
  intros doc1. apply keeps_bind.
  { unfold checkAndUpdateExpiredStatus. destruct (subscriptionExpired now (this doc1)).
    - apply keeps_bind; [apply keeps_query, onlySessionsChanged_refl | intros; constructor].
    - constructor. }
  intros [doc2 updated]. apply keeps_bind; [apply keeps_lift |].
  intros accessToken. apply keeps_bind; [apply keeps_lift |].
  intros refreshToken. cbv zeta. apply keeps_bind.
  { apply keeps_command. intros db. apply save_onlySessionsChanged. }
  intros saved. apply keeps_bind; [apply keeps_lift | intros; constructor].
Qed.

Lemma keeps_loginUser (env : Env) (bcrypt_compare : string -> string -> bool)
    (now : Z) (identifier password : option string) :
  keeps onlySessionsChanged (loginUser env bcrypt_compare now identifier password).
Proof.
  unfold loginUser. apply keeps_tryCatch; [| intros e; constructor].
  destruct (negb (JsString.truthy identifier) || negb (JsString.truthy password));
    [constructor |].
  apply keeps_bind; [apply keeps_query, onlySessionsChanged_refl |].
  intros [u |]; [| constructor].
  destruct (negb (isPasswordCorrect bcrypt_compare u password)); [constructor |].
  apply keeps_bind; [apply keeps_generateAccessAndRefereshTokens |].
  intros [doc [accessToken refreshToken]]. constructor.
Qed.

Lemma keeps_logoutUser (userId : option Z) (body_refreshToken : option jwt.Token) :
  keeps onlySessionsChanged (logoutUser userId body_refreshToken).
Proof.
  unfold logoutUser. apply keeps_tryCatch; [| intros e; constructor].
  apply keeps_bind; [| intros; constructor].
  assert (Hunset : forall p db,
            onlySessionsChanged db
              (withUsers db (updateFirst p (fun u => assign u (refreshToken_set None))
                               (users db)))).
  { intros p db. split; [| split; [reflexivity | exists []; symmetry; apply app_nil_r]].
    apply map_updateFirst. intros x. apply accountOf_assign. }
  destruct userId as [id |].
  - apply keeps_command. intros db. apply Hunset.
  - destruct body_refreshToken as [t |]; [| constructor].
    destruct (jwt.truthy (Some t)); [| constructor].
    apply keeps_command. intros db. apply Hunset.
Qed.

Lemma keeps_refreshAccessToken (env : Env) (now : Z) (body_refreshToken : option jwt.Token) :
  keeps onlySessionsChanged (refreshAccessToken env now body_refreshToken).
Proof.
  unfold refreshAccessToken. destruct body_refreshToken as [T |]; [| constructor].
  destruct (negb (jwt.truthy (Some T))); [constructor |].
  apply keeps_tryCatch; [| intros e; constructor].
  apply keeps_bind; [apply keeps_lift |].
  intros decoded. apply keeps_bind; [apply keeps_query, onlySessionsChanged_refl |].
  intros [u |]; [| constructor].
  destruct (bool_decide (User.refreshToken u = Some T)).
  - apply keeps_bind; [apply keeps_generateAccessAndRefereshTokens |].
    intros [doc [accessToken newRefreshToken]].
    apply keeps_bind; [| intros; constructor].
    apply keeps_command. intros db. simpl.
    split; [reflexivity |]. split; [reflexivity |]. eexists. reflexivity.
  - apply keeps_bind; [apply keeps_query, onlySessionsChanged_refl |].
    intros [entry |]; constructor.
Qed.

(** X10.  Login, logout and refresh, alone or two at a time in any
    interleaving of their database calls, never change an account (the
    [_id], username, email, password hash and role of every user, in
    order), never change the plans, and only append to the ledger. *)
Theorem session_requests_only_change_sessions
    (env : Env) (bcrypt_compare : string -> string -> bool)
    (bcrypt_hash : string -> string) (validationMessage : list string -> string)
    (a b : Request) (schedule : list bool) (db : DB) :
  sessionRequest a -> sessionRequest b ->
  onlySessionsChanged db
    (fst (run (handle env bcrypt_compare bcrypt_hash validationMessage a) db))
  /\ onlySessionsChanged db
       (fst (interleave schedule
               (handle env bcrypt_compare bcrypt_hash validationMessage a)
               (handle env bcrypt_compare bcrypt_hash validationMessage b) db)).
Proof.
  intros Ha Hb.
  assert (K : forall r, sessionRequest r ->
                keeps onlySessionsChanged
                  (handle env bcrypt_compare bcrypt_hash validationMessage r)).
  { intros [i u e p | now i p | uid t | now t] Hr; simpl in *.
    - contradiction.
    - apply keeps_loginUser.
    - apply keeps_logoutUser.
    - apply keeps_refreshAccessToken. }
  split.
  - apply keeps_run;
      [apply onlySessionsChanged_refl | apply onlySessionsChanged_trans | apply K, Ha].
  - apply keeps_interleave;
      [apply onlySessionsChanged_refl | apply onlySessionsChanged_trans
       | apply K, Ha | apply K, Hb].
Qed.

Lemma session_requests_only_change_sessions_witness :
  onlySessionsChanged Sample.db1
    (fst (interleave [true; false; true; true; false; false]
            (refreshAccessToken Sample.env0 1500000 (Some (Sample.aliceRefresh 1000)))
            (loginUser Sample.env0 Sample.bcrypt0 1501000
               (Some "bob"%string) (Some "hunter2#A"%string))
            Sample.db1)).
Proof.
  apply (session_requests_only_change_sessions Sample.env0 Sample.bcrypt0
           (fun p => p) (fun _ => EmptyString)
           (Refresh 1500000 (Some (Sample.aliceRefresh 1000)))
           (Login 1501000 (Some "bob"%string) (Some "hunter2#A"%string))
           [true; false; true; true; false; false] Sample.db1 I I).
Defined.

(** ** The schema setters *)

Lemma isSpace_toLowerCaseChar (c : ascii) :
  JsString.isSpace (JsString.toLowerCaseChar c) = JsString.isSpace c.
Proof. destruct c as [[] [] [] [] [] [] [] []]; reflexivity. Qed.

Lemma toLowerCaseChar_idem (c : ascii) :
  JsString.toLowerCaseChar (JsString.toLowerCaseChar c) = JsString.toLowerCaseChar c.
Proof. destruct c as [[] [] [] [] [] [] [] []]; reflexivity. Qed.

Lemma toLowerCase_idem (s : string) :
  JsString.toLowerCase (JsString.toLowerCase s) = JsString.toLowerCase s.
Proof.
  induction s as [| c r IH]; simpl; [reflexivity |].
  rewrite toLowerCaseChar_idem, IH. reflexivity.
Qed.

Lemma trimStart_toLowerCase (s : string) :
  JsString.trimStart (JsString.toLowerCase s) = JsString.toLowerCase (JsString.trimStart s).
Proof.
  induction s as [| c r IH]; simpl; [reflexivity |].
  rewrite isSpace_toLowerCaseChar. destruct (JsString.isSpace c); [exact IH | reflexivity].
Qed.

Lemma trimEnd_toLowerCase (s : string) :
  JsString.trimEnd (JsString.toLowerCase s) = JsString.toLowerCase (JsString.trimEnd s).
Proof.
  induction s as [| c r IH]; simpl; [reflexivity |].
  rewrite IH, isSpace_toLowerCaseChar.
  destruct (JsString.trimEnd r); simpl; [| reflexivity].
  destruct (JsString.isSpace c); reflexivity.
Qed.

Lemma trim_toLowerCase (s : string) :
  JsString.trim (JsString.toLowerCase s) = JsString.toLowerCase (JsString.trim s).
Proof. unfold JsString.trim. rewrite trimStart_toLowerCase. apply trimEnd_toLowerCase. Qed.

Lemma trimEnd_idem (s : string) :
  JsString.trimEnd (JsString.trimEnd s) = JsString.trimEnd s.
Proof.
  induction s as [| c r IH]; simpl; [reflexivity |].
  destruct (JsString.trimEnd r) as [| d e] eqn:E.
  - destruct (JsString.isSpace c) eqn:Ec; simpl; [reflexivity |].
    rewrite Ec. reflexivity.
  - change (JsString.trimEnd (String c (String d e)))
      with (match JsString.trimEnd (String d e) with
            | EmptyString =>
                if JsString.isSpace c then EmptyString else String c EmptyString
            | r' => String c r'
            end).
    rewrite IH. reflexivity.
Qed.

Lemma trimStart_head (s : string) :
  match JsString.trimStart s with
  | EmptyString => True
  | String c _ => JsString.isSpace c = false
  end.
Proof.
  induction s as [| c r IH]; simpl; [exact I |].
  destruct (JsString.isSpace c) eqn:E; [exact IH | exact E].
Qed.

Lemma trimStart_trimEnd_of_trimmed (t : string) :
  match t with
  | EmptyString => True
  | String c _ => JsString.isSpace c = false
  end ->
  JsString.trimStart (JsString.trimEnd t) = JsString.trimEnd t.
Proof.
  destruct t as [| c r]; simpl; [reflexivity |]. intros Hc.
  destruct (JsString.trimEnd r); simpl; rewrite Hc; simpl; try rewrite Hc; reflexivity.
Qed.

Lemma trim_idem (s : string) : JsString.trim (JsString.trim s) = JsString.trim s.
Proof.
  unfold JsString.trim.
  rewrite trimStart_trimEnd_of_trimmed by apply trimStart_head.
  apply trimEnd_idem.
Qed.

Lemma castUsername_idem (s : string) : castUsername (castUsername s) = castUsername s.
Proof. apply trim_idem. Qed.

Lemma castEmail_idem (s : string) : castEmail (castEmail s) = castEmail s.
Proof.
  unfold castEmail.
  rewrite <- (trim_toLowerCase (JsString.toLowerCase s)), toLowerCase_idem.
  apply trim_idem.
Qed.

(** ** Registration *)

Lemma keeps_weaken (R R' : DB -> DB -> Prop) {A : Type} (p : Prog A) :
  (forall a b, R a b -> R' a b) -> keeps R p -> keeps R' p.
Proof.
  intros HR Hp. induction Hp as [a | e | X op k Hop Hk IH]; constructor.
  - intros db. apply HR, Hop.
  - exact IH.
Qed.

Lemma onlySessionsChanged_wellKeyed (db db' : DB) :
  onlySessionsChanged db db' -> wellKeyed db -> wellKeyed db'.
Proof.
  intros [Hacc _] (Hid & Hname & Hemail & Hcast).
  assert (Hmap : forall (B : Type) (g : Z * string * string * option string * Role -> B),
             List.map (fun u => g (accountOf u)) (users db')
             = List.map (fun u => g (accountOf u)) (users db)).
  { intros B g. rewrite <- !(List.map_map accountOf g), Hacc. reflexivity. }
  repeat split.
  - exact (eq_ind_r (fun l => List.NoDup l) Hid
             (Hmap Z (fun a => fst (fst (fst (fst a)))))).
  - exact (eq_ind_r (fun l => List.NoDup l) Hname
             (Hmap string (fun a => snd (fst (fst (fst a)))))).
  - exact (eq_ind_r (fun l => List.NoDup l) Hemail
             (Hmap string (fun a => snd (fst (fst a))))).
  - pose (Q := fun a : Z * string * string * option string * Role =>
                 snd (fst (fst (fst a))) = castUsername (snd (fst (fst (fst a))))
                 /\ snd (fst (fst a)) = castEmail (snd (fst (fst a)))).
    apply (proj1 (List.Forall_map accountOf Q (users db'))).
    rewrite Hacc. apply (proj2 (List.Forall_map accountOf Q (users db))). exact Hcast.
Qed.

Lemma NoDup_snoc {A : Type} (l : list A) (x : A) :
  List.NoDup l -> ~ In x l -> List.NoDup (l ++ [x]).
Proof.
  induction l as [| y l IH]; simpl; intros Hnd Hx.
  - constructor; [intros [] | constructor].
  - apply List.NoDup_cons_iff in Hnd. destruct Hnd as [Hy Hnd].
    constructor.
    + rewrite in_app_iff. simpl. intros [H | [H | []]]; [exact (Hy H) |].
      apply Hx. left. symmetry. exact H.
    + apply IH; [exact Hnd |]. intros H. apply Hx. right. exact H.
Qed.

Lemma collides_none (doc : User.t) (l : list User.t) :
  existsb (collides doc) l = false ->
  ~ In (User._id doc) (List.map User._id l)
  /\ ~ In (User.username doc) (List.map User.username l)
  /\ ~ In (User.email doc) (List.map User.email l).
Proof.
  induction l as [| u l IH]; simpl; intros H.
  - repeat split; intros [].
  - apply orb_false_iff in H. destruct H as [Hu Hl].
    unfold collides in Hu.
    apply orb_false_iff in Hu. destruct Hu as [Hu He].
    apply orb_false_iff in Hu. destruct Hu as [Hi Hn].
    apply bool_decide_eq_false in Hi, Hn, He.
    destruct (IH Hl) as (H1 & H2 & H3).
    repeat split; intros [E | E]; auto.
Qed.

Lemma User_saveNew_wellKeyed (bcrypt_hash : string -> string)
    (_id : Z) (username email password : string) (db : DB) :
  wellKeyed db ->
  wellKeyed (fst (User_saveNew bcrypt_hash (newUser _id username email password) db)).
Proof.
  intros Hwk. unfold User_saveNew.
  destruct (User_validate (newUser _id username email password)); [| exact Hwk].
  destruct (existsb _ (users db)) eqn:Hex; [exact Hwk |].
  apply collides_none in Hex. destruct Hex as (H1 & H2 & H3).
  destruct Hwk as (Hid & Hname & Hemail & Hcast).
  unfold wellKeyed. cbn [fst withUsers users].
  rewrite !List.map_app. cbn [List.map].
  repeat split.
  - apply NoDup_snoc; assumption.
  - apply NoDup_snoc; assumption.
  - apply NoDup_snoc; assumption.
  - apply Forall_app. split; [exact Hcast |].
    constructor; [| constructor].
    cbn [hashPassword newUser User.username User.email].
    rewrite castUsername_idem, castEmail_idem. split; reflexivity.
Qed.

Lemma keeps_registerUser (bcrypt_hash : string -> string)
    (validationMessage : list string -> string)
    (_id : Z) (username email password : option string) :
  keeps (fun db db' => wellKeyed db -> wellKeyed db')
    (registerUser bcrypt_hash validationMessage _id username email password).
Proof.
  unfold registerUser.
  destruct username as [u |], email as [e |], password as [p |]; try constructor.
  destruct (negb _ || negb _ || negb _); [constructor |].
  apply keeps_bind; [apply keeps_query; auto |].
  intros [existing |]; [constructor |].
  apply keeps_bind.
  - apply keeps_command. intros db. apply User_saveNew_wellKeyed.
  - intros [| messages |]; constructor.
Qed.

Lemma keeps_handle_wellKeyed (env : Env) (bcrypt_compare : string -> string -> bool)
    (bcrypt_hash : string -> string) (validationMessage : list string -> string)
    (r : Request) :
  keeps (fun db db' => wellKeyed db -> wellKeyed db')
    (handle env bcrypt_compare bcrypt_hash validationMessage r).
Proof.
  destruct r as [i u e p | now i p | i t | now t]; cbn [handle].
  - apply keeps_registerUser.
  - eapply keeps_weaken; [apply onlySessionsChanged_wellKeyed | apply keeps_loginUser].
  - eapply keeps_weaken; [apply onlySessionsChanged_wellKeyed | apply keeps_logoutUser].
  - eapply keeps_weaken; [apply onlySessionsChanged_wellKeyed | apply keeps_refreshAccessToken].
Qed.

(** X11.  The unique keys of the accounts survive every request.  On a user
    collection where ids, usernames and emails are unique and stored as the
    schema setters leave them, any request of the user controller
    (registration, login, logout, refresh) leaves such a collection, and so
    do any two of them served concurrently, whatever the order in which
    their database calls are served: the collection is never left with two
    accounts of the same id, username or email. *)
Theorem requests_keep_accounts_unique
    (env : Env) (bcrypt_compare : string -> string -> bool)
    (bcrypt_hash : string -> string) (validationMessage : list string -> string)
    (a b : Request) (schedule : list bool) (db : DB) :
  wellKeyed db ->
  wellKeyed (fst (run (handle env bcrypt_compare bcrypt_hash validationMessage a) db))
  /\ wellKeyed
       (fst (interleave schedule
               (handle env bcrypt_compare bcrypt_hash validationMessage a)
               (handle env bcrypt_compare bcrypt_hash validationMessage b) db)).
Proof.
  intros Hwk. split.
  - revert Hwk.
    apply (keeps_run (fun db db' => wellKeyed db -> wellKeyed db')); auto.
    apply keeps_handle_wellKeyed.
  - revert Hwk.
    apply (keeps_interleave (fun db db' => wellKeyed db -> wellKeyed db')); auto;
      apply keeps_handle_wellKeyed.
Qed.

Lemma existsb_collides_fresh (doc : User.t) (l : list User.t) :
  ~ In (User._id doc) (List.map User._id l) ->
  List.find (fun u => bool_decide (User.username u = User.username doc)
                      || bool_decide (User.email u = User.email doc)) l = None ->
  existsb (collides doc) l = false.
Proof.
  induction l as [| u l IH]; cbn [existsb List.find List.map In];
    intros Hid Hfind; [reflexivity |].
  destruct (bool_decide (User.username u = User.username doc)
            || bool_decide (User.email u = User.email doc)) eqn:E; [discriminate |].
  rewrite IH by tauto.
  rewrite orb_false_r. unfold collides. rewrite <- orb_assoc, E.
  rewrite bool_decide_eq_false_2 by (intros H; apply Hid; left; exact H).
  reflexivity.
Qed.

Lemma run_registerUser_created (bcrypt_hash : string -> string)
    (validationMessage : list string -> string)
    (_id : Z) (username email password : string) (db : DB) :
  username <> EmptyString -> email <> EmptyString -> password <> EmptyString ->
  User_validate (newUser _id username email password) = [] ->
  ~ In _id (List.map User._id (users db)) ->
  List.find (matchesRegistration username email) (users db) = None ->
  run (registerUser bcrypt_hash validationMessage _id
         (Some username) (Some email) (Some password)) db
  = (withUsers db
       (users db ++ [hashPassword bcrypt_hash (newUser _id username email password)]),
     inr (Res.json 201 "User registered successfully.")).
Proof.
  intros Hu He Hp Hvalid Hid Hfind.
  unfold registerUser, JsString.truthy.
  rewrite !bool_decide_eq_false_2 by assumption. cbn [negb orb].
  rewrite run_bind, run_query, Hfind.
  rewrite run_bind, run_command.
  unfold User_saveNew. rewrite Hvalid.
  rewrite existsb_collides_fresh; [reflexivity | exact Hid | exact Hfind].
Qed.

(** X12.  Registration and login round trip.  A registration with a
    username, an email and a password that pass the schema validation, on a
    collection with unique ids where no account has that username or email,
    answers 201 and stores the account; a login that follows with the same
    password and an identifier that the schema setters map to the stored
    username or email (the email in another letter case is one) answers 200
    with a refresh token of the new account, which becomes its current
    pointer.  It is assumed that [bcrypt.compare] accepts a password
    against its own hash, and that no older account matches the identifier
    (the lookup returns the first match). *)
Theorem register_then_login
    (env : Env) (bcrypt_compare : string -> string -> bool)
    (bcrypt_hash : string -> string) (validationMessage : list string -> string)
    (_id now : Z) (username email password identifier : string) (db : DB) :
  ACCESS_TOKEN_SECRET env <> EmptyString ->
  REFRESH_TOKEN_SECRET env <> EmptyString ->
  List.NoDup (List.map User._id (users db)) ->
  username <> EmptyString -> email <> EmptyString -> password <> EmptyString ->
  User_validate (newUser _id username email password) = [] ->
  ~ In _id (List.map User._id (users db)) ->
  List.find (matchesRegistration username email) (users db) = None ->
  bcrypt_hash password <> EmptyString ->
  bcrypt_compare password (bcrypt_hash password) = true ->
  identifier <> EmptyString ->
  matchesIdentifier identifier (newUser _id username email password) = true ->
  List.find (matchesIdentifier identifier) (users db) = None ->
  exists db1 db2 r,
    run (registerUser bcrypt_hash validationMessage _id
           (Some username) (Some email) (Some password)) db
    = (db1, inr (Res.json 201 "User registered successfully."))
    /\ run (loginUser env bcrypt_compare now (Some identifier) (Some password)) db1
       = (db2, inr r)
    /\ Res.status r = 200
    /\ Res.refreshToken r
       = Some (jwt.sign now (jwt.RefreshClaims _id)
                 (REFRESH_TOKEN_SECRET env) (REFRESH_TOKEN_EXPIRY env))
    /\ currentRefreshToken _id db2 = Res.refreshToken r.
Proof.
  intros Ha Hr Hnd Hu He Hp Hvalid Hid Hfind Hhash Hcmp Hi Hmatch Hnone.
  pose (hashed := hashPassword bcrypt_hash (newUser _id username email password)).
  pose (db1 := withUsers db (users db ++ [hashed])).
  assert (Hnd1 : List.NoDup (List.map User._id (users db1))).
  { unfold db1. cbn [users withUsers]. rewrite List.map_app. apply NoDup_snoc; assumption. }
  assert (Hlook : User_findOne_identifier identifier db1 = Some hashed).
  { unfold User_findOne_identifier, db1. cbn [users withUsers plans].
    rewrite (find_app_last _ _ hashed Hnone Hmatch). reflexivity. }
  assert (Hok : isPasswordCorrect bcrypt_compare hashed (Some password) = true).
  { unfold isPasswordCorrect, hashed. cbn [hashPassword newUser User.password_hash fmap option_fmap option_map].
    unfold JsString.truthy. rewrite !bool_decide_eq_false_2 by assumption.
    exact Hcmp. }
  destruct (run_loginUser_success env bcrypt_compare now identifier password db1 hashed
              Ha Hr Hnd1 Hi Hp Hlook Hok)
    as (db2 & r & accessToken & Hrun & Hstatus & _ & Htok & Hcur & _).
  exists db1, db2, r. split.
  { apply run_registerUser_created; assumption. }
  split; [exact Hrun |]. split; [exact Hstatus |].
  split; [exact Htok |]. rewrite Htok. exact Hcur.
Qed.

Lemma User_validate_nil (u : User.t) :
  User_validate u = [] ->
  User.username u <> EmptyString /\ emailRegexTest (User.email u) = true.
Proof.
  unfold User_validate. intros H.
  apply app_eq_nil in H. destruct H as [H1 H2].
  apply app_eq_nil in H2. destruct H2 as [H2 _].
  split.
  - destruct (bool_decide (User.username u = EmptyString)) eqn:E; [discriminate |].
    apply bool_decide_eq_false in E. exact E.
  - destruct (bool_decide (User.email u = EmptyString)); [discriminate |].
    destruct (emailRegexTest (User.email u)); [reflexivity | discriminate].
Qed.

Lemma onlySessionsChanged_validAccounts (db db' : DB) :
  onlySessionsChanged db db' -> validAccounts db -> validAccounts db'.
Proof.
  intros [Hacc _] Hv. unfold validAccounts in *.
  pose (Q := fun a : Z * string * string * option string * Role =>
               snd (fst (fst (fst a))) <> EmptyString
               /\ emailRegexTest (snd (fst (fst a))) = true).
  apply (proj1 (List.Forall_map accountOf Q (users db'))).
  rewrite Hacc. apply (proj2 (List.Forall_map accountOf Q (users db))). exact Hv.
Qed.

Lemma keeps_registerUser_valid (bcrypt_hash : string -> string)
    (validationMessage : list string -> string)
    (_id : Z) (username email password : option string) :
  keeps (fun db db' => validAccounts db -> validAccounts db')
    (registerUser bcrypt_hash validationMessage _id username email password).
Proof.
  unfold registerUser.
  destruct username as [u |], email as [e |], password as [p |]; try constructor.
  destruct (negb _ || negb _ || negb _); [constructor |].
  apply keeps_bind; [apply keeps_query; auto |].
  intros [existing |]; [constructor |].
  apply keeps_bind.
  - apply keeps_command. intros db Hv. unfold User_saveNew.
    destruct (User_validate (newUser _id u e p)) eqn:Hvalid; [| exact Hv].
    destruct (existsb _ (users db)); [exact Hv |].
    unfold validAccounts. cbn [fst withUsers users].
    apply Forall_app. split; [exact Hv |].
    constructor; [| constructor].
    exact (User_validate_nil _ Hvalid).
  - intros [| messages |]; constructor.
Qed.

Lemma keeps_handle_valid (env : Env) (bcrypt_compare : string -> string -> bool)
    (bcrypt_hash : string -> string) (validationMessage : list string -> string)
    (r : Request) :
  keeps (fun db db' => validAccounts db -> validAccounts db')
    (handle env bcrypt_compare bcrypt_hash validationMessage r).
Proof.
  destruct r as [i u e p | now i p | i t | now t]; cbn [handle].
  - apply keeps_registerUser_valid.
  - eapply keeps_weaken; [apply onlySessionsChanged_validAccounts | apply keeps_loginUser].
  - eapply keeps_weaken; [apply onlySessionsChanged_validAccounts | apply keeps_logoutUser].
  - eapply keeps_weaken;
      [apply onlySessionsChanged_validAccounts | apply keeps_refreshAccessToken].
Qed.

(** X13.  The handler [registerUser] refuses duplicates by its pre-check.
    A registration whose username or email, after the schema setters
    (trimmed; the email also lower-cased), is the username or the email of
    a stored account is refused by the pre-check: the answer is 400
    'Username or email already exists.' and the store is unchanged.  An
    email that differs from a stored one in letter case or in surrounding
    blanks only is a duplicate. *)
Theorem register_duplicate_is_400
    (bcrypt_hash : string -> string) (validationMessage : list string -> string)
    (_id : Z) (username email password : string) (db : DB) (u : User.t) :
  username <> EmptyString -> email <> EmptyString -> password <> EmptyString ->
  In u (users db) ->
  User.username u = castUsername username \/ User.email u = castEmail email ->
  run (registerUser bcrypt_hash validationMessage _id
         (Some username) (Some email) (Some password)) db
  = (db, inr (Res.json 400 "Username or email already exists.")).
Proof.
  intros Hu He Hp Hin Hdup.
  unfold registerUser, JsString.truthy.
  rewrite !bool_decide_eq_false_2 by assumption. cbn [negb orb].
  rewrite run_bind, run_query.
  destruct (List.find (matchesRegistration username email) (users db)) as [v |] eqn:Hfind;
    [reflexivity |].
  exfalso.
  pose proof (List.find_none _ _ Hfind u Hin) as Hno.
  unfold matchesRegistration in Hno.
  apply orb_false_iff in Hno. destruct Hno as [H1 H2].
  apply bool_decide_eq_false in H1, H2. tauto.
Qed.

(** X14.  No request stores an account without a username or with an email
    that does not match the pattern of the schema: on a collection whose
    accounts all have a non-empty username and an email matching
    [/\S+@\S+\.\S+/], every request of the user controller, alone or
    interleaved with another one, leaves such a collection. *)
Theorem requests_store_only_valid_accounts
    (env : Env) (bcrypt_compare : string -> string -> bool)
    (bcrypt_hash : string -> string) (validationMessage : list string -> string)
    (a b : Request) (schedule : list bool) (db : DB) :
  validAccounts db ->
  validAccounts (fst (run (handle env bcrypt_compare bcrypt_hash validationMessage a) db))
  /\ validAccounts
       (fst (interleave schedule
               (handle env bcrypt_compare bcrypt_hash validationMessage a)
               (handle env bcrypt_compare bcrypt_hash validationMessage b) db)).
Proof.
  intros Hv. split.
  - revert Hv.
    apply (keeps_run (fun db db' => validAccounts db -> validAccounts db')); auto.
    apply keeps_handle_valid.
  - revert Hv.
    apply (keeps_interleave (fun db db' => validAccounts db -> validAccounts db')); auto;
      apply keeps_handle_valid.
Qed.

(** X15.  The handler [registerUser], given a body that passes its
    presence check and its pre-check but fails the schema validation (a
    username of blanks only, an email that does not match the pattern),
    answers 500 'Error registering user.' with the validation message, not
    400, and stores nothing.  The statement is about the handler; the
    validation rules that the route runs before it are not modelled. *)
Theorem register_invalid_is_500
    (bcrypt_hash : string -> string) (validationMessage : list string -> string)
    (_id : Z) (username email password : string) (db : DB) :
  username <> EmptyString -> email <> EmptyString -> password <> EmptyString ->
  List.find (matchesRegistration username email) (users db) = None ->
  User_validate (newUser _id username email password) <> [] ->
  exists r,
    run (registerUser bcrypt_hash validationMessage _id
           (Some username) (Some email) (Some password)) db = (db, inr r)
    /\ Res.status r = 500
    /\ Res.message r = "Error registering user."%string
    /\ Res.error r
       = Some (validationMessage (User_validate (newUser _id username email password))).
Proof.
  intros Hu He Hp Hfind Hinvalid.
  unfold registerUser, JsString.truthy.
  rewrite !bool_decide_eq_false_2 by assumption. cbn [negb orb].
  rewrite run_bind, run_query, Hfind.
  rewrite run_bind, run_command.
  unfold User_saveNew.
  destruct (User_validate (newUser _id username email password)) as [| m ms];
    [contradiction |].
  eexists. split; [reflexivity |]. repeat split.
Qed.

Lemma requests_keep_accounts_unique_witness :
  wellKeyed
    (fst (interleave [true; false; true; false]
            (registerUser (String.append "$2a$10$") (fun _ => EmptyString) 3
               (Some "Carol"%string) (Some " Carol@Example.com"%string)
               (Some "S3cret!pw"%string))
            (registerUser (String.append "$2a$10$") (fun _ => EmptyString) 4
               (Some "carol2"%string) (Some "carol@example.com"%string)
               (Some "0ther!pw"%string))
            Sample.db0)).
Proof.
  refine (proj2 (requests_keep_accounts_unique Sample.env0 Sample.bcrypt0
                   (String.append "$2a$10$") (fun _ => EmptyString)
                   (Register 3 (Some "Carol"%string) (Some " Carol@Example.com"%string)
                      (Some "S3cret!pw"%string))
                   (Register 4 (Some "carol2"%string) (Some "carol@example.com"%string)
                      (Some "0ther!pw"%string))
                   [true; false; true; false] Sample.db0 _)).
  unfold wellKeyed. cbn [Sample.db0 users List.map].
  repeat split.
  - repeat (constructor; [cbn; intuition discriminate |]). constructor.
  - repeat (constructor; [cbn; intuition discriminate |]). constructor.
  - repeat (constructor; [cbn; intuition discriminate |]). constructor.
  - repeat constructor.
Defined.

Lemma register_then_login_witness :
  exists db1 db2 r,
    run (registerUser (String.append "$2a$10$") (fun _ => EmptyString) 3
           (Some "Carol"%string) (Some " Carol@Example.com"%string)
           (Some "S3cret!pw"%string)) Sample.db0
    = (db1, inr (Res.json 201 "User registered successfully."))
    /\ run (loginUser Sample.env0 Sample.bcrypt0 2000000
              (Some "CAROL@example.com"%string) (Some "S3cret!pw"%string)) db1
       = (db2, inr r)
    /\ Res.status r = 200
    /\ Res.refreshToken r
       = Some (jwt.sign 2000000 (jwt.RefreshClaims 3)
                 (REFRESH_TOKEN_SECRET Sample.env0) (REFRESH_TOKEN_EXPIRY Sample.env0))
    /\ currentRefreshToken 3 db2 = Res.refreshToken r.
Proof.
  apply (register_then_login Sample.env0 Sample.bcrypt0
           (String.append "$2a$10$") (fun _ => EmptyString)
           3 2000000 "Carol" " Carol@Example.com" "S3cret!pw" "CAROL@example.com"
           Sample.db0).
  - discriminate.
  - discriminate.
  - cbn. repeat (constructor; [cbn; intuition discriminate |]). constructor.
  - discriminate.
  - discriminate.
  - discriminate.
  - vm_compute. reflexivity.
  - cbn. intuition discriminate.
  - vm_compute. reflexivity.
  - discriminate.
  - vm_compute. reflexivity.
  - discriminate.
  - vm_compute. reflexivity.
  - vm_compute. reflexivity.
Defined.

Lemma register_duplicate_is_400_witness :
  run (registerUser (String.append "$2a$10$") (fun _ => EmptyString) 3
         (Some "robert"%string) (Some " BOB@Example.com "%string)
         (Some "S3cret!pw"%string)) Sample.db0
  = (Sample.db0, inr (Res.json 400 "Username or email already exists.")).
Proof.
  apply (register_duplicate_is_400 (String.append "$2a$10$") (fun _ => EmptyString)
           3 "robert" " BOB@Example.com " "S3cret!pw" Sample.db0 Sample.bob).
  - discriminate.
  - discriminate.
  - discriminate.
  - cbn. right. left. reflexivity.
  - right. vm_compute. reflexivity.
Defined.

Lemma requests_store_only_valid_accounts_witness :
  validAccounts
    (fst (interleave [true; false; true; false]
            (registerUser (String.append "$2a$10$") (fun _ => EmptyString) 3
               (Some "Carol"%string) (Some " Carol@Example.com"%string)
               (Some "S3cret!pw"%string))
            (registerUser (String.append "$2a$10$") (fun _ => EmptyString) 4
               (Some "dave"%string) (Some "dave at example.com"%string)
               (Some "0ther!pw"%string))
            Sample.db0)).
Proof.
  refine (proj2 (requests_store_only_valid_accounts Sample.env0 Sample.bcrypt0
                   (String.append "$2a$10$") (fun _ => EmptyString)
                   (Register 3 (Some "Carol"%string) (Some " Carol@Example.com"%string)
                      (Some "S3cret!pw"%string))
                   (Register 4 (Some "dave"%string) (Some "dave at example.com"%string)
                      (Some "0ther!pw"%string))
                   [true; false; true; false] Sample.db0 _)).
  unfold validAccounts. cbn [Sample.db0 users].
  repeat constructor; try discriminate.
Defined.

Lemma register_invalid_is_500_witness :
  exists r,
    run (registerUser (String.append "$2a$10$") (fun l => String.concat ", " l) 4
           (Some "dave"%string) (Some "dave at example.com"%string)
           (Some "0ther!pw"%string)) Sample.db0 = (Sample.db0, inr r)
    /\ Res.status r = 500
    /\ Res.message r = "Error registering user."%string
    /\ Res.error r
       = Some (String.concat ", "
                 (User_validate (newUser 4 "dave" "dave at example.com" "0ther!pw"))).
Proof.
  apply (register_invalid_is_500 (String.append "$2a$10$") (fun l => String.concat ", " l)
           4 "dave" "dave at example.com" "0ther!pw" Sample.db0).
  - discriminate.
  - discriminate.
  - discriminate.
  - vm_compute. reflexivity.
  - vm_compute. discriminate.
Defined.

(** ** The protected routes *)

Lemma split_space_no_space (s : string) :
  ~ In " "%char (list_ascii_of_string s) -> split_space s = [s].
Proof.
  induction s as [| c r IH]; cbn [split_space list_ascii_of_string In]; intros H;
    [reflexivity |].
  destruct (Ascii.eqb c " ") eqn:E.
  - apply Ascii.eqb_eq in E. exfalso. apply H. left. exact E.
  - rewrite IH by tauto. reflexivity.
Qed.

Lemma planSlugOf_nonempty (u : User.t) : planSlugOf u <> EmptyString.
Proof.
  unfold planSlugOf. destruct (User.planId u) as [| oid | p].
  - discriminate.
  - destruct (bool_decide (User.subscriptionStatus u = free)); discriminate.
  - destruct (bool_decide (Plan.slug p = EmptyString)) eqn:E; cbn [negb].
    + destruct (bool_decide (User.subscriptionStatus u = free)); discriminate.
    + apply bool_decide_eq_false in E. exact E.
Qed.

Lemma authenticate_bearer (env : Env) (tokenOfString : string -> jwt.Token)
    (now : Z) (s : string) :
  s <> EmptyString -> ~ In " "%char (list_ascii_of_string s) ->
  authenticate env tokenOfString now (Some (String.append "Bearer " s)) =
  match jwt.verify now (tokenOfString s) (ACCESS_TOKEN_SECRET env) with
  | inr decoded => Next decoded
  | inl jwt.TokenExpiredError => Respond 401 "Unauthorized: Token has expired."
  | inl jwt.JsonWebTokenError => Respond 401 "Unauthorized: Invalid token."
  end.
Proof.
  intros Hs Hsp. unfold authenticate.
  change (String.append "Bearer " s)
    with (String "B" (String "e" (String "a" (String "r" (String "e"
            (String "r" (String " " s))))))).
  cbn [JsString.truthy String.prefix Ascii.eqb Bool.eqb].
  assert (Hne : String "B" (String "e" (String "a" (String "r" (String "e"
                  (String "r" (String " " s)))))) <> EmptyString) by discriminate.
  rewrite (bool_decide_eq_false_2 _ Hne).
  replace (String.prefix EmptyString s) with true by (destruct s; reflexivity).
  cbn [negb orb split_space Ascii.eqb Bool.eqb].
  rewrite (split_space_no_space s Hsp). cbn [nth_error].
  rewrite bool_decide_eq_false_2 by exact Hs. reflexivity.
Qed.

Lemma verify_minted_access_token (env : Env) (now now' : Z) (u : User.t) (t : jwt.Token) :
  ACCESS_TOKEN_SECRET env <> EmptyString ->
  generateAccessToken env now u = inr t ->
  jwt.verify now' t (ACCESS_TOKEN_SECRET env) =
  if jwt.clockTimestamp now' <? jwt.clockTimestamp now + ACCESS_TOKEN_EXPIRY env
  then inr (jwt.AccessClaims (User._id u) (User.role u) (planSlugOf u))
  else inl jwt.TokenExpiredError.
Proof.
  intros Ha Hgen. unfold generateAccessToken in Hgen.
  rewrite bool_decide_eq_false_2 in Hgen by exact Ha.
  injection Hgen as <-. unfold jwt.sign, jwt.verify.
  rewrite bool_decide_eq_false_2 by exact Ha.
  rewrite bool_decide_eq_true_2 by reflexivity.
  destruct (Z.leb_spec (jwt.clockTimestamp now + ACCESS_TOKEN_EXPIRY env)
              (jwt.clockTimestamp now'));
    destruct (Z.ltb_spec (jwt.clockTimestamp now')
                (jwt.clockTimestamp now + ACCESS_TOKEN_EXPIRY env));
    try lia; reflexivity.
Qed.

Lemma authenticate_minted
    (env : Env) (tokenOfString : string -> jwt.Token)
    (now now' : Z) (u : User.t) (s : string) :
  ACCESS_TOKEN_SECRET env <> EmptyString ->
  s <> EmptyString -> ~ In " "%char (list_ascii_of_string s) ->
  generateAccessToken env now u = inr (tokenOfString s) ->
  authenticate env tokenOfString now' (Some (String.append "Bearer " s)) =
  if jwt.clockTimestamp now' <? jwt.clockTimestamp now + ACCESS_TOKEN_EXPIRY env
  then Next (jwt.AccessClaims (User._id u) (User.role u) (planSlugOf u))
  else Respond 401 "Unauthorized: Token has expired.".
Proof.
  intros Ha Hs Hsp Hgen.
  rewrite authenticate_bearer by assumption.
  rewrite (verify_minted_access_token env now now' u _ Ha Hgen).
  destruct (jwt.clockTimestamp now' <? _); reflexivity.
Qed.

(** X16.  The lifetime and the payload of an access token.  A request whose
    [Authorization] header is [Bearer] followed by the access token that
    [generateAccessToken] signed for a user at second [iat] passes
    [authenticate] as long as the clock is before second
    [iat + ACCESS_TOKEN_EXPIRY], with [req.user] the id, the role and the
    plan slug the user had when the token was signed; from that second on
    the answer is 401 'Unauthorized: Token has expired.' *)
Theorem access_token_lifetime
    (env : Env) (tokenOfString : string -> jwt.Token)
    (now now' : Z) (u : User.t) (s : string) :
  ACCESS_TOKEN_SECRET env <> EmptyString ->
  s <> EmptyString -> ~ In " "%char (list_ascii_of_string s) ->
  generateAccessToken env now u = inr (tokenOfString s) ->
  authenticate env tokenOfString now' (Some (String.append "Bearer " s)) =
  if jwt.clockTimestamp now' <? jwt.clockTimestamp now + ACCESS_TOKEN_EXPIRY env
  then Next (jwt.AccessClaims (User._id u) (User.role u) (planSlugOf u))
  else Respond 401 "Unauthorized: Token has expired.".
Proof.
  intros Ha Hs Hsp Hgen. apply (authenticate_minted env tokenOfString now now' u s); assumption.
Qed.

(** X17.  A request that carries an unexpired access token signed by the
    server is decided by the policy alone: [authorize] never answers 401
    'User information missing' (the signed plan slug is never empty), it
    calls [next()] when the enforcer grants the role and the plan of the
    token the action mapped from the HTTP method on the resource, and
    answers 403 otherwise.  The role and the plan are those signed into the
    token, whatever the store holds by now. *)
Theorem access_token_decided_by_policy
    (env : Env) (tokenOfString : string -> jwt.Token)
    (enforce : Role -> string -> string -> string -> bool)
    (now now' : Z) (u : User.t) (s resource method : string) :
  ACCESS_TOKEN_SECRET env <> EmptyString ->
  s <> EmptyString -> ~ In " "%char (list_ascii_of_string s) ->
  generateAccessToken env now u = inr (tokenOfString s) ->
  jwt.clockTimestamp now' < jwt.clockTimestamp now + ACCESS_TOKEN_EXPIRY env ->
  exists decoded,
    authenticate env tokenOfString now' (Some (String.append "Bearer " s)) = Next decoded
    /\ authorize enforce resource None (Some decoded) method =
       if enforce (User.role u) (planSlugOf u) resource (mapMethodToAction method)
       then Next tt
       else Respond 403 "Forbidden: You do not have permission to perform this action.".
Proof.
  intros Ha Hs Hsp Hgen Hlive.
  exists (jwt.AccessClaims (User._id u) (User.role u) (planSlugOf u)). split.
  - rewrite authenticate_bearer by assumption.
    rewrite (verify_minted_access_token env now now' u _ Ha Hgen).
    destruct (Z.ltb_spec (jwt.clockTimestamp now')
                (jwt.clockTimestamp now + ACCESS_TOKEN_EXPIRY env)); [reflexivity | lia].
  - unfold authorize.
    rewrite bool_decide_eq_false_2 by apply planSlugOf_nonempty.
    reflexivity.
Qed.

(** X18.  The logout route sits behind [authenticate]: with an unexpired
    access token of the server it clears the refresh-token pointer of the
    principal the access token names (whatever token the body carries) and
    answers 200; once the access token has expired the route answers 401
    and the store, with the principal's refresh-token pointer, is left as
    it was. *)
Theorem logout_route_needs_live_access_token
    (env : Env) (tokenOfString : string -> jwt.Token)
    (now now' : Z) (u : User.t) (s : string)
    (body_refreshToken : option jwt.Token) (db : DB) :
  ACCESS_TOKEN_SECRET env <> EmptyString ->
  s <> EmptyString -> ~ In " "%char (list_ascii_of_string s) ->
  generateAccessToken env now u = inr (tokenOfString s) ->
  run (logoutRoute env tokenOfString now' (Some (String.append "Bearer " s))
         body_refreshToken) db =
  if jwt.clockTimestamp now' <? jwt.clockTimestamp now + ACCESS_TOKEN_EXPIRY env
  then (User_unsetRefreshToken_byId (User._id u) db,
        inr (Next (Res.json 200 "User logged out successfully.")))
  else (db, inr (Respond 401 "Unauthorized: Token has expired.")).
Proof.
  intros Ha Hs Hsp Hgen. unfold logoutRoute.
  rewrite (authenticate_minted env tokenOfString now now' u s Ha Hs Hsp Hgen).
  destruct (jwt.clockTimestamp now' <? _); reflexivity.
Qed.

Lemma access_token_lifetime_witness :
  authenticate Sample.env0
    (fun s => if String.eqb s "eyJhbGciOi.alice.sig" then Sample.aliceAccess 1000
              else jwt.Opaque s)
    1899999 (Some (String.append "Bearer " "eyJhbGciOi.alice.sig")) =
  if jwt.clockTimestamp 1899999
     <? jwt.clockTimestamp 1000000 + ACCESS_TOKEN_EXPIRY Sample.env0
  then Next (jwt.AccessClaims
               (User._id (populate (plans Sample.db0) Sample.alice))
               (User.role (populate (plans Sample.db0) Sample.alice))
               (planSlugOf (populate (plans Sample.db0) Sample.alice)))
  else Respond 401 "Unauthorized: Token has expired.".
Proof.
  apply (access_token_lifetime Sample.env0
           (fun s => if String.eqb s "eyJhbGciOi.alice.sig" then Sample.aliceAccess 1000
                     else jwt.Opaque s)
           1000000 1899999 (populate (plans Sample.db0) Sample.alice)
           "eyJhbGciOi.alice.sig").
  - discriminate.
  - discriminate.
  - cbn. intuition discriminate.
  - vm_compute. reflexivity.
Defined.

Lemma access_token_decided_by_policy_witness :
  exists decoded,
    authenticate Sample.env0
      (fun s => if String.eqb s "eyJhbGciOi.alice.sig" then Sample.aliceAccess 1000
                else jwt.Opaque s)
      1500000 (Some (String.append "Bearer " "eyJhbGciOi.alice.sig")) = Next decoded
    /\ authorize (fun role plan _ _ => bool_decide (role = admin)) "admin" None
         (Some decoded) "get" =
       if bool_decide (User.role (populate (plans Sample.db0) Sample.alice) = admin)
       then Next tt
       else Respond 403 "Forbidden: You do not have permission to perform this action.".
Proof.
  apply (access_token_decided_by_policy Sample.env0
           (fun s => if String.eqb s "eyJhbGciOi.alice.sig" then Sample.aliceAccess 1000
                     else jwt.Opaque s)
           (fun role plan _ _ => bool_decide (role = admin))
           1000000 1500000 (populate (plans Sample.db0) Sample.alice)
           "eyJhbGciOi.alice.sig" "admin" "get").
  - discriminate.
  - discriminate.
  - cbn. intuition discriminate.
  - vm_compute. reflexivity.
  - vm_compute. reflexivity.
Defined.

Lemma logout_route_needs_live_access_token_witness :
  run (logoutRoute Sample.env0
         (fun s => if String.eqb s "eyJhbGciOi.alice.sig" then Sample.aliceAccess 1000
                   else jwt.Opaque s)
         1900000 (Some (String.append "Bearer " "eyJhbGciOi.alice.sig"))
         (Some (Sample.aliceRefresh 1000))) Sample.db1 =
  if jwt.clockTimestamp 1900000
     <? jwt.clockTimestamp 1000000 + ACCESS_TOKEN_EXPIRY Sample.env0
  then (User_unsetRefreshToken_byId
          (User._id (populate (plans Sample.db0) Sample.alice)) Sample.db1,
        inr (Next (Res.json 200 "User logged out successfully.")))
  else (Sample.db1, inr (Respond 401 "Unauthorized: Token has expired.")).
Proof.
  apply (logout_route_needs_live_access_token Sample.env0
           (fun s => if String.eqb s "eyJhbGciOi.alice.sig" then Sample.aliceAccess 1000
                     else jwt.Opaque s)
           1000000 1900000 (populate (plans Sample.db0) Sample.alice)
           "eyJhbGciOi.alice.sig" (Some (Sample.aliceRefresh 1000)) Sample.db1).
  - discriminate.
  - discriminate.
  - cbn. intuition discriminate.
  - vm_compute. reflexivity.
Defined.

(** ** The session of the client *)

Lemma run_refresh_happy_access_token
    (env : Env) (now : Z) (T : jwt.Token) (db : DB)
    (decoded : jwt.Claims) (stored : User.t) :
  ACCESS_TOKEN_SECRET env <> EmptyString ->
  jwt.verify now T (REFRESH_TOKEN_SECRET env) = inr decoded ->
  List.find (hasId (jwt.claims_id decoded)) (users db) = Some stored ->
  User.refreshToken stored = Some T ->
  exists db' claims refreshToken,
    run (refreshAccessToken env now (Some T)) db
    = (db', inr {| Res.status := 200;
                   Res.message := "Access token refreshed.";
                   Res.accessToken :=
                     Some (jwt.sign now claims
                             (ACCESS_TOKEN_SECRET env) (ACCESS_TOKEN_EXPIRY env));
                   Res.refreshToken := Some refreshToken;
                   Res.user := None; Res.error := None |}).
Proof.
  intros Ha Hv Hfind Hptr.
  assert (Hr : REFRESH_TOKEN_SECRET env <> EmptyString).
  { apply verify_inr in Hv as (? & ? & _ & Hk & _). exact Hk. }
  set (id := jwt.claims_id decoded) in *.
  set (u := populate (plans db) (deselectPasswordHash stored)).
  assert (Hu : User_findById id db = Some u).
  { unfold User_findById. rewrite Hfind. reflexivity. }
  assert (Hid : User._id u = id).
  { unfold u. rewrite populate_id. simpl. eapply find_hasId_id. exact Hfind. }
  assert (Hfind' : List.find (hasId (User._id (this (loaded u)))) (users db) = Some stored).
  { cbn [this loaded]. rewrite Hid. exact Hfind. }
  pose proof (run_generateAccessAndRefereshTokens env now (loaded u) db stored Ha Hr Hfind')
    as Hrun.
  cbv zeta in Hrun.
  eexists _, _, _.
  rewrite refreshAccessToken_unfold by (eapply verify_inr_truthy; exact Hv).
  rewrite run_tryCatch, run_bind, Hv, run_lift, run_bind, run_query.
  fold id. rewrite Hu.
  assert (Hb : User.refreshToken u = Some T).
  { unfold u. rewrite populate_refreshToken. exact Hptr. }
  rewrite bool_decide_eq_true_2 by exact Hb.
  rewrite run_bind, Hrun, run_bind, run_command. reflexivity.
Qed.

Lemma stableJitterMs_bound (buf : list Z) : 0 <= nextauth.stableJitterMs buf < 10000.
Proof. unfold nextauth.stableJitterMs. apply Z.mod_pos_bound. lia. Qed.

(** X19.  The client follows the rotation.  When the [jwt] callback of a
    session that is due for a refresh, and was not refused before, sends
    the refresh token it holds to the refresh endpoint, and that token is
    the unexpired current pointer of a stored principal, the session it
    returns holds the refresh token that the server has just stored as the
    principal's pointer, the new access token with the expiry of its [exp]
    claim (the second of the refresh plus [ACCESS_TOKEN_EXPIRY], in
    milliseconds), no error, and the jitter it had. *)
Theorem client_follows_rotation
    (env : Env) (now : Z) (T : jwt.Token) (db : DB)
    (decoded : jwt.Claims) (stored : User.t) (token : auth.Session) :
  ACCESS_TOKEN_SECRET env <> EmptyString ->
  jwt.verify now T (REFRESH_TOKEN_SECRET env) = inr decoded ->
  List.find (hasId (jwt.claims_id decoded)) (users db) = Some stored ->
  User.refreshToken stored = Some T ->
  auth.refreshToken token = Some T ->
  auth.refreshErrorStatus token <> Some 401 ->
  auth.refreshErrorStatus token <> Some 403 ->
  auth.needsRefresh now token = true ->
  exists db' res,
    run (refreshAccessToken env now (auth.refreshToken token)) db = (db', inr res)
    /\ let token' :=
         nextauth.callbacks_jwt now token None
           (fun t => auth.refreshAccessToken now t res) in
       auth.refreshToken token' = currentRefreshToken (jwt.claims_id decoded) db'
       /\ auth.refreshToken token'
          = Some (jwt.sign now (jwt.RefreshClaims (jwt.claims_id decoded))
                    (REFRESH_TOKEN_SECRET env) (REFRESH_TOKEN_EXPIRY env))
       /\ auth.accessToken token' = Res.accessToken res
       /\ auth.accessTokenExpires token'
          = Some ((jwt.clockTimestamp now + ACCESS_TOKEN_EXPIRY env) * 1000)
       /\ auth.error token' = None
       /\ auth.refreshJitterMs token' = auth.refreshJitterMs token.
Proof.
  intros Ha Hv Hfind Hptr Htok H401 H403 Hdue.
  destruct (run_refresh_happy env now T db decoded stored Ha Hv Hfind Hptr)
    as (db' & accessToken & Hrun & Hcur & _).
  destruct (run_refresh_happy_access_token env now T db decoded stored Ha Hv Hfind Hptr)
    as (db'' & claims & refreshToken & Hrun').
  rewrite Hrun in Hrun'. injection Hrun' as _ Hacc _.
  rewrite Htok. eexists db', _. split; [exact Hrun |].
  unfold nextauth.callbacks_jwt.
  rewrite !bool_decide_eq_false_2 by assumption.
  rewrite Hdue. cbn [orb negb].
  unfold auth.refreshAccessToken. cbn [Res.status Res.accessToken Res.refreshToken].
  cbn [Z.leb Z.compare Pos.compare Pos.compare_cont andb negb jwt.truthy].
  rewrite Hacc. unfold jwt.sign at 1 2. cbn [auth.refreshToken auth.accessToken
    auth.accessTokenExpires auth.error auth.refreshJitterMs
    auth.computeAccessTokenExpires auth.expFromJwtMs].
  rewrite Hcur. repeat split; reflexivity.
Qed.

(** X20.  A refused session is not refreshed again.  When the backend
    answers a refresh with 401 or 403, [refreshAccessToken] of the client
    clears the access token, sets its expiry to 0 and marks the session
    with the error; every later run of the [jwt] callback returns that
    session as it is, without calling the refresh, whatever the clock. *)
Theorem refused_session_is_not_refreshed_again
    (now : Z) (token : auth.Session) (res : Res.t) :
  Res.status res = 401 \/ Res.status res = 403 ->
  let token' := auth.refreshAccessToken now token res in
  auth.accessToken token' = None
  /\ auth.accessTokenExpires token' = Some 0
  /\ auth.error token' = Some "RefreshAccessTokenError"%string
  /\ auth.refreshToken token' = auth.refreshToken token
  /\ forall (later : Z) (refresh : auth.Session -> auth.Session),
       nextauth.callbacks_jwt later token' None refresh = token'.
Proof.
  intros Hst token'.
  assert (E : token' =
              {| auth.accessToken := None; auth.accessTokenExpires := Some 0;
                 auth.refreshToken := auth.refreshToken token;
                 auth.refreshJitterMs := auth.refreshJitterMs token;
                 auth.error := Some "RefreshAccessTokenError"%string;
                 auth.refreshErrorStatus := Some (Res.status res) |}).
  { unfold token', auth.refreshAccessToken.
    destruct Hst as [-> | ->]; reflexivity. }
  rewrite E. repeat split.
  intros later refresh. unfold nextauth.callbacks_jwt.
  cbn [auth.refreshErrorStatus].
  destruct Hst as [-> | ->]; reflexivity.
Qed.

(** X21.  Another failure is retried.  When the backend answers a refresh
    with a status that is neither a success nor 401 or 403 (a 429 of the
    rate limiter, a 500), the session keeps its tokens, its expiry and its
    jitter and is marked with the error; the next run of the [jwt]
    callback at which a refresh is due calls the refresh again. *)
Theorem failed_refresh_is_retried
    (now later : Z) (token : auth.Session) (res : Res.t)
    (refresh : auth.Session -> auth.Session) :
  nextauth.ok res = false ->
  Res.status res <> 401 -> Res.status res <> 403 ->
  auth.needsRefresh later token = true ->
  let token' := auth.refreshAccessToken now token res in
  auth.accessToken token' = auth.accessToken token
  /\ auth.refreshToken token' = auth.refreshToken token
  /\ auth.accessTokenExpires token' = auth.accessTokenExpires token
  /\ auth.error token' = Some "RefreshAccessTokenError"%string
  /\ nextauth.callbacks_jwt later token' None refresh = refresh token'.
Proof.
  intros Hok H401 H403 Hdue token'.
  assert (E : token' =
              {| auth.accessToken := auth.accessToken token;
                 auth.accessTokenExpires := auth.accessTokenExpires token;
                 auth.refreshToken := auth.refreshToken token;
                 auth.refreshJitterMs := auth.refreshJitterMs token;
                 auth.error := Some "RefreshAccessTokenError"%string;
                 auth.refreshErrorStatus := Some (Res.status res) |}).
  { unfold token', auth.refreshAccessToken. unfold nextauth.ok in Hok.
    rewrite Hok. cbn [negb].
    rewrite !bool_decide_eq_false_2 by assumption. reflexivity. }
  rewrite E. repeat split.
  unfold nextauth.callbacks_jwt. cbn [auth.refreshErrorStatus].
  rewrite !bool_decide_eq_false_2 by congruence.
  unfold auth.needsRefresh in *.
  cbn [auth.refreshJitterMs auth.accessTokenExpires].
  rewrite Hdue. reflexivity.
Qed.

(** X22.  When a session is refreshed.  A session signed in with a login
    response whose access token the server signed at second [iat] with
    lifetime [ACCESS_TOKEN_EXPIRY] is returned unchanged by the [jwt]
    callback, without a refresh, at every instant earlier than 40 s before
    the expiry of the access token, and is refreshed by it at every instant
    from 30 s before that expiry on: the jitter taken from the digest
    places the refresh point in between. *)
Theorem session_refresh_window
    (now : Z) (identifier password : option string) (data : Res.t)
    (buf : list Z) (claims : jwt.Claims) (secret : string) (expiresIn : Z)
    (user token0 : auth.Session) (later : Z) (refresh : auth.Session -> auth.Session) :
  Res.accessToken data = Some (jwt.sign now claims secret expiresIn) ->
  nextauth.Credentials_authorize now identifier password (Some data) buf = Some user ->
  0 <= later ->
  let expires := (jwt.clockTimestamp now + expiresIn) * 1000 in
  let token := nextauth.callbacks_jwt now token0 (Some user) refresh in
  (later < expires - 40000 -> nextauth.callbacks_jwt later token None refresh = token)
  /\ (expires - 30000 <= later ->
      nextauth.callbacks_jwt later token None refresh = refresh token).
Proof.
  intros Hacc Hauth Hlater expires token.
  unfold nextauth.Credentials_authorize in Hauth.
  destruct (negb (JsString.truthy identifier) || negb (JsString.truthy password));
    [discriminate |].
  destruct (negb (nextauth.ok data)); [discriminate |].
  rewrite Hacc in Hauth.
  destruct (Res.refreshToken data) as [r |]; [| discriminate].
  destruct (negb _ || negb _); [discriminate |].
  injection Hauth as <-.
  pose proof (stableJitterMs_bound buf) as Hj.
  unfold token, nextauth.callbacks_jwt.
  cbn [auth.refreshErrorStatus auth.refreshJitterMs auth.accessTokenExpires
       auth.accessToken auth.refreshToken auth.error].
  rewrite !bool_decide_eq_false_2 by discriminate. cbn [orb].
  unfold auth.needsRefresh, auth.numberOr0, auth.EARLY_REFRESH_WINDOW_MS.
  cbn [auth.refreshJitterMs auth.accessTokenExpires default
       auth.computeAccessTokenExpires auth.expFromJwtMs jwt.sign].
  unfold id. fold expires. split; intros H.
  - replace (expires =? 0) with false by (symmetry; apply Z.eqb_neq; lia).
    replace (expires - (30000 + nextauth.stableJitterMs buf) <=? later) with false
      by (symmetry; apply Z.leb_gt; lia).
    reflexivity.
  - replace (expires - (30000 + nextauth.stableJitterMs buf) <=? later) with true
      by (symmetry; apply Z.leb_le; lia).
    rewrite orb_true_r. reflexivity.
Qed.

Lemma client_follows_rotation_witness :
  exists db' res,
    run (refreshAccessToken Sample.env0 1880000 (auth.refreshToken Sample.session1))
      Sample.db1 = (db', inr res)
    /\ let token' :=
         nextauth.callbacks_jwt 1880000 Sample.session1 None
           (fun t => auth.refreshAccessToken 1880000 t res) in
       auth.refreshToken token' = currentRefreshToken 1 db'
       /\ auth.refreshToken token' = Some (Sample.aliceRefresh 1880)
       /\ auth.accessToken token' = Res.accessToken res
       /\ auth.accessTokenExpires token' = Some 2780000
       /\ auth.error token' = None
       /\ auth.refreshJitterMs token' = auth.refreshJitterMs Sample.session1.
Proof.
  apply (client_follows_rotation Sample.env0 1880000 (Sample.aliceRefresh 1000)
           Sample.db1 (jwt.RefreshClaims 1)
           (assign Sample.alice (refreshToken_set (Some (Sample.aliceRefresh 1000))))
           Sample.session1).
  - discriminate.
  - reflexivity.
  - reflexivity.
  - reflexivity.
  - reflexivity.
  - discriminate.
  - discriminate.
  - reflexivity.
Defined.

Lemma refused_session_is_not_refreshed_again_witness :
  let token' :=
    auth.refreshAccessToken 1880000 Sample.session1
      (Res.json 403 "Forbidden: Invalid refresh token.") in
  auth.accessToken token' = None
  /\ auth.accessTokenExpires token' = Some 0
  /\ auth.error token' = Some "RefreshAccessTokenError"%string
  /\ auth.refreshToken token' = auth.refreshToken Sample.session1
  /\ forall (later : Z) (refresh : auth.Session -> auth.Session),
       nextauth.callbacks_jwt later token' None refresh = token'.
Proof.
  apply (refused_session_is_not_refreshed_again 1880000 Sample.session1
           (Res.json 403 "Forbidden: Invalid refresh token.")).
  right. reflexivity.
Defined.

Lemma failed_refresh_is_retried_witness :
  let token' :=
    auth.refreshAccessToken 1880000 Sample.session1
      (Res.json 429 "Too many refresh requests, please try again later.") in
  auth.accessToken token' = auth.accessToken Sample.session1
  /\ auth.refreshToken token' = auth.refreshToken Sample.session1
  /\ auth.accessTokenExpires token' = auth.accessTokenExpires Sample.session1
  /\ auth.error token' = Some "RefreshAccessTokenError"%string
  /\ nextauth.callbacks_jwt 1881000 token' None (fun t => t) = token'.
Proof.
  apply (failed_refresh_is_retried 1880000 1881000 Sample.session1
           (Res.json 429 "Too many refresh requests, please try again later.")
           (fun t => t)).
  - reflexivity.
  - discriminate.
  - discriminate.
  - reflexivity.
Defined.

Lemma session_refresh_window_witness :
  let data :=
    {| Res.status := 200; Res.message := "Login successful.";
       Res.accessToken := Some (jwt.sign 1000000 (jwt.AccessClaims 1 user "pro")
                                  "access-secret" 900);
       Res.refreshToken := Some (Sample.aliceRefresh 1000);
       Res.user := None; Res.error := None |} in
  let signedIn :=
    {| auth.accessToken := Some (Sample.aliceAccess 1000);
       auth.accessTokenExpires := Some 1900000;
       auth.refreshToken := Some (Sample.aliceRefresh 1000);
       auth.refreshJitterMs := Some (nextauth.stableJitterMs [18; 52]);
       auth.error := None; auth.refreshErrorStatus := None |} in
  let expires := (jwt.clockTimestamp 1000000 + 900) * 1000 in
  let token := nextauth.callbacks_jwt 1000000 Sample.session1 (Some signedIn) (fun t => t) in
  (1859999 < expires - 40000 ->
   nextauth.callbacks_jwt 1859999 token None (fun t => t) = token)
  /\ (expires - 30000 <= 1859999 ->
      nextauth.callbacks_jwt 1859999 token None (fun t => t) = token).
Proof.
  intros data signedIn.
  apply (session_refresh_window 1000000 (Some "alice"%string) (Some "Passw0rd!"%string)
           data [18; 52] (jwt.AccessClaims 1 user "pro") "access-secret" 900
           signedIn Sample.session1 1859999 (fun t => t)).
  - reflexivity.
  - reflexivity.
  - lia.
Defined.

(** ** The distributed single flight *)

Lemma append_inj_r (p a b : string) : String.append p a = String.append p b -> a = b.
Proof.
  induction p as [| c p IH]; cbn [String.append]; intros H; [exact H |].
  injection H as H. exact (IH H).
Qed.

(** X23.  The Redis keys of the single flight do not collide: under any
    prefix, the lock key of a refresh key is never the result key of a
    refresh key, and two refresh keys have the same lock key, or the same
    result key, only when they are equal. *)
Theorem redis_keys_do_not_collide (REDIS_PREFIX k k' : string) :
  singleFlight.lockKeyFor REDIS_PREFIX k <> singleFlight.resultKeyFor REDIS_PREFIX k'
  /\ (singleFlight.lockKeyFor REDIS_PREFIX k = singleFlight.lockKeyFor REDIS_PREFIX k'
      -> k = k')
  /\ (singleFlight.resultKeyFor REDIS_PREFIX k = singleFlight.resultKeyFor REDIS_PREFIX k'
      -> k = k').
Proof.
  unfold singleFlight.lockKeyFor, singleFlight.resultKeyFor. repeat split.
  - intros H. apply append_inj_r in H. discriminate H.
  - intros H. apply append_inj_r in H.
    exact (append_inj_r ":refresh:lock:" k k' H).
  - intros H. apply append_inj_r in H.
    exact (append_inj_r ":refresh:result:" k k' H).
Qed.

Lemma lockLive_insert (now : Z) (key value : string) (deadline : Z)
    (l : gmap string (string * Z)) :
  singleFlight.lockLive now key (<[ key := (value, deadline) ]> l) = (now <? deadline).
Proof. unfold singleFlight.lockLive. rewrite lookup_insert_eq. reflexivity. Qed.

Lemma lockLive_delete (now : Z) (key : string) (l : gmap string (string * Z)) :
  singleFlight.lockLive now key (delete key l) = false.
Proof. unfold singleFlight.lockLive. rewrite lookup_delete_eq. reflexivity. Qed.

Lemma redis_get_set_px (now later : Z) (key : string) (value : auth.Session) (px : Z)
    (r : gmap string (auth.Session * Z)) :
  auth.redis_get later key (auth.redis_set_px now key value px r)
  = if later <? now + px then Some value else None.
Proof. unfold auth.redis_get, auth.redis_set_px. rewrite lookup_insert_eq. reflexivity. Qed.

(** X24.  The single flight in sequence.  A call that finds no cached
    result and no live lock, and whose Redis commands are all served,
    takes the lock, calls [refreshFn] once, returns its result and leaves
    no live lock behind; and from the instant of the publication until the
    result's time to live has run out, every call for a session with the
    same refresh key returns that same result at its first command,
    without calling [refreshFn] and without writing to Redis. *)
Theorem single_flight_in_sequence
    (REDIS_PREFIX : string) (refreshKeyFor : auth.Session -> string)
    (refreshFn : Z -> auth.Session -> auth.Session)
    (token : auth.Session) (lockId : string) (t1 t2 t3 t4 : Z)
    (redis : singleFlight.Redis) :
  t2 <= t4 ->
  auth.redis_get t1 (singleFlight.rKey REDIS_PREFIX refreshKeyFor token)
    (singleFlight.results redis) = None ->
  singleFlight.lockLive t2 (singleFlight.lKey REDIS_PREFIX refreshKeyFor token)
    (singleFlight.locks redis) = false ->
  let refreshed := refreshFn t3 token in
  let done :=
    singleFlight.resumeAt REDIS_PREFIX refreshKeyFor refreshFn token lockId
      [t1; t2; t3; t4] singleFlight.start redis in
  fst done = {| singleFlight.phase := singleFlight.Returned refreshed;
                singleFlight.refreshes := 1 |}
  /\ (forall t, t4 <= t ->
        singleFlight.lockLive t (singleFlight.lKey REDIS_PREFIX refreshKeyFor token)
          (singleFlight.locks (snd done)) = false)
  /\ forall (token' : auth.Session) (lockId' : string) (later : Z),
       refreshKeyFor token' = refreshKeyFor token ->
       t3 <= later < t3 + auth.resultTtlMs t3 refreshed ->
       singleFlight.resume REDIS_PREFIX refreshKeyFor refreshFn token' lockId'
         later true singleFlight.start (snd done)
       = ({| singleFlight.phase := singleFlight.Returned refreshed;
             singleFlight.refreshes := 0 |}, snd done).
Proof.
  intros Hle Hmiss Hfree refreshed done.
  set (rK := singleFlight.rKey REDIS_PREFIX refreshKeyFor token) in *.
  set (lK := singleFlight.lKey REDIS_PREFIX refreshKeyFor token) in *.
  set (published :=
         auth.redis_set_px t3 rK refreshed (auth.resultTtlMs t3 refreshed)
           (singleFlight.results redis)).
  set (locked := <[ lK := (lockId, t2 + auth.LOCK_TTL_MS) ]> (singleFlight.locks redis)).
  assert (Hdone : done =
    ({| singleFlight.phase := singleFlight.Returned refreshed;
        singleFlight.refreshes := 1 |},
     {| singleFlight.results := published;
        singleFlight.locks := singleFlight.UNLOCK_LUA t4 lK lockId locked |})).
  { unfold done.
    cbn [singleFlight.resumeAt singleFlight.resume singleFlight.start
         singleFlight.phase singleFlight.refreshes negb].
    fold rK lK. rewrite Hmiss.
    cbn [singleFlight.resume singleFlight.phase singleFlight.refreshes negb].
    fold lK. unfold singleFlight.redis_set_px_nx. rewrite Hfree.
    cbn [singleFlight.resume singleFlight.phase singleFlight.refreshes
         singleFlight.results singleFlight.locks auth.leaderRefresh].
    fold rK lK. reflexivity. }
  rewrite Hdone. cbn [fst snd singleFlight.locks singleFlight.results].
  split; [reflexivity |]. split.
  - intros t Ht. unfold singleFlight.UNLOCK_LUA, locked.
    rewrite lookup_insert_eq.
    rewrite (bool_decide_eq_true_2 (lockId = lockId) eq_refl), andb_true_r.
    destruct (Z.ltb_spec t4 (t2 + auth.LOCK_TTL_MS)) as [Hlive | Hdead].
    + apply lockLive_delete.
    + rewrite lockLive_insert. apply Z.ltb_ge. lia.
  - intros token' lockId' later Hkey [Hfrom Hto].
    unfold singleFlight.resume.
    cbn [singleFlight.start singleFlight.phase singleFlight.refreshes negb
         singleFlight.results].
    unfold singleFlight.rKey. rewrite Hkey. fold (singleFlight.rKey REDIS_PREFIX refreshKeyFor token).
    fold rK. unfold published. rewrite redis_get_set_px.
    replace (later <? t3 + auth.resultTtlMs t3 refreshed) with true
      by (symmetry; apply Z.ltb_lt; exact Hto).
    reflexivity.
Qed.

(** X25.  One leader while the lock is live.  When a call has taken the
    lock at [tA] and its keep-alive has last fired at [tK], within the
    lock's time to live, every call for a session with the same refresh
    key that asks for the lock at an instant from [tK] to less than
    [LOCK_TTL_MS] later is refused it: it becomes a follower that polls,
    with that instant as the start of its wait, and writes nothing. *)
Theorem lock_admits_one_leader
    (REDIS_PREFIX : string) (refreshKeyFor : auth.Session -> string)
    (refreshFn : Z -> auth.Session -> auth.Session)
    (tokenA tokenB : auth.Session) (lockIdA lockIdB : string) (tA tK tB : Z)
    (redis : singleFlight.Redis) :
  refreshKeyFor tokenB = refreshKeyFor tokenA ->
  singleFlight.lockLive tA (singleFlight.lKey REDIS_PREFIX refreshKeyFor tokenA)
    (singleFlight.locks redis) = false ->
  tA <= tK < tA + auth.LOCK_TTL_MS ->
  tK <= tB < tK + auth.LOCK_TTL_MS ->
  let asking := {| singleFlight.phase := singleFlight.SetLock;
                   singleFlight.refreshes := 0 |} in
  let leader :=
    singleFlight.resume REDIS_PREFIX refreshKeyFor refreshFn tokenA lockIdA
      tA true asking redis in
  let keptAlive :=
    singleFlight.keepAlive REDIS_PREFIX refreshKeyFor tokenA tK true
      (fst leader) (snd leader) in
  singleFlight.phase (fst leader) = singleFlight.Leader
  /\ singleFlight.resume REDIS_PREFIX refreshKeyFor refreshFn tokenB lockIdB
       tB true asking keptAlive
     = ({| singleFlight.phase := singleFlight.PollGet tB;
           singleFlight.refreshes := 0 |}, keptAlive).
Proof.
  intros Hkey Hfree HK HB asking leader keptAlive.
  set (lK := singleFlight.lKey REDIS_PREFIX refreshKeyFor tokenA) in *.
  assert (Hleader : leader =
    ({| singleFlight.phase := singleFlight.Leader; singleFlight.refreshes := 0 |},
     {| singleFlight.results := singleFlight.results redis;
        singleFlight.locks :=
          <[ lK := (lockIdA, tA + auth.LOCK_TTL_MS) ]> (singleFlight.locks redis) |})).
  { unfold leader, asking, singleFlight.resume.
    cbn [singleFlight.phase singleFlight.refreshes negb].
    fold lK. unfold singleFlight.redis_set_px_nx. rewrite Hfree. reflexivity. }
  assert (Hkept : keptAlive =
    {| singleFlight.results := singleFlight.results redis;
       singleFlight.locks :=
         <[ lK := (lockIdA, tK + auth.LOCK_TTL_MS) ]>
           (<[ lK := (lockIdA, tA + auth.LOCK_TTL_MS) ]> (singleFlight.locks redis)) |}).
  { unfold keptAlive. rewrite Hleader.
    unfold singleFlight.keepAlive.
    cbn [fst snd singleFlight.phase singleFlight.results singleFlight.locks].
    fold lK. unfold singleFlight.redis_pexpire. rewrite lookup_insert_eq.
    replace (tK <? tA + auth.LOCK_TTL_MS) with true
      by (symmetry; apply Z.ltb_lt; lia).
    reflexivity. }
  split; [rewrite Hleader; reflexivity |].
  rewrite Hkept. unfold asking, singleFlight.resume.
  cbn [singleFlight.phase singleFlight.refreshes negb singleFlight.locks].
  unfold singleFlight.lKey. rewrite Hkey.
  fold (singleFlight.lKey REDIS_PREFIX refreshKeyFor tokenA). fold lK.
  unfold singleFlight.redis_set_px_nx. rewrite lockLive_insert.
  replace (tB <? tK + auth.LOCK_TTL_MS) with true by (symmetry; apply Z.ltb_lt; lia).
  reflexivity.
Qed.

(** X26.  The unlock spares the lock of a successor.  When the lock of a
    leader has run out before the leader is done, and another call with
    another lock id has taken the lock since, the leader's unlock (the
    compare-and-delete script) leaves Redis as it is: the lock stays live
    under the successor's id until its own deadline. *)
Theorem unlock_spares_successor
    (REDIS_PREFIX : string) (refreshKeyFor : auth.Session -> string)
    (refreshFn : Z -> auth.Session -> auth.Session)
    (tokenA tokenB : auth.Session) (lockIdA lockIdB : string) (tA tB tU : Z)
    (refreshed : auth.Session) (redis : singleFlight.Redis) :
  refreshKeyFor tokenB = refreshKeyFor tokenA ->
  lockIdA <> lockIdB ->
  singleFlight.lockLive tA (singleFlight.lKey REDIS_PREFIX refreshKeyFor tokenA)
    (singleFlight.locks redis) = false ->
  tA + auth.LOCK_TTL_MS <= tB ->
  let asking := {| singleFlight.phase := singleFlight.SetLock;
                   singleFlight.refreshes := 0 |} in
  let first :=
    singleFlight.resume REDIS_PREFIX refreshKeyFor refreshFn tokenA lockIdA
      tA true asking redis in
  let second :=
    singleFlight.resume REDIS_PREFIX refreshKeyFor refreshFn tokenB lockIdB
      tB true asking (snd first) in
  let unlocked :=
    singleFlight.resume REDIS_PREFIX refreshKeyFor refreshFn tokenA lockIdA
      tU true {| singleFlight.phase := singleFlight.Unlock refreshed;
                 singleFlight.refreshes := 1 |} (snd second) in
  singleFlight.phase (fst second) = singleFlight.Leader
  /\ snd unlocked = snd second
  /\ singleFlight.phase (fst unlocked) = singleFlight.Returned refreshed
  /\ forall t,
       singleFlight.lockLive t (singleFlight.lKey REDIS_PREFIX refreshKeyFor tokenA)
         (singleFlight.locks (snd unlocked))
       = (t <? tB + auth.LOCK_TTL_MS).
Proof.
  intros Hkey Hids Hfree Hexpired asking first second unlocked.
  set (lK := singleFlight.lKey REDIS_PREFIX refreshKeyFor tokenA) in *.
  assert (HlK : singleFlight.lKey REDIS_PREFIX refreshKeyFor tokenB = lK).
  { unfold lK, singleFlight.lKey. rewrite Hkey. reflexivity. }
  set (l1 := <[ lK := (lockIdA, tA + auth.LOCK_TTL_MS) ]> (singleFlight.locks redis)).
  set (l2 := <[ lK := (lockIdB, tB + auth.LOCK_TTL_MS) ]> l1).
  assert (Hfirst : snd first =
    {| singleFlight.results := singleFlight.results redis; singleFlight.locks := l1 |}).
  { unfold first, asking, singleFlight.resume.
    cbn [singleFlight.phase singleFlight.refreshes negb].
    fold lK. unfold singleFlight.redis_set_px_nx. rewrite Hfree. reflexivity. }
  assert (Hsecond : second =
    ({| singleFlight.phase := singleFlight.Leader; singleFlight.refreshes := 0 |},
     {| singleFlight.results := singleFlight.results redis; singleFlight.locks := l2 |})).
  { unfold second. rewrite Hfirst. unfold asking, singleFlight.resume.
    cbn [singleFlight.phase singleFlight.refreshes negb singleFlight.locks
         singleFlight.results].
    rewrite HlK. unfold singleFlight.redis_set_px_nx, l1. rewrite lockLive_insert.
    replace (tB <? tA + auth.LOCK_TTL_MS) with false
      by (symmetry; apply Z.ltb_ge; lia).
    reflexivity. }
  assert (Hunlocked : unlocked =
    ({| singleFlight.phase := singleFlight.Returned refreshed;
        singleFlight.refreshes := 1 |},
     {| singleFlight.results := singleFlight.results redis; singleFlight.locks := l2 |})).
  { unfold unlocked. rewrite Hsecond. unfold singleFlight.resume.
    cbn [snd singleFlight.phase singleFlight.refreshes singleFlight.locks
         singleFlight.results].
    fold lK. unfold singleFlight.UNLOCK_LUA, l2. rewrite lookup_insert_eq.
    rewrite (bool_decide_eq_false_2 (lockIdB = lockIdA)) by congruence.
    rewrite andb_false_r. reflexivity. }
  rewrite Hunlocked, Hsecond. cbn [fst snd singleFlight.phase singleFlight.locks].
  repeat split. intros t. unfold l2. apply lockLive_insert.
Qed.

Lemma accounted_mono (P Q : auth.Session -> Prop) (c : singleFlight.Call) :
  (forall r, P r -> Q r) -> accounted P c -> accounted Q c.
Proof.
  intros HPQ. unfold accounted.
  destruct (singleFlight.phase c); try tauto; intros [H1 H2]; split; auto.
Qed.

Lemma accounted_resume
    (REDIS_PREFIX : string) (refreshKeyFor : auth.Session -> string)
    (refreshFn : Z -> auth.Session -> auth.Session)
    (token : auth.Session) (lockId : string)
    (P : auth.Session -> Prop) (now : Z) (up : bool)
    (c : singleFlight.Call) (redis : singleFlight.Redis) :
  accounted P c ->
  accounted
    (fun r => P r
              \/ servedOrRefreshed REDIS_PREFIX refreshKeyFor refreshFn token
                   [(now, up, redis)] r)
    (fst (singleFlight.resume REDIS_PREFIX refreshKeyFor refreshFn token lockId
            now up c redis)).
Proof.
  assert (Hserved : forall r,
            up = true ->
            auth.redis_get now (singleFlight.rKey REDIS_PREFIX refreshKeyFor token)
              (singleFlight.results redis) = Some r ->
            servedOrRefreshed REDIS_PREFIX refreshKeyFor refreshFn token
              [(now, up, redis)] r).
  { intros r Hup Hget. exists now, up, redis. split; [left; reflexivity |].
    left. split; assumption. }
  assert (Hfresh : servedOrRefreshed REDIS_PREFIX refreshKeyFor refreshFn token
                     [(now, up, redis)] (refreshFn now token)).
  { exists now, up, redis. split; [left; reflexivity |]. right. reflexivity. }
  unfold accounted at 1. unfold singleFlight.resume.
  destruct (singleFlight.phase c) as [| | | refreshed | s | s | | attempt | | result] eqn:Hphase.
  - intros H0. destruct up; cbn [negb]; [| exact H0].
    destruct (auth.redis_get now _ _) as [cached |] eqn:Hget; unfold accounted;
      cbn [fst singleFlight.phase singleFlight.refreshes]; [| exact H0].
    split; [lia |]. right. apply Hserved; reflexivity.
  - intros H0. destruct up; cbn [negb]; [| exact H0].
    destruct (singleFlight.redis_set_px_nx _ _ _ _ _) as [l [|]]; exact H0.
  - intros H0. unfold auth.leaderRefresh, accounted.
    cbn [fst singleFlight.phase singleFlight.refreshes].
    split; [rewrite H0; reflexivity |]. right. exact Hfresh.
  - intros [H1 HP]. unfold accounted.
    cbn [fst singleFlight.phase singleFlight.refreshes].
    split; [lia |]. left. exact HP.
  - intros H0.
    destruct up; [destruct (auth.redis_get now _ _) as [cached |] eqn:Hget |];
      unfold accounted; cbn [fst singleFlight.phase singleFlight.refreshes];
      try exact H0.
    split; [lia |]. right. apply Hserved; reflexivity.
  - intros H0. destruct (now - s <? auth.WAIT_TIMEOUT_MS); exact H0.
  - intros H0. destruct (bool_decide _); unfold accounted;
      cbn [fst singleFlight.phase singleFlight.refreshes];
      (split; [lia |]); right; exact Hfresh.
  - intros [H1 HP].
    destruct up; [destruct (auth.redis_get now _ _) as [cached |] eqn:Hget |];
      unfold accounted; cbn [fst singleFlight.phase singleFlight.refreshes];
      (split; [lia |]).
    + right. apply Hserved; reflexivity.
    + left. exact HP.
    + left. exact HP.
  - intros H0. unfold accounted.
    cbn [fst singleFlight.phase singleFlight.refreshes].
    split; [lia |]. right. exact Hfresh.
  - intros [H1 HP]. unfold accounted. cbn [fst]. rewrite Hphase.
    split; [exact H1 |]. left. exact HP.
Qed.

Lemma accounted_resumeAmong
    (REDIS_PREFIX : string) (refreshKeyFor : auth.Session -> string)
    (refreshFn : Z -> auth.Session -> auth.Session)
    (token : auth.Session) (lockId : string)
    (events : list (Z * bool * singleFlight.Redis)) :
  forall (P : auth.Session -> Prop) (c : singleFlight.Call),
    accounted P c ->
    accounted
      (fun r => P r
                \/ servedOrRefreshed REDIS_PREFIX refreshKeyFor refreshFn token events r)
      (singleFlight.resumeAmong REDIS_PREFIX refreshKeyFor refreshFn token lockId
         events c).
Proof.
  induction events as [| [[now up] redis] rest IH]; intros P c Hc.
  - cbn [singleFlight.resumeAmong]. eapply accounted_mono; [| exact Hc]. auto.
  - cbn [singleFlight.resumeAmong].
    eapply accounted_mono;
      [| apply IH;
         apply (accounted_resume REDIS_PREFIX refreshKeyFor refreshFn token lockId
                  P now up c redis Hc)].
    intros r [[HP | (n & u & rd & Hin & Hr)] | (n & u & rd & Hin & Hr)].
    + left. exact HP.
    + right. exists n, u, rd. split; [| exact Hr].
      destruct Hin as [<- | []]. left. reflexivity.
    + right. exists n, u, rd. split; [right; exact Hin | exact Hr].
Qed.

(** X27.  A call refreshes at most once and invents nothing.  Whatever
    Redis holds and whether its commands are served or fail, at every
    resumption and whatever others do in between, a call of
    [distributedSingleFlightRefresh] calls [refreshFn] once at most, and a
    session it returns is one that a served [GET] of its result key
    returned or one that [refreshFn] returned. *)
Theorem call_refreshes_at_most_once
    (REDIS_PREFIX : string) (refreshKeyFor : auth.Session -> string)
    (refreshFn : Z -> auth.Session -> auth.Session)
    (token : auth.Session) (lockId : string)
    (events : list (Z * bool * singleFlight.Redis)) :
  let c :=
    singleFlight.resumeAmong REDIS_PREFIX refreshKeyFor refreshFn token lockId
      events singleFlight.start in
  (singleFlight.refreshes c <= 1)%nat
  /\ forall r,
       singleFlight.phase c = singleFlight.Returned r ->
       servedOrRefreshed REDIS_PREFIX refreshKeyFor refreshFn token events r.
Proof.
  intros c.
  assert (H : accounted
                (fun r => False
                          \/ servedOrRefreshed REDIS_PREFIX refreshKeyFor refreshFn token
                               events r) c).
  { apply accounted_resumeAmong. reflexivity. }
  unfold accounted in H. split.
  - destruct (singleFlight.phase c); lia.
  - intros r Hr. rewrite Hr in H. destruct H as [_ [[] | H]]. exact H.
Qed.

Section Termination.

Variable REDIS_PREFIX : string.
Variable refreshKeyFor : auth.Session -> string.
Variable refreshFn : Z -> auth.Session -> auth.Session.
Variable token : auth.Session.
Variable lockId : string.

Lemma resumeAmong_cons (now : Z) (up : bool) (redis : singleFlight.Redis)
    (rest : list (Z * bool * singleFlight.Redis)) (c : singleFlight.Call) :
  singleFlight.resumeAmong REDIS_PREFIX refreshKeyFor refreshFn token lockId
    ((now, up, redis) :: rest) c
  = singleFlight.resumeAmong REDIS_PREFIX refreshKeyFor refreshFn token lockId rest
      (fst (singleFlight.resume REDIS_PREFIX refreshKeyFor refreshFn token lockId
              now up c redis)).
Proof. reflexivity. Qed.

Lemma paced_cons (previous now : Z) (up : bool) (redis : singleFlight.Redis)
    (rest : list (Z * bool * singleFlight.Redis)) (c : singleFlight.Call) :
  singleFlight.paced REDIS_PREFIX refreshKeyFor refreshFn token lockId previous c
    ((now, up, redis) :: rest) ->
  previous <= now
  /\ (forall s, singleFlight.phase c = singleFlight.Sleep s ->
        previous + auth.POLL_INTERVAL_MS <= now)
  /\ singleFlight.paced REDIS_PREFIX refreshKeyFor refreshFn token lockId now
       (fst (singleFlight.resume REDIS_PREFIX refreshKeyFor refreshFn token lockId
               now up c redis)) rest.
Proof.
  cbn [singleFlight.paced]. intros (H1 & H2 & H3). split; [exact H1 |].
  split; [| exact H3]. intros s Hs. rewrite Hs in H2. exact H2.
Qed.

Lemma returned_stays (events : list (Z * bool * singleFlight.Redis))
    (c : singleFlight.Call) (r : auth.Session) :
  singleFlight.phase c = singleFlight.Returned r ->
  singleFlight.resumeAmong REDIS_PREFIX refreshKeyFor refreshFn token lockId events c = c.
Proof.
  induction events as [| [[now up] redis] rest IH]; intros Hc; [reflexivity |].
  rewrite resumeAmong_cons. unfold singleFlight.resume. rewrite Hc.
  cbn [fst]. apply IH. exact Hc.
Qed.

Lemma returns_after_one (events : list (Z * bool * singleFlight.Redis))
    (c : singleFlight.Call) :
  (1 <= length events)%nat ->
  (exists a, singleFlight.phase c = singleFlight.FinalGet a)
  \/ (exists a, singleFlight.phase c = singleFlight.Unlock a)
  \/ singleFlight.phase c = singleFlight.LocalRefresh
  \/ (exists a, singleFlight.phase c = singleFlight.Returned a) ->
  exists r,
    singleFlight.phase
      (singleFlight.resumeAmong REDIS_PREFIX refreshKeyFor refreshFn token lockId events c)
    = singleFlight.Returned r.
Proof.
  destruct events as [| [[now up] redis] rest]; cbn [length]; [lia |]. intros _ Hc.
  rewrite resumeAmong_cons.
  assert (H : exists r,
            singleFlight.phase
              (fst (singleFlight.resume REDIS_PREFIX refreshKeyFor refreshFn token lockId
                      now up c redis))
            = singleFlight.Returned r).
  { unfold singleFlight.resume.
    destruct Hc as [[a Ha] | [[a Ha] | [Ha | [a Ha]]]]; rewrite Ha.
    - destruct (if up then _ else _); eexists; reflexivity.
    - eexists; reflexivity.
    - eexists; reflexivity.
    - exists a. exact Ha. }
  destruct H as [r Hr]. exists r. rewrite (returned_stays rest _ r Hr). exact Hr.
Qed.

Lemma returns_after_two (events : list (Z * bool * singleFlight.Redis))
    (c : singleFlight.Call) :
  (2 <= length events)%nat ->
  singleFlight.phase c = singleFlight.Timeout
  \/ singleFlight.phase c = singleFlight.Leader ->
  exists r,
    singleFlight.phase
      (singleFlight.resumeAmong REDIS_PREFIX refreshKeyFor refreshFn token lockId events c)
    = singleFlight.Returned r.
Proof.
  destruct events as [| [[now up] redis] rest]; cbn [length]; [lia |]. intros Hlen Hc.
  rewrite resumeAmong_cons. apply returns_after_one; [lia |].
  unfold singleFlight.resume. destruct Hc as [Ha | Ha]; rewrite Ha.
  - destruct (bool_decide _); cbn [fst singleFlight.phase].
    + left. eexists; reflexivity.
    + right. right. right. eexists; reflexivity.
  - unfold auth.leaderRefresh. cbn [fst singleFlight.phase].
    right. left. eexists; reflexivity.
Qed.

Lemma resume_PollGet (now : Z) (up : bool) (redis : singleFlight.Redis)
    (c : singleFlight.Call) (start : Z) :
  singleFlight.phase c = singleFlight.PollGet start ->
  let c' :=
    fst (singleFlight.resume REDIS_PREFIX refreshKeyFor refreshFn token lockId
           now up c redis) in
  (exists r, singleFlight.phase c' = singleFlight.Returned r)
  \/ singleFlight.phase c' = singleFlight.Sleep start.
Proof.
  intros Hc c'. unfold c', singleFlight.resume. rewrite Hc.
  destruct (if up then _ else _) as [cached |]; cbn [fst singleFlight.phase].
  - left. eexists; reflexivity.
  - right. reflexivity.
Qed.

Lemma resume_Sleep (now : Z) (up : bool) (redis : singleFlight.Redis)
    (c : singleFlight.Call) (start : Z) :
  singleFlight.phase c = singleFlight.Sleep start ->
  singleFlight.phase
    (fst (singleFlight.resume REDIS_PREFIX refreshKeyFor refreshFn token lockId
            now up c redis))
  = if now - start <? auth.WAIT_TIMEOUT_MS
    then singleFlight.PollGet start else singleFlight.Timeout.
Proof.
  intros Hc. unfold singleFlight.resume. rewrite Hc.
  destruct (now - start <? auth.WAIT_TIMEOUT_MS); reflexivity.
Qed.

Lemma follower_returns (n : nat) :
  forall (events : list (Z * bool * singleFlight.Redis)) (c : singleFlight.Call)
         (previous start : Z),
    singleFlight.phase c = singleFlight.PollGet start ->
    singleFlight.paced REDIS_PREFIX refreshKeyFor refreshFn token lockId
      previous c events ->
    start + auth.WAIT_TIMEOUT_MS <= previous + auth.POLL_INTERVAL_MS * Z.of_nat (S n) ->
    (2 * S n + 2 <= length events)%nat ->
    exists r,
      singleFlight.phase
        (singleFlight.resumeAmong REDIS_PREFIX refreshKeyFor refreshFn token lockId
           events c)
      = singleFlight.Returned r.
Proof.
  induction n as [| n IH]; intros events c previous start Hc Hpaced Hn Hlen;
    (destruct events as [| [[now1 up1] redis1] [| [[now2 up2] redis2] rest]];
     cbn [length] in Hlen; try lia);
    rewrite resumeAmong_cons;
    apply paced_cons in Hpaced; destruct Hpaced as (Hp1 & _ & Hpaced);
    (destruct (resume_PollGet now1 up1 redis1 c start Hc) as [Hr | Hsleep];
     [apply returns_after_one; [cbn [length]; lia | tauto] |]);
    rewrite resumeAmong_cons;
    apply paced_cons in Hpaced; destruct Hpaced as (_ & Hp2 & Hpaced);
    specialize (Hp2 start Hsleep);
    pose proof (resume_Sleep now2 up2 redis2 _ start Hsleep) as Hnext;
    unfold auth.WAIT_TIMEOUT_MS, auth.POLL_INTERVAL_MS in *;
    destruct (Z.ltb_spec (now2 - start) 9000) as [Hwait | Hwait].
  - lia.
  - apply returns_after_two; [lia |]. left. exact Hnext.
  - apply (IH rest _ now2 start); [exact Hnext | exact Hpaced | lia | lia].
  - apply returns_after_two; [lia |]. left. exact Hnext.
Qed.

(** X28.  A call returns.  Whatever Redis holds and whether its commands
    are served or fail, and whatever others do in between, a call of
    [distributedSingleFlightRefresh] has returned after 94 resumptions at
    most, provided the clock does not go back and each sleep of the
    polling loop lasts [POLL_INTERVAL_MS] at least: a follower gives up
    polling after 45 sleeps at most and refreshes on its own. *)
Theorem call_returns
    (events : list (Z * bool * singleFlight.Redis)) (begin : Z) :
  singleFlight.paced REDIS_PREFIX refreshKeyFor refreshFn token lockId
    begin singleFlight.start events ->
  (94 <= length events)%nat ->
  exists r,
    singleFlight.phase
      (singleFlight.resumeAmong REDIS_PREFIX refreshKeyFor refreshFn token lockId
         events singleFlight.start)
    = singleFlight.Returned r.
Proof.
  intros Hpaced Hlen.
  destruct events as [| [[now1 up1] redis1] [| [[now2 up2] redis2] rest]];
    cbn [length] in Hlen; try lia.
  rewrite resumeAmong_cons.
  apply paced_cons in Hpaced. destruct Hpaced as (_ & _ & Hpaced).
  set (c1 := fst (singleFlight.resume REDIS_PREFIX refreshKeyFor refreshFn token lockId
                    now1 up1 singleFlight.start redis1)) in *.
  assert (H1 : singleFlight.phase c1 = singleFlight.SetLock
               \/ singleFlight.phase c1 = singleFlight.LocalRefresh
               \/ exists r, singleFlight.phase c1 = singleFlight.Returned r).
  { unfold c1, singleFlight.resume.
    cbn [singleFlight.start singleFlight.phase singleFlight.refreshes].
    destruct up1; cbn [negb]; [| right; left; reflexivity].
    destruct (auth.redis_get now1 _ _); cbn [fst singleFlight.phase].
    - right. right. eexists; reflexivity.
    - left. reflexivity. }
  destruct H1 as [H1 | H1]; [| apply returns_after_one; [cbn [length]; lia | tauto]].
  rewrite resumeAmong_cons.
  apply paced_cons in Hpaced. destruct Hpaced as (_ & _ & Hpaced).
  set (c2 := fst (singleFlight.resume REDIS_PREFIX refreshKeyFor refreshFn token lockId
                    now2 up2 c1 redis2)) in *.
  assert (H2 : singleFlight.phase c2 = singleFlight.LocalRefresh
               \/ singleFlight.phase c2 = singleFlight.Leader
               \/ singleFlight.phase c2 = singleFlight.PollGet now2).
  { unfold c2, singleFlight.resume. rewrite H1.
    destruct up2; cbn [negb]; [| left; reflexivity].
    destruct (singleFlight.redis_set_px_nx _ _ _ _ _) as [l [|]];
      cbn [fst singleFlight.phase]; tauto. }
  destruct H2 as [H2 | [H2 | H2]].
  - apply returns_after_one; [lia | tauto].
  - apply returns_after_two; [lia | tauto].
  - apply (follower_returns 44 rest c2 now2 now2); [exact H2 | exact Hpaced | | lia].
    unfold auth.WAIT_TIMEOUT_MS, auth.POLL_INTERVAL_MS. lia.
Qed.

End Termination.

Lemma single_flight_in_sequence_witness :
  let refreshFn := fun (now : Z) (t : auth.Session) => Sample.backendRefresh now t in
  let redis := {| singleFlight.results := ∅; singleFlight.locks := ∅ |} in
  let refreshed := refreshFn 1880200 Sample.session1 in
  let done :=
    singleFlight.resumeAt "auth:v1" (fun _ => "k1"%string) refreshFn
      Sample.session1 "lock-A" [1880000; 1880100; 1880200; 1880300]
      singleFlight.start redis in
  fst done = {| singleFlight.phase := singleFlight.Returned refreshed;
                singleFlight.refreshes := 1 |}
  /\ (forall t, 1880300 <= t ->
        singleFlight.lockLive t
          (singleFlight.lKey "auth:v1" (fun _ => "k1"%string) Sample.session1)
          (singleFlight.locks (snd done)) = false)
  /\ forall (token' : auth.Session) (lockId' : string) (later : Z),
       "k1"%string = "k1"%string ->
       1880200 <= later < 1880200 + auth.resultTtlMs 1880200 refreshed ->
       singleFlight.resume "auth:v1" (fun _ => "k1"%string) refreshFn token' lockId'
         later true singleFlight.start (snd done)
       = ({| singleFlight.phase := singleFlight.Returned refreshed;
             singleFlight.refreshes := 0 |}, snd done).
Proof.
  intros refreshFn redis.
  apply (single_flight_in_sequence "auth:v1" (fun _ => "k1"%string) refreshFn
           Sample.session1 "lock-A" 1880000 1880100 1880200 1880300 redis).
  - lia.
  - reflexivity.
  - reflexivity.
Defined.

Lemma lock_admits_one_leader_witness :
  let redis := {| singleFlight.results := ∅; singleFlight.locks := ∅ |} in
  let asking := {| singleFlight.phase := singleFlight.SetLock;
                   singleFlight.refreshes := 0 |} in
  let leader :=
    singleFlight.resume "auth:v1" (fun _ => "k1"%string) (fun _ t => t)
      Sample.session1 "lock-A" 1880000 true asking redis in
  let keptAlive :=
    singleFlight.keepAlive "auth:v1" (fun _ => "k1"%string) Sample.session1
      1884000 true (fst leader) (snd leader) in
  singleFlight.phase (fst leader) = singleFlight.Leader
  /\ singleFlight.resume "auth:v1" (fun _ => "k1"%string) (fun _ t => t)
       Sample.session1 "lock-B" 1889000 true asking keptAlive
     = ({| singleFlight.phase := singleFlight.PollGet 1889000;
           singleFlight.refreshes := 0 |}, keptAlive).
Proof.
  intros redis.
  apply (lock_admits_one_leader "auth:v1" (fun _ => "k1"%string) (fun _ t => t)
           Sample.session1 Sample.session1 "lock-A" "lock-B"
           1880000 1884000 1889000 redis).
  - reflexivity.
  - reflexivity.
  - unfold auth.LOCK_TTL_MS. lia.
  - unfold auth.LOCK_TTL_MS. lia.
Defined.

Lemma unlock_spares_successor_witness :
  let redis := {| singleFlight.results := ∅; singleFlight.locks := ∅ |} in
  let asking := {| singleFlight.phase := singleFlight.SetLock;
                   singleFlight.refreshes := 0 |} in
  let first :=
    singleFlight.resume "auth:v1" (fun _ => "k1"%string) (fun _ t => t)
      Sample.session1 "lock-A" 1880000 true asking redis in
  let second :=
    singleFlight.resume "auth:v1" (fun _ => "k1"%string) (fun _ t => t)
      Sample.session1 "lock-B" 1888000 true asking (snd first) in
  let unlocked :=
    singleFlight.resume "auth:v1" (fun _ => "k1"%string) (fun _ t => t)
      Sample.session1 "lock-A" 1888500 true
      {| singleFlight.phase := singleFlight.Unlock Sample.session1;
         singleFlight.refreshes := 1 |} (snd second) in
  singleFlight.phase (fst second) = singleFlight.Leader
  /\ snd unlocked = snd second
  /\ singleFlight.phase (fst unlocked) = singleFlight.Returned Sample.session1
  /\ forall t,
       singleFlight.lockLive t
         (singleFlight.lKey "auth:v1" (fun _ => "k1"%string) Sample.session1)
         (singleFlight.locks (snd unlocked))
       = (t <? 1888000 + auth.LOCK_TTL_MS).
Proof.
  intros redis.
  apply (unlock_spares_successor "auth:v1" (fun _ => "k1"%string) (fun _ t => t)
           Sample.session1 Sample.session1 "lock-A" "lock-B"
           1880000 1888000 1888500 Sample.session1 redis).
  - reflexivity.
  - discriminate.
  - reflexivity.
  - unfold auth.LOCK_TTL_MS. lia.
Defined.

Lemma call_returns_witness :
  let held :=
    {| singleFlight.results := ∅;
       singleFlight.locks :=
         {[ singleFlight.lockKeyFor "auth:v1" "k1" := ("lock-A"%string, 100000) ]} |} in
  let events := List.map (fun i => (200 * Z.of_nat i, true, held)) (seq 0 94) in
  exists r,
    singleFlight.phase
      (singleFlight.resumeAmong "auth:v1" (fun _ => "k1"%string) (fun _ t => t)
         Sample.session1 "lock-B" events singleFlight.start)
    = singleFlight.Returned r.
Proof.
  intros held events.
  apply (call_returns "auth:v1" (fun _ => "k1"%string) (fun _ t => t)
           Sample.session1 "lock-B" events 0).
  - vm_compute. repeat split; discriminate.
  - vm_compute. repeat constructor.
Defined.

(** ** The nightly job *)

Lemma bulkWrite_app (a b : list (Z * list Assignment)) (us : list User.t) :
  subscriptionJobs.bulkWrite (a ++ b) us
  = subscriptionJobs.bulkWrite b (subscriptionJobs.bulkWrite a us).
Proof. unfold subscriptionJobs.bulkWrite. apply fold_left_app. Qed.

Lemma forAwait_bulkWrite (now : Z) (freePlanId : option Z) (cursor : list User.t) :
  forall (bulkOps : list (Z * list Assignment)) (us : list User.t),
    subscriptionJobs.forAwait now freePlanId cursor bulkOps us
    = subscriptionJobs.bulkWrite
        (bulkOps
         ++ List.map (fun u => (User._id u, subscriptionJobs.updateData now freePlanId))
              cursor)
        us.
Proof.
  induction cursor as [| u rest IH]; intros bulkOps us;
    cbn [subscriptionJobs.forAwait List.map].
  - rewrite app_nil_r. destruct bulkOps; reflexivity.
  - destruct (500 <=? length _)%nat; rewrite IH.
    + cbn [app]. rewrite <- bulkWrite_app, <- app_assoc. reflexivity.
    + rewrite <- app_assoc. reflexivity.
Qed.

Lemma bulkWrite_skip (ops : list (Z * list Assignment)) :
  forall (y : User.t) (r : list User.t),
    (forall op, In op ops -> fst op <> User._id y) ->
    subscriptionJobs.bulkWrite ops (y :: r) = y :: subscriptionJobs.bulkWrite ops r.
Proof.
  induction ops as [| op ops IH]; intros y r Hne; [reflexivity |].
  assert (E : hasId (fst op) y = false).
  { unfold hasId. apply bool_decide_eq_false_2. intros E.
    apply (Hne op); [left; reflexivity | symmetry; exact E]. }
  unfold subscriptionJobs.bulkWrite. cbn [fold_left updateFirst]. rewrite E.
  apply IH. intros op' Hin. apply Hne. right. exact Hin.
Qed.

Lemma bulkWrite_filter (p : User.t -> bool) (data : list Assignment) (l : list User.t) :
  List.NoDup (List.map User._id l) ->
  subscriptionJobs.bulkWrite (List.map (fun u => (User._id u, data)) (List.filter p l)) l
  = List.map (fun u => if p u then assignAll u data else u) l.
Proof.
  induction l as [| x r IH]; intros Hnd; [reflexivity |].
  cbn [List.map] in Hnd. apply List.NoDup_cons_iff in Hnd. destruct Hnd as [Hx Hnd].
  assert (Hops : forall y, User._id y = User._id x ->
            forall op, In op (List.map (fun u => (User._id u, data)) (List.filter p r)) ->
                       fst op <> User._id y).
  { intros y Hy op Hin. apply in_map_iff in Hin. destruct Hin as (u & <- & Hu).
    apply filter_In in Hu. destruct Hu as [Hu _]. cbn [fst]. intros E.
    apply Hx. rewrite <- Hy, <- E. apply in_map. exact Hu. }
  cbn [List.filter List.map]. destruct (p x) eqn:Hp.
  - assert (E : hasId (User._id x) x = true)
      by (unfold hasId; apply bool_decide_eq_true_2; reflexivity).
    cbn [List.map].
    change (subscriptionJobs.bulkWrite
              ((User._id x, data)
               :: List.map (fun u => (User._id u, data)) (List.filter p r)) (x :: r))
      with (subscriptionJobs.bulkWrite
              (List.map (fun u => (User._id u, data)) (List.filter p r))
              (if hasId (User._id x) x then assignAll x data :: r
               else x :: updateFirst (hasId (User._id x))
                           (fun u => assignAll u data) r)).
    rewrite E.
    rewrite bulkWrite_skip by (apply Hops; apply assignAll_id).
    rewrite IH by exact Hnd. reflexivity.
  - rewrite bulkWrite_skip by (apply Hops; reflexivity).
    rewrite IH by exact Hnd. reflexivity.
Qed.

Lemma checkExpiredSubscriptions_users (now : Z) (db : DB) :
  List.NoDup (List.map User._id (users db)) ->
  users (subscriptionJobs.checkExpiredSubscriptions now db)
  = List.map
      (fun u =>
         if subscriptionJobs.matchesExpired now u
         then assignAll u
                (subscriptionJobs.updateData now (Plan._id <$> Plan_findOne_free db))
         else u)
      (users db).
Proof.
  intros Hnd. unfold subscriptionJobs.checkExpiredSubscriptions. cbn [users withUsers].
  rewrite forAwait_bulkWrite. cbn [app]. apply bulkWrite_filter. exact Hnd.
Qed.

Lemma matchesExpired_updated (now : Z) (freePlanId : option Z) (u : User.t) :
  subscriptionJobs.matchesExpired now
    (assignAll u (subscriptionJobs.updateData now freePlanId)) = false.
Proof.
  unfold subscriptionJobs.matchesExpired.
  destruct freePlanId as [id |];
    cbn [subscriptionJobs.updateData assignAll fold_left assign User.subscriptionStatus];
    rewrite !bool_decide_eq_false_2 by discriminate; reflexivity.
Qed.

(** X29.  The nightly job leaves no subscription that has run out.  Run at
    [now] on a user collection with unique ids, with no other writer at
    work, the job leaves no user that its own filter matches (an active
    subscription whose end date, or a trial whose end, is before [now]);
    it leaves every other user as it was, and it changes no account (id,
    username, email, password hash, role), no refresh-token pointer, no
    plan and no ledger entry. *)
Theorem job_leaves_no_expired_subscription (now : Z) (db : DB) :
  List.NoDup (List.map User._id (users db)) ->
  let db' := subscriptionJobs.checkExpiredSubscriptions now db in
  Forall (fun u => subscriptionJobs.matchesExpired now u = false) (users db')
  /\ (forall u, In u (users db) -> subscriptionJobs.matchesExpired now u = false ->
        In u (users db'))
  /\ List.map accountOf (users db') = List.map accountOf (users db)
  /\ List.map User.refreshToken (users db') = List.map User.refreshToken (users db)
  /\ plans db' = plans db
  /\ usedRefreshTokens db' = usedRefreshTokens db.
Proof.
  intros Hnd db'.
  pose proof (checkExpiredSubscriptions_users now db Hnd) as Husers.
  fold db' in Husers.
  set (data := subscriptionJobs.updateData now (Plan._id <$> Plan_findOne_free db)) in *.
  split; [| split; [| split; [| split; [| split]]]].
  - rewrite Husers. apply List.Forall_map. apply List.Forall_forall. intros u _.
    destruct (subscriptionJobs.matchesExpired now u) eqn:E; [| exact E].
    apply matchesExpired_updated.
  - intros u Hin Hu. rewrite Husers. apply in_map_iff. exists u.
    rewrite Hu. split; [reflexivity | exact Hin].
  - rewrite Husers, List.map_map. apply List.map_ext. intros u.
    destruct (subscriptionJobs.matchesExpired now u); [apply accountOf_assignAll | reflexivity].
  - rewrite Husers, List.map_map. apply List.map_ext. intros u.
    destruct (subscriptionJobs.matchesExpired now u); [| reflexivity].
    unfold data. destruct (Plan._id <$> Plan_findOne_free db); reflexivity.
  - reflexivity.
  - reflexivity.
Qed.

Lemma find_hasId_map (g : User.t -> User.t) (id : Z) (l : list User.t) :
  (forall u, User._id (g u) = User._id u) ->
  List.find (hasId id) (List.map g l) = g <$> List.find (hasId id) l.
Proof.
  intros Hg. induction l as [| x r IH]; cbn [List.map List.find]; [reflexivity |].
  unfold hasId at 1 3. rewrite Hg.
  destruct (bool_decide (User._id x = id)); [reflexivity | exact IH].
Qed.

Lemma ranOut_matchesExpired (now : Z) (stored u : User.t) :
  agrees stored u -> ranOut now u -> subscriptionJobs.matchesExpired now stored = true.
Proof.
  intros (_ & _ & Hs & _ & He & Ht) Hout. unfold subscriptionJobs.matchesExpired.
  rewrite Hs, He, Ht.
  destruct Hout as [[Hst (d & -> & Hd)] | [Hst (d & -> & Hd)]]; rewrite Hst.
  - rewrite bool_decide_eq_true_2 by reflexivity.
    replace (d <? now) with true by (symmetry; apply Z.ltb_lt; exact Hd). reflexivity.
  - rewrite (bool_decide_eq_false_2 (trialing = active)) by discriminate.
    rewrite bool_decide_eq_true_2 by reflexivity.
    replace (d <? now) with true by (symmetry; apply Z.ltb_lt; exact Hd). reflexivity.
Qed.

(** X30.  The nightly job and the issuance of tokens downgrade alike.  For
    a user whose subscription has run out before [now], on a collection
    with unique ids that holds a free plan, the document that the job
    leaves and the document that [generateAccessAndRefereshTokens] (at
    login or refresh) saves at the same instant have the same plan (the
    free plan), the same status ('free'), the same start date ([now]) and
    no end date and no trial end; they differ in the refresh token only,
    which the job does not touch. *)
Theorem job_downgrades_like_issuance
    (env : Env) (now : Z) (u : User.t) (db : DB) (stored : User.t)
    (freePlan : Plan.t) :
  ACCESS_TOKEN_SECRET env <> EmptyString ->
  REFRESH_TOKEN_SECRET env <> EmptyString ->
  List.NoDup (List.map User._id (users db)) ->
  List.find (hasId (User._id u)) (users db) = Some stored ->
  agrees stored u ->
  ranOut now u ->
  Plan_findOne_free db = Some freePlan ->
  exists db1 issued byIssuance byJob,
    run (generateAccessAndRefereshTokens env now (loaded u)) db = (db1, inr issued)
    /\ List.find (hasId (User._id u)) (users db1) = Some byIssuance
    /\ List.find (hasId (User._id u))
         (users (subscriptionJobs.checkExpiredSubscriptions now db)) = Some byJob
    /\ User.planId byJob = PlanOid (Plan._id freePlan)
    /\ User.planId byIssuance = User.planId byJob
    /\ User.subscriptionStatus byIssuance = User.subscriptionStatus byJob
    /\ User.subscriptionStartDate byIssuance = User.subscriptionStartDate byJob
    /\ User.subscriptionEndDate byIssuance = User.subscriptionEndDate byJob
    /\ User.trialEndsAt byIssuance = User.trialEndsAt byJob
    /\ accountOf byIssuance = accountOf byJob
    /\ User.refreshToken byJob = User.refreshToken stored.
Proof.
  intros Ha Hr Hnd Hfind Hag Hout Hfree.
  destruct (generate_downgrades env now u db stored Ha Hr Hfind Hag Hout)
    as (db1 & doc' & accessToken & refreshToken & Hrun & _ & Hdown).
  destruct Hdown as (stored0 & stored' & Hfind0 & Hfind1 & _ & Hvalues).
  rewrite Hfree in Hvalues.
  destruct Hvalues as (Hplan & Hstatus & Hstart & Hend & Htrial & _).
  set (byJob := assignAll stored
                  (subscriptionJobs.updateData now (Some (Plan._id freePlan)))).
  assert (HfindJ : List.find (hasId (User._id u))
                     (users (subscriptionJobs.checkExpiredSubscriptions now db))
                   = Some byJob).
  { rewrite (checkExpiredSubscriptions_users now db Hnd).
    rewrite find_hasId_map.
    - rewrite Hfind, Hfree. cbn [fmap option_fmap option_map].
      rewrite (ranOut_matchesExpired now stored u Hag Hout). reflexivity.
    - intros v. destruct (subscriptionJobs.matchesExpired now v);
        [apply assignAll_id | reflexivity]. }
  assert (Hacc : accountOf stored' = accountOf stored).
  { pose proof (keeps_run onlySessionsChanged
                  (generateAccessAndRefereshTokens env now (loaded u))
                  onlySessionsChanged_refl onlySessionsChanged_trans
                  (keeps_generateAccessAndRefereshTokens env now (loaded u)) db) as Hk.
    rewrite Hrun in Hk. cbn [fst] in Hk. destruct Hk as (Hmap & _).
    clear - Hmap Hfind Hfind1.
    assert (Hgen : forall l1 l0 id a b,
              List.map accountOf l1 = List.map accountOf l0 ->
              List.find (hasId id) l1 = Some a -> List.find (hasId id) l0 = Some b ->
              accountOf a = accountOf b).
    { induction l1 as [| x1 r1 IH]; intros [| x0 r0] id a b Hm H1 H0;
        try discriminate.
      pose proof (f_equal (fun l => List.hd (accountOf x1) l) Hm) as Hx.
      pose proof (f_equal (@List.tl _) Hm) as Ht.
      cbn [List.map List.hd List.tl] in Hx, Ht. clear Hm.
      cbn [List.find] in H1, H0.
      assert (Hid : hasId id x1 = hasId id x0).
      { assert (E : User._id x1 = User._id x0)
          by (unfold accountOf in Hx; congruence).
        unfold hasId. rewrite E. reflexivity. }
      rewrite Hid in H1. destruct (hasId id x0).
      - injection H1 as <-. injection H0 as <-. exact Hx.
      - exact (IH r0 id a b Ht H1 H0). }
    exact (Hgen _ _ _ _ _ Hmap Hfind1 Hfind). }
  exists db1, (doc', (accessToken, refreshToken)), stored', byJob.
  split; [exact Hrun |]. split; [exact Hfind1 |]. split; [exact HfindJ |].
  unfold byJob.
  cbn [subscriptionJobs.updateData assignAll fold_left assign User.planId
       User.subscriptionStatus User.subscriptionStartDate User.subscriptionEndDate
       User.trialEndsAt User.refreshToken].
  repeat split; assumption.
Qed.

Lemma job_leaves_no_expired_subscription_witness :
  let db' := subscriptionJobs.checkExpiredSubscriptions 6000000 Sample.db0 in
  Forall (fun u => subscriptionJobs.matchesExpired 6000000 u = false) (users db')
  /\ (forall u, In u (users Sample.db0) ->
        subscriptionJobs.matchesExpired 6000000 u = false -> In u (users db'))
  /\ List.map accountOf (users db') = List.map accountOf (users Sample.db0)
  /\ List.map User.refreshToken (users db')
     = List.map User.refreshToken (users Sample.db0)
  /\ plans db' = plans Sample.db0
  /\ usedRefreshTokens db' = usedRefreshTokens Sample.db0.
Proof.
  apply (job_leaves_no_expired_subscription 6000000 Sample.db0).
  cbn. repeat (constructor; [cbn; intuition discriminate |]). constructor.
Defined.

Lemma job_downgrades_like_issuance_witness :
  exists db1 issued byIssuance byJob,
    run (generateAccessAndRefereshTokens Sample.env0 6000000 (loaded Sample.alice))
      Sample.db0 = (db1, inr issued)
    /\ List.find (hasId (User._id Sample.alice)) (users db1) = Some byIssuance
    /\ List.find (hasId (User._id Sample.alice))
         (users (subscriptionJobs.checkExpiredSubscriptions 6000000 Sample.db0))
       = Some byJob
    /\ User.planId byJob = PlanOid (Plan._id Sample.freePlan)
    /\ User.planId byIssuance = User.planId byJob
    /\ User.subscriptionStatus byIssuance = User.subscriptionStatus byJob
    /\ User.subscriptionStartDate byIssuance = User.subscriptionStartDate byJob
    /\ User.subscriptionEndDate byIssuance = User.subscriptionEndDate byJob
    /\ User.trialEndsAt byIssuance = User.trialEndsAt byJob
    /\ accountOf byIssuance = accountOf byJob
    /\ User.refreshToken byJob = User.refreshToken Sample.alice.
Proof.
  apply (job_downgrades_like_issuance Sample.env0 6000000 Sample.alice Sample.db0
           Sample.alice Sample.freePlan).
  - discriminate.
  - discriminate.
  - cbn. repeat (constructor; [cbn; intuition discriminate |]). constructor.
  - reflexivity.
  - unfold agrees. repeat split; try reflexivity. left. reflexivity.
  - left. split; [reflexivity |]. exists 5000000. split; [reflexivity | lia].
  - reflexivity.
Defined.
